(** * slopcannon: worktree lifecycle and cleanup safety

  A shallow embedding of the git-facing code of slopcannon (git.ts,
  cleanup.ts, cli.ts) together with the properties its specification
  states about it.

  JavaScript strings are modelled as [string]: sequences of code units
  below 256. Of the ECMAScript WhiteSpace and LineTerminator sets, which
  [String.prototype.trim] removes, these strings can hold TAB, LF, VT,
  FF, CR, SPACE and NO-BREAK SPACE; text with code units from 256 on is
  outside the model.
  Child processes are modelled by a host interface: an abstract world
  and a transition that maps a command line to its result, and by a
  launcher that says which children can be started at all. *)

From Stdlib Require Import String Ascii List ZArith Lia Bool Arith.
From Stdlib Require Import Permutation Sorted.
From Stdlib Require Import DecimalString.
Import ListNotations.
Open Scope list_scope.
Open Scope string_scope.

(** ** JavaScript string primitives used by the sources *)

Module JS.

(** Characters removed by [trim]: TAB, LF, VT, FF, CR, SPACE and
    NO-BREAK SPACE (U+00A0). *)
Definition isWhiteSpace (c : ascii) : bool :=
  let n := nat_of_ascii c in
  ((9 <=? n)%nat && (n <=? 13)%nat) || (n =? 32)%nat || (n =? 160)%nat.

Fixpoint trimStart (s : string) : string :=
  match s with
  | EmptyString => EmptyString
  | String c s' => if isWhiteSpace c then trimStart s' else s
  end.

Fixpoint trimEnd (s : string) : string :=
  match s with
  | EmptyString => EmptyString
  | String c s' =>
      match trimEnd s' with
      | EmptyString => if isWhiteSpace c then EmptyString else String c EmptyString
      | t => String c t
      end
  end.

(** [s.trim()] *)
Definition trim (s : string) : string := trimEnd (trimStart s).

(** [s.startsWith(p)] *)
Definition startsWith (s p : string) : bool := String.prefix p s.

(** [s.slice(n)] for [0 <= n] *)
Fixpoint slice (n : nat) (s : string) : string :=
  match n, s with
  | O, _ => s
  | S _, EmptyString => EmptyString
  | S n', String _ s' => slice n' s'
  end.

(** [s.split(sep)] for a one-character separator; the empty string
    splits into one empty piece. *)
Fixpoint split (sep : ascii) (s : string) : list string :=
  match s with
  | EmptyString => [EmptyString]
  | String c s' =>
      if Ascii.eqb c sep then EmptyString :: split sep s'
      else match split sep s' with
           | [] => [String c EmptyString]
           | w :: ws => String c w :: ws
           end
  end.

(** [s.replace(pat, rep)] with a string pattern: only the first
    occurrence is replaced. *)
Fixpoint replace (pat rep s : string) : string :=
  if String.prefix pat s then rep ++ slice (String.length pat) s
  else match s with
       | EmptyString => EmptyString
       | String c s' => String c (replace pat rep s')
       end.

(** [s.replace(/c/g, d)]: every occurrence of the character [c]. *)
Fixpoint replaceAll (c d : ascii) (s : string) : string :=
  match s with
  | EmptyString => EmptyString
  | String x s' => String (if Ascii.eqb x c then d else x) (replaceAll c d s')
  end.

(** [l.join(sep)] *)
Definition join (sep : string) (l : list string) : string := String.concat sep l.

(** Truthiness of a string: the empty string is falsy. *)
Definition truthy (s : string) : bool := negb (String.eqb s EmptyString).

(** Truthiness of [string | null] and [string | undefined]. *)
Definition truthyOpt (o : option string) : bool :=
  match o with
  | Some s => truthy s
  | None => false
  end.

Definition LF : ascii := "010"%char.

(** [raw.split("\n")] *)
Definition lines (raw : string) : list string := split LF raw.

(** Decimal rendering of an integer inside a template literal. *)
Definition showZ (z : Z) : string := NilZero.string_of_int (Z.to_int z).

(** [c.toLowerCase()] on one code unit below 256: the capital letters
    are A to Z and, in the upper half, U+00C0 to U+00DE without the
    multiplication sign U+00D7. *)
Definition lowerChar (c : ascii) : ascii :=
  let n := nat_of_ascii c in
  if ((65 <=? n)%nat && (n <=? 90)%nat)
     || ((192 <=? n)%nat && (n <=? 222)%nat && negb (n =? 215)%nat)
  then ascii_of_nat (n + 32) else c.

(** [s.toLowerCase()] *)
Fixpoint toLowerCase (s : string) : string :=
  match s with
  | EmptyString => EmptyString
  | String c s' => String (lowerChar c) (toLowerCase s')
  end.

(** [s || d] on strings. *)
Definition orElse (s d : string) : string := if truthy s then s else d.

End JS.

(** ** The host: child processes, executables on the search path, and the
    two runtime services the sources call ([Intl] collation and
    [JSON.parse]) *)

Record SpawnResult := mkSpawnResult {
  exitCode : Z;
  stdout : string;
  stderr : string
}.

(** Summary of a review request, as [gh pr list --json number,title,state,url]
    prints it. *)
Record PrInfo := mkPrInfo {
  pr_number : Z;
  pr_title : string;
  pr_state : string;
  pr_url : string
}.

Class Host := {
  (** the state of everything outside the process: repository, remote,
      file system *)
  World : Type;
  (** [Bun.spawnSync(argv, { cwd })]: runs to completion, may change the
      world; [None] for [cwd] is the process's working directory *)
  spawnSync : list string -> option string -> World -> SpawnResult * World;
  (** [Bun.which(name)] *)
  which : string -> World -> option string;
  (** the sort key of the runtime's default collator; [localeCompare]
      orders two strings as their sort keys *)
  collationKey : string -> list N;
  (** [JSON.parse] on the output of [gh pr list]: [None] when it throws *)
  parsePrList : string -> option (list PrInfo)
}.

(** Whether a child can be started at all. [Bun.spawnSync] throws, before
    anything runs, when it cannot start the child (a working directory
    that does not exist, an argument that holds a NUL byte):
    [startError argv cwd w] is the message of that error in the world [w],
    and [None] when the child starts. *)
Class Launcher (H : Host) := {
  startError : list string -> option string -> World -> option string
}.

(** One executed command line, with what it returned. *)
Record Call := mkCall {
  call_argv : list string;
  call_cwd : option string;
  call_result : SpawnResult
}.

Definition call_exit (c : Call) : Z := exitCode (call_result c).

(** Outcome of a computation that may throw [new Error(msg)]. *)
Inductive Res (A : Type) : Type :=
| Ok (a : A)
| Throw (msg : string).
Arguments Ok {A} a.
Arguments Throw {A} msg.

(** Equality of two command lines. *)
Fixpoint sameArgv (a b : list string) : bool :=
  match a, b with
  | [], [] => true
  | x :: a', y :: b' => String.eqb x y && sameArgv a' b'
  | _, _ => false
  end.

Module Run.
Section WithHost.
Context {H : Host} {L : Launcher H}.

(** The world, and the trace of commands run so far (oldest first). *)
Record St := mkSt {
  world : World;
  calls : list Call
}.

(** Computations thread the state; an exception keeps the effects that
    happened before it. *)
Definition M (A : Type) : Type := St -> Res A * St.

Definition ret {A} (a : A) : M A := fun st => (Ok a, st).

Definition bind {A B} (m : M A) (k : A -> M B) : M B :=
  fun st =>
    match m st with
    | (Ok a, st') => k a st'
    | (Throw msg, st') => (Throw msg, st')
    end.

Definition throw {A} (msg : string) : M A := fun st => (Throw msg, st).

(** [try { body } catch (err) { handler(err.message) }] *)
Definition tryCatch {A} (body : M A) (handler : string -> M A) : M A :=
  fun st =>
    match body st with
    | (Ok a, st') => (Ok a, st')
    | (Throw msg, st') => handler msg st'
    end.

(** [Bun.spawnSync(argv, { cwd })]: it throws when the child cannot be
    started, and nothing has happened then; otherwise the child runs to
    its end and the command goes on the trace. *)
Definition spawn (argv : list string) (cwd : option string) : M SpawnResult :=
  fun st =>
    match startError argv cwd (world st) with
    | Some msg => (Throw msg, st)
    | None =>
        let (r, w') := spawnSync argv cwd (world st) in
        (Ok r, {| world := w'; calls := (calls st ++ [mkCall argv cwd r])%list |})
    end.

Definition whichM (name : string) : M (option string) :=
  fun st => (Ok (which name (world st)), st).

End WithHost.
End Run.

Declare Scope run_scope.
Delimit Scope run_scope with run.
Notation "x <- m ;; k" := (Run.bind m (fun x => k))
  (at level 61, m at next level, right associativity) : run_scope.
Notation "m ;;; k" := (Run.bind m (fun _ => k))
  (at level 61, right associativity) : run_scope.
Open Scope run_scope.

(** ** [path.join] of the runtime, POSIX flavour *)

Module Path.

Definition SEP : ascii := "/"%char.

(** One step of the segment normaliser: the stack holds the segments kept
    so far, innermost first. Empty segments and [.] are dropped; [..]
    removes the segment before it, or is kept when there is none to
    remove and the path is relative. *)
Definition normStep (allowAboveRoot : bool) (stack : list string) (seg : string)
  : list string :=
  if String.eqb seg EmptyString then stack
  else if String.eqb seg "." then stack
  else if String.eqb seg ".." then
    match stack with
    | top :: below =>
        if String.eqb top ".." then seg :: stack else below
    | [] => if allowAboveRoot then [seg] else []
    end
  else seg :: stack.

Definition normalizeSegments (allowAboveRoot : bool) (segs : list string)
  : list string :=
  rev (fold_left (normStep allowAboveRoot) segs []).

Fixpoint endsWithSep (s : string) : bool :=
  match s with
  | EmptyString => false
  | String c EmptyString => Ascii.eqb c SEP
  | String _ s' => endsWithSep s'
  end.

(** [path.normalize] *)
Definition normalize (p : string) : string :=
  if String.eqb p EmptyString then "."
  else
    let isAbsolute := JS.startsWith p "/" in
    let trailingSeparator := endsWithSep p in
    let body := JS.join "/" (normalizeSegments (negb isAbsolute) (JS.split SEP p)) in
    if String.eqb body EmptyString then
      if isAbsolute then "/" else if trailingSeparator then "./" else "."
    else
      let body' := if trailingSeparator then body ++ "/" else body in
      if isAbsolute then "/" ++ body' else body'.

(** [path.join(...parts)]: the non-empty parts, separated by [/], then
    normalised. *)
Definition join (parts : list string) : string :=
  match filter JS.truthy parts with
  | [] => "."
  | ps => normalize (JS.join "/" ps)
  end.

(** The loops of [path.basename] and [path.dirname] walk the path from
    its end; here they walk the reversed list of its characters. *)

(** Skip the separators in front. *)
Fixpoint dropSeps (cs : list ascii) : list ascii :=
  match cs with
  | [] => []
  | c :: cs' => if Ascii.eqb c SEP then dropSeps cs' else cs
  end.

(** The characters in front of the first separator. *)
Fixpoint takeName (cs : list ascii) : list ascii :=
  match cs with
  | [] => []
  | c :: cs' => if Ascii.eqb c SEP then [] else c :: takeName cs'
  end.

(** What is left from the first separator on. *)
Fixpoint dropName (cs : list ascii) : list ascii :=
  match cs with
  | [] => []
  | c :: cs' => if Ascii.eqb c SEP then cs else dropName cs'
  end.

(** [path.basename(p)]: trailing separators are skipped, then the
    characters back to the separator before them are the name. *)
Definition basename (p : string) : string :=
  string_of_list_ascii (rev (takeName (dropSeps (rev (list_ascii_of_string p))))).

(** [path.dirname(p)]: the first character is never looked at as a
    separator to cut at; the path is cut in front of the separator that
    precedes the last name. *)
Definition dirname (p : string) : string :=
  match list_ascii_of_string p with
  | [] => "."
  | first :: rest =>
      let hasRoot := Ascii.eqb first SEP in
      match dropName (dropSeps (rev rest)) with
      | [] => if hasRoot then "/" else "."
      | _ :: before =>
          match before with
          | [] => if hasRoot then "//" else String first EmptyString
          | _ :: _ => string_of_list_ascii (first :: rev before)
          end
      end
  end.

End Path.

(** ** git.ts *)

Record BranchEntry := mkBranchEntry {
  name : string;
  ref : string
}.

Record WorktreeEntry := mkWorktreeEntry {
  path : string;
  branch : option string;
  isMain : bool
}.

Record RepoInfo := mkRepoInfo {
  root : string;
  repoName : string;
  parentDir : string;
  remoteUrl : option string;
  defaultBranch : string;
  branches : list BranchEntry
}.

(** [Partial<WorktreeEntry>] as the parser uses it: a field is absent
    ([None]) or set; a set [branch] is a name or [null]. *)
Record PartialEntry := mkPartialEntry {
  cur_path : option string;
  cur_branch : option (option string)
}.

Module Git.

(** *** Pure parts *)

(** [Set.prototype.add] on a set kept as a duplicate-free list. *)
Definition setAdd (x : string) (s : list string) : list string :=
  if existsb (String.eqb x) s then s else (s ++ [x])%list.

Definition setHas (x : string) (s : list string) : bool :=
  existsb (String.eqb x) s.

(** A [Map<string, BranchEntry>] in insertion order. *)
Definition mapHas (k : string) (m : list (string * BranchEntry)) : bool :=
  existsb (fun kv => String.eqb k (fst kv)) m.

(** First pass of [listBranches]: the local branch names. *)
Definition collectLocal (acc : list string) (line : string) : list string :=
  let name := JS.trim line in
  if negb (JS.truthy name) || JS.startsWith name "origin/" then acc
  else setAdd name acc.

Definition localBranches (raw : string) : list string :=
  fold_left collectLocal (JS.lines raw) [].

(** Second pass: one entry per short name, the first occurrence wins the
    slot and a local branch of that name wins the reference. No key is
    ever overwritten, so [entries.set] is an append. *)
Definition buildEntry (locals : list string) (entries : list (string * BranchEntry))
  (line : string) : list (string * BranchEntry) :=
  let name := JS.trim line in
  if negb (JS.truthy name) then entries
  else
    let isRemote := JS.startsWith name "origin/" in
    let short := if isRemote then JS.replace "origin/" EmptyString name else name in
    if String.eqb short "HEAD" then entries
    else if mapHas short entries then entries
    else
      (entries
       ++ [(short, mkBranchEntry short (if setHas short locals then short else name))])%list.

Definition branchEntries (raw : string) : list BranchEntry :=
  map snd (fold_left (buildEntry (localBranches raw)) (JS.lines raw) []).

(** Lexicographic comparison of two sort keys. *)
Fixpoint compareKeys (k1 k2 : list N) : comparison :=
  match k1, k2 with
  | [], [] => Eq
  | [], _ :: _ => Lt
  | _ :: _, [] => Gt
  | x :: k1', y :: k2' =>
      match N.compare x y with
      | Eq => compareKeys k1' k2'
      | c => c
      end
  end.

Definition signOf (c : comparison) : Z :=
  match c with
  | Lt => (-1)%Z
  | Eq => 0%Z
  | Gt => 1%Z
  end.

(** [Array.prototype.sort(cmp)]: a stable sort; [x] goes in front of the
    first element it does not compare greater than. *)
Fixpoint insertSorted {A} (cmp : A -> A -> Z) (x : A) (l : list A) : list A :=
  match l with
  | [] => [x]
  | y :: l' => if (cmp x y <=? 0)%Z then x :: l else y :: insertSorted cmp x l'
  end.

Fixpoint sort {A} (cmp : A -> A -> Z) (l : list A) : list A :=
  match l with
  | [] => []
  | x :: l' => insertSorted cmp x (sort cmp l')
  end.

Section WithHost.
Context {H : Host} {L : Launcher H}.

(** [a.localeCompare(b)] *)
Definition localeCompare (a b : string) : Z :=
  signOf (compareKeys (collationKey a) (collationKey b)).

(** The comparator [listBranches] sorts with. *)
Definition branchOrder (defaultBranch : string) (a b : BranchEntry) : Z :=
  if String.eqb (name a) defaultBranch then (-1)%Z
  else if String.eqb (name b) defaultBranch then 1%Z
  else localeCompare (name a) (name b).

(** [listBranches] on the text that [git branch -a] printed. *)
Definition listBranchesOf (raw defaultBranch : string) : list BranchEntry :=
  sort (branchOrder defaultBranch) (branchEntries raw).

(** *** Commands *)

(** [exec(args, cwd)]: trimmed standard output, or an exception carrying
    the trimmed standard error (or a generic message when it is empty). *)
Definition execError (args : list string) (result : SpawnResult) : string :=
  let err := JS.trim (stderr result) in
  if JS.truthy err then err
  else "git " ++ JS.join " " args ++ " failed with exit code " ++ JS.showZ (exitCode result).

Definition exec (args : list string) (cwd : option string) : Run.M string :=
  result <- Run.spawn ("git" :: args) cwd ;;
  if negb (exitCode result =? 0)%Z then Run.throw (execError args result)
  else Run.ret (JS.trim (stdout result)).

Definition detectDefaultBranch (root : string) : Run.M string :=
  Run.tryCatch
    (ref <- exec ["symbolic-ref"; "refs/remotes/origin/HEAD"] (Some root) ;;
     Run.ret (JS.replace "refs/remotes/origin/" EmptyString ref))
    (fun _ =>
  Run.tryCatch
    (exec ["rev-parse"; "--verify"; "refs/heads/main"] (Some root) ;;;
     Run.ret "main")
    (fun _ =>
  Run.tryCatch
    (exec ["rev-parse"; "--verify"; "refs/heads/master"] (Some root) ;;;
     Run.ret "master")
    (fun _ =>
  current <- exec ["branch"; "--show-current"] (Some root) ;;
  Run.ret (if JS.truthy current then current else "main")))).

Definition listBranches (root defaultBranch : string) : Run.M (list BranchEntry) :=
  raw <- exec ["branch"; "-a"; "--format=%(refname:short)"] (Some root) ;;
  Run.ret (listBranchesOf raw defaultBranch).

Definition validateBranchName (name root : string) : Run.M (option string) :=
  fmtResult <- Run.spawn ["git"; "check-ref-format"; "--branch"; name] (Some root) ;;
  if negb (exitCode fmtResult =? 0)%Z then Run.ret (Some "Invalid branch name")
  else
    existsResult <- Run.spawn ["git"; "rev-parse"; "--verify"; "refs/heads/" ++ name]
                              (Some root) ;;
    if (exitCode existsResult =? 0)%Z
    then Run.ret (Some ("Branch '" ++ name ++ "' already exists"))
    else Run.ret None.

(** *** Worktree listing *)

Definition emptyPartial : PartialEntry := mkPartialEntry None None.

(** The [entries.push] both exits of the parser share: a record without
    a (non-empty) path is dropped, and a record is the main worktree
    exactly when nothing was pushed before it. *)
Definition pushCurrent (entries : list WorktreeEntry) (current : PartialEntry)
  : list WorktreeEntry :=
  match cur_path current with
  | Some p =>
      if JS.truthy p then
        (entries ++ [mkWorktreeEntry p
                       (match cur_branch current with
                        | Some (Some b) => Some b
                        | _ => None
                        end)
                       (Nat.eqb (List.length entries) 0)])%list
      else entries
  | None => entries
  end.

Definition parseLine (acc : list WorktreeEntry * PartialEntry) (line : string)
  : list WorktreeEntry * PartialEntry :=
  let (entries, current) := acc in
  if JS.startsWith line "worktree " then
    (entries, mkPartialEntry (Some (JS.slice (String.length "worktree ") line))
                             (cur_branch current))
  else if JS.startsWith line "branch refs/heads/" then
    (entries, mkPartialEntry (cur_path current)
                             (Some (Some (JS.slice (String.length "branch refs/heads/") line))))
  else if String.eqb line "detached" then
    (entries, mkPartialEntry (cur_path current) (Some None))
  else if String.eqb line EmptyString then
    (pushCurrent entries current, emptyPartial)
  else acc.

(** [listWorktrees] on the text that [git worktree list --porcelain]
    printed. *)
Definition parseWorktrees (raw : string) : list WorktreeEntry :=
  let (entries, current) := fold_left parseLine (JS.lines raw) ([], emptyPartial) in
  pushCurrent entries current.

Definition listWorktrees (root : string) : Run.M (list WorktreeEntry) :=
  raw <- exec ["worktree"; "list"; "--porcelain"] (Some root) ;;
  Run.ret (parseWorktrees raw).

Definition isBranchMerged (root branch into : string) : Run.M bool :=
  Run.tryCatch
    (merged <- exec ["branch"; "--merged"; into] (Some root) ;;
     Run.ret (existsb (fun l => String.eqb (JS.trim l) branch) (JS.lines merged)))
    (fun _ => Run.ret false).

Definition isBranchDeletedOnRemote (root branch : string) : Run.M bool :=
  result <- Run.spawn ["git"; "rev-parse"; "--verify"; "refs/remotes/origin/" ++ branch]
                      (Some root) ;;
  Run.ret (negb (exitCode result =? 0)%Z).

Definition removeWorktreeArgs (worktreePath : string) (force : bool) : list string :=
  (["worktree"; "remove"; worktreePath] ++ (if force then ["--force"] else []))%list.

Definition removeWorktree (root worktreePath : string) (force : bool) : Run.M unit :=
  exec (removeWorktreeArgs worktreePath force) (Some root) ;;;
  Run.ret tt.

Definition deleteBranchArgs (branch : string) (force : bool) : list string :=
  ["branch"; if force then "-D" else "-d"; branch].

Definition deleteBranch (root branch : string) (force : bool) : Run.M unit :=
  exec (deleteBranchArgs branch force) (Some root) ;;;
  Run.ret tt.

Definition getRepoInfo : Run.M RepoInfo :=
  root <- exec ["rev-parse"; "--show-toplevel"] None ;;
  let repoName := Path.basename root in
  let parentDir := Path.dirname root in
  remoteUrl <- Run.tryCatch (url <- exec ["remote"; "get-url"; "origin"] (Some root) ;;
                             Run.ret (Some url))
                            (fun _ => Run.ret None) ;;
  defaultBranch <- detectDefaultBranch root ;;
  branches <- listBranches root defaultBranch ;;
  Run.ret (mkRepoInfo root repoName parentDir remoteUrl defaultBranch branches).

Definition createWorktreeArgs (worktreePath baseBranch newBranch : string) : list string :=
  ["worktree"; "add"; "-b"; newBranch; worktreePath; baseBranch].

Definition createWorktree (root worktreePath baseBranch newBranch : string) : Run.M unit :=
  exec (createWorktreeArgs worktreePath baseBranch newBranch) (Some root) ;;;
  Run.ret tt.

End WithHost.

Definition computeWorktreePath (parentDir repoName branch : string) : string :=
  let safeBranch := JS.replaceAll "/"%char "-"%char branch in
  Path.join [parentDir; repoName ++ "-" ++ safeBranch].

End Git.

(** ** cleanup.ts *)

Record WorktreeCandidate := mkWorktreeCandidate {
  entry : WorktreeEntry;
  merged : bool;
  deletedOnRemote : bool;
  pr : option PrInfo;
  safeToClean : bool
}.

(** How the scan of [runCleanup] ends: with the error it logs, with
    nothing to clean up, or with the candidates it offers. *)
Inductive Scan : Type :=
| CouldNotList (message : string)
| NothingToCleanUp
| Candidates (candidates : list WorktreeCandidate).

(** The prompts of [runCleanup], answered in advance: the selection made
    among the candidates shown, and the confirmation asked for the
    selection; [None] is a cancelled prompt. *)
Record CleanupPrompts : Type := mkCleanupPrompts {
  select : list WorktreeCandidate -> option (list WorktreeCandidate);
  confirm : list WorktreeCandidate -> option bool
}.

(** How [runCleanup] ends: the outro it prints, with the count and the
    error lines when it went through the removals. *)
Inductive Ending : Type :=
| NotInRepository
| CleanupFailed (message : string)
| NothingToClean
| SelectionCancelled
| NothingSelected
| NotConfirmed
| Done (removed : Z) (errors : list string).

Module Cleanup.
Section WithHost.
Context {H : Host} {L : Launcher H}.

Definition lookupPr (branch : string) : Run.M (option PrInfo) :=
  result <- Run.spawn ["gh"; "pr"; "list"; "--head"; branch; "--state"; "all";
                       "--json"; "number,title,state,url"; "--limit"; "1"] None ;;
  if negb (exitCode result =? 0)%Z then Run.ret None
  else
    match parsePrList (stdout result) with
    | Some [] => Run.ret None
    | Some (first :: _) => Run.ret (Some first)
    | None => Run.ret None
    end.

(** [pr?.state === "MERGED"] *)
Definition prMerged (pr : option PrInfo) : bool :=
  match pr with
  | Some info => String.eqb (pr_state info) "MERGED"
  | None => false
  end.

(** What a test [entry.branch ? ... : ...] sees: the branch when it is
    truthy; [null] and the empty name both take the other side. *)
Definition truthyBranch (e : WorktreeEntry) : option string :=
  match branch e with
  | Some b => if JS.truthy b then Some b else None
  | None => None
  end.

(** The body of [linked.map(...)]. *)
Definition classify (info : RepoInfo) (hasGh : bool) (entry : WorktreeEntry)
  : Run.M WorktreeCandidate :=
  merged <- (match truthyBranch entry with
             | Some b => Git.isBranchMerged (root info) b (defaultBranch info)
             | None => Run.ret false
             end) ;;
  deletedOnRemote <- (match truthyBranch entry with
                      | Some b => Git.isBranchDeletedOnRemote (root info) b
                      | None => Run.ret false
                      end) ;;
  pr <- (match truthyBranch entry with
         | Some b => if hasGh then lookupPr b else Run.ret None
         | None => Run.ret None
         end) ;;
  let prMerged := prMerged pr in
  let safeToClean :=
    merged || (deletedOnRemote && negb (JS.truthyOpt (branch entry))) || prMerged in
  Run.ret (mkWorktreeCandidate entry merged deletedOnRemote pr safeToClean).

Fixpoint mapM {A B} (f : A -> Run.M B) (l : list A) : Run.M (list B) :=
  match l with
  | [] => Run.ret []
  | x :: l' =>
      y <- f x ;;
      ys <- mapM f l' ;;
      Run.ret (y :: ys)
  end.

(** [runCleanup] from the prune to the candidate list; the prompts before
    and after are not part of the model. *)
Definition scan (info : RepoInfo) : Run.M Scan :=
  Run.tryCatch (Run.spawn ["git"; "worktree"; "prune"] (Some (root info)) ;;; Run.ret tt)
               (fun _ => Run.ret tt) ;;;
  listed <- Run.tryCatch (worktrees <- Git.listWorktrees (root info) ;;
                          Run.ret (inr worktrees))
                         (fun message => Run.ret (inl message)) ;;
  match listed with
  | inl message => Run.ret (CouldNotList ("Could not list worktrees: " ++ message))
  | inr worktrees =>
      let linked := filter (fun w => negb (isMain w)) worktrees in
      if Nat.eqb (List.length linked) 0 then Run.ret NothingToCleanUp
      else
        gh <- Run.whichM "gh" ;;
        candidates <- mapM (classify info (JS.truthyOpt gh)) linked ;;
        Run.ret (Candidates candidates)
  end.

(** The tags of [formatCandidate], in the order it pushes them. *)
Definition tagsOf (c : WorktreeCandidate) : list string :=
  ((if merged c then ["merged"] else [])
   ++ (if deletedOnRemote c then ["gone from remote"] else [])
   ++ match pr c with
      | Some info =>
          let state := if String.eqb (pr_state info) "MERGED" then "merged"
                       else JS.toLowerCase (pr_state info) in
          [("PR #" ++ JS.showZ (pr_number info) ++ " " ++ state ++ ": "
            ++ pr_title info)%string]
      | None => []
      end)%list.

Definition formatCandidate (c : WorktreeCandidate) : string :=
  let parts :=
    (match truthyBranch (entry c) with
     | Some b => [b]
     | None => ["(detached)"]
     end
     ++ match tagsOf c with
        | [] => []
        | tags => [("(" ++ JS.join ", " tags ++ ")")%string]
        end)%list in
  JS.join " " parts.

(** The candidates the selection prompt starts with ticked:
    [candidates.filter((c) => c.safeToClean)]. *)
Definition initialValues (candidates : list WorktreeCandidate) : list WorktreeCandidate :=
  filter safeToClean candidates.

(** [c.entry.branch ?? c.entry.path] *)
Definition label (c : WorktreeCandidate) : string :=
  match branch (entry c) with
  | Some b => b
  | None => path (entry c)
  end.

(** One turn of the removal loop, on the running [removed] count and
    [errors] list. *)
Definition reclaimOne (info : RepoInfo) (acc : Z * list string) (c : WorktreeCandidate)
  : Run.M (Z * list string) :=
  let (removed, errors) := acc in
  Run.tryCatch
    (Git.removeWorktree (root info) (path (entry c)) true ;;;
     match truthyBranch (entry c) with
     | Some b => Run.tryCatch (Git.deleteBranch (root info) b true)
                              (fun _ => Run.ret tt)
     | None => Run.ret tt
     end ;;;
     Run.ret ((removed + 1)%Z, errors))
    (fun msg => Run.ret (removed, (errors ++ [(label c ++ ": " ++ msg)%string])%list)).

Fixpoint reclaimLoop (info : RepoInfo) (toRemove : list WorktreeCandidate)
  (acc : Z * list string) : Run.M (Z * list string) :=
  match toRemove with
  | [] => Run.ret acc
  | c :: rest =>
      acc' <- reclaimOne info acc c ;;
      reclaimLoop info rest acc'
  end.

(** The removal loop of [runCleanup]: the count of removed worktrees and
    the error lines it goes on to print. *)
Definition reclaim (info : RepoInfo) (toRemove : list WorktreeCandidate)
  : Run.M (Z * list string) :=
  reclaimLoop info toRemove (0%Z, []).


(** [runCleanup], the terminal output left out. *)
Definition runCleanup (prompts : CleanupPrompts) : Run.M Ending :=
  found <- Run.tryCatch (info <- Git.getRepoInfo ;; Run.ret (Some info))
                        (fun _ => Run.ret None) ;;
  match found with
  | None => Run.ret NotInRepository
  | Some info =>
      scanned <- scan info ;;
      match scanned with
      | CouldNotList message => Run.ret (CleanupFailed message)
      | NothingToCleanUp => Run.ret NothingToClean
      | Candidates candidates =>
          match select prompts candidates with
          | None => Run.ret SelectionCancelled
          | Some toRemove =>
              if Nat.eqb (List.length toRemove) 0 then Run.ret NothingSelected
              else
                match confirm prompts toRemove with
                | Some true =>
                    outcome <- reclaim info toRemove ;;
                    Run.ret (Done (fst outcome) (snd outcome))
                | Some false | None => Run.ret NotConfirmed
                end
          end
      end
  end.

End WithHost.
End Cleanup.

(** ** cli.ts *)

Record CliArgs := mkCliArgs {
  help : bool;
  version : bool;
  config : bool;
  cleanup : bool;
  pathFile : option string
}.

Record DepCheckResult := mkDeps {
  dep_git : option string;
  dep_claude : option string;
  dep_gh : option string;
  dep_bun : option string
}.

(** What [parseArgs] leaves behind: the parsed arguments, or the process
    ended by [process.exit(code)] after a line on standard error. *)
Inductive Parsed : Type :=
| Args (a : CliArgs)
| Exited (code : Z) (message : string).

(** The terminal action of [main]. *)
Inductive Action : Type :=
| UsageError (code : Z) (message : string)
| PrintVersion
| PrintHelp (text : string)
| RunConfig
| RunCleanup
| MissingDependency (code : Z) (message : string)
| Cancelled
| WritePathFile (file worktreePath : string)
| LaunchAssistant (worktreePath : string).

Module Cli.

(** The template literal of [HELP], line by line: it opens and closes
    with a line break, which [.trim()] removes. *)
Definition helpLines : list string :=
  [ EmptyString;
    "slopcannon - Create a git worktree. Launch Claude Code. Ship slop.";
    EmptyString;
    "Usage:";
    "  slopcannon                     Interactive TUI";
    "  slopcannon cleanup|clean       Clean up merged/stale worktrees";
    "  slopcannon config              Configure settings";
    "  slopcannon --path-file <path>  Write worktree path to file (for shell function)";
    "  slopcannon --help              Show this help";
    EmptyString;
    "What it does:";
    "  git worktree add -b <branch> ../repo-branch origin/main";
    "  claude --dangerously-skip-permissions";
    EmptyString ].

Definition HELP : string := JS.trim (JS.join (String JS.LF EmptyString) helpLines).

(** The loop of [parseArgs] from position [i] on, [args] being the
    arguments not yet read; [args[++i]] consumes one more of them. *)
Fixpoint parseFrom (args : list string) (result : CliArgs) : Parsed :=
  match args with
  | [] => Args result
  | arg :: rest =>
      if String.eqb arg "--help" || String.eqb arg "-h" then
        parseFrom rest (mkCliArgs true (version result) (config result)
                                  (cleanup result) (pathFile result))
      else if String.eqb arg "--version" || String.eqb arg "-v" || String.eqb arg "-V" then
        parseFrom rest (mkCliArgs (help result) true (config result)
                                  (cleanup result) (pathFile result))
      else
        let otherwise :=
          if String.eqb arg "config" then
            parseFrom rest (mkCliArgs (help result) (version result) true
                                      (cleanup result) (pathFile result))
          else if String.eqb arg "cleanup" || String.eqb arg "clean" then
            parseFrom rest (mkCliArgs (help result) (version result) (config result)
                                      true (pathFile result))
          else if negb (JS.startsWith arg "-") then
            Exited 1 ("Unknown command: " ++ arg
                      ++ String JS.LF "Run 'slopcannon --help' for usage.")
          else parseFrom rest result in
        if String.eqb arg "--path-file" then
          (* [i + 1 < args.length] *)
          match rest with
          | value :: rest' =>
              parseFrom rest' (mkCliArgs (help result) (version result) (config result)
                                         (cleanup result) (Some value))
          | [] => otherwise
          end
        else otherwise
  end.

(** [parseArgs()], on [process.argv.slice(2)]. *)
Definition parseArgs (argv : list string) : Parsed :=
  parseFrom argv (mkCliArgs false false false false None).

(** [main], with the interactive session reduced to its result: the path
    of the created worktree, or nothing when the user cancelled. *)
Definition main (argv : list string) (deps : DepCheckResult) (tui : option string)
  : Action :=
  match parseArgs argv with
  | Exited code message => UsageError code message
  | Args args =>
      if version args then PrintVersion
      else if help args then PrintHelp HELP
      else if config args then RunConfig
      else if cleanup args then
        if JS.truthyOpt (dep_git deps) then RunCleanup
        else MissingDependency 1 "Error: git is not installed."
      else if negb (JS.truthyOpt (dep_git deps)) then
        MissingDependency 1 "Error: git is not installed."
      else if negb (JS.truthyOpt (dep_claude deps)) then
        MissingDependency 1
          ("Error: claude CLI is not installed."
           ++ String JS.LF "Install: https://docs.anthropic.com/en/docs/claude-code")
      else
        match tui with
        | None => Cancelled
        | Some worktreePath =>
            if negb (JS.truthy worktreePath) then Cancelled
            else
              match pathFile args with
              | Some file =>
                  if JS.truthy file then WritePathFile file worktreePath
                  else LaunchAssistant worktreePath
              | None => LaunchAssistant worktreePath
              end
        end
  end.

End Cli.

(** ** config.ts *)

Module Config.

(** A value as the validation sees it through [typeof]: a boolean, a
    string, or anything else. *)
Inductive Value : Type :=
| VBoolean (b : bool)
| VString (s : string)
| VOther.

(** An object read as [Record<string, unknown>]: the value of a key is
    the first binding, [undefined] when there is none. *)
Definition Rec : Type := list (string * Value).

Fixpoint lookup (key : string) (r : Rec) : option Value :=
  match r with
  | [] => None
  | (k, v) :: r' => if String.eqb k key then Some v else lookup key r'
  end.

Inductive FieldDef : Type :=
| BooleanField (default : bool) (label : string)
| SelectField (default : string) (label : string) (options : list (string * string)).

Definition SCHEMA : list (string * FieldDef) :=
  [("activationStyle",
    SelectField "cannon" "Activation style"
      [("cannon", "Cannon fire"); ("typewriter", "Typewriter"); ("off", "Off")])].

Definition KEYS : list string := map fst SCHEMA.

Definition defaultOf (def : FieldDef) : Value :=
  match def with
  | BooleanField d _ => VBoolean d
  | SelectField d _ _ => VString d
  end.

(** [validateField(key, value)], on the schema entry [def = SCHEMA[key]]
    of the key. *)
Definition validateField (def : FieldDef) (value : option Value) : Value :=
  match def, value with
  | BooleanField _ _, Some (VBoolean b) => VBoolean b
  | SelectField _ _ options, Some (VString s) =>
      if existsb (fun o => String.eqb (fst o) s) options then VString s
      else defaultOf def
  | _, _ => defaultOf def
  end.

(** What [require(CONFIG_FILE)] does: it throws (no file, or not JSON),
    or it gives the value of the file. Reading a key of [null] raises a
    TypeError; any other value is read as an object, a value that is not
    one having none of the keys. *)
Inductive Required : Type :=
| Threw
| Null
| Object (raw : Rec).

(** [loadConfig()]; [None] is the TypeError, which nothing catches. *)
Definition loadConfig (required : Required) : option Rec :=
  let validated (raw : Rec) :=
    map (fun entry => (fst entry, validateField (snd entry) (lookup (fst entry) raw)))
        SCHEMA in
  match required with
  | Threw => Some (validated [])
  | Null => match KEYS with
            | [] => Some []
            | _ :: _ => None
            end
  | Object raw => Some (validated raw)
  end.

(** The object [saveConfig] serialises: the schema keys of the
    configuration, a key without value being left out by
    [JSON.stringify]. *)
Definition clean (config : Rec) : Rec :=
  flat_map (fun key => match lookup key config with
                       | Some v => [(key, v)]
                       | None => []
                       end) KEYS.

End Config.

(** ** git.ts, the earlier revision (branches are plain names) *)

Module OldGit.

Record RepoInfo := mkRepoInfo {
  root : string;
  repoName : string;
  parentDir : string;
  remoteUrl : option string;
  defaultBranch : string;
  branches : list string
}.

(** One turn of the loop of [listBranches], on the set [seen] and the
    list [branches]. *)
Definition collect (acc : list string * list string) (line : string)
  : list string * list string :=
  let (seen, branches) := acc in
  let name := JS.trim line in
  if negb (JS.truthy name) then acc
  else
    let short := if JS.startsWith name "origin/"
                 then JS.replace "origin/" EmptyString name else name in
    if String.eqb short "HEAD" then acc
    else if Git.setHas short seen then acc
    else (Git.setAdd short seen, (branches ++ [short])%list).

Section WithHost.
Context {H : Host} {L : Launcher H}.

(** [exec(args, cwd)] of this revision: the error names the git verb. *)
Definition execError (args : list string) (result : SpawnResult) : string :=
  "git " ++ hd "undefined" args ++ " failed: " ++ JS.trim (stderr result).

Definition exec (args : list string) (cwd : option string) : Run.M string :=
  result <- Run.spawn ("git" :: args) cwd ;;
  if negb (exitCode result =? 0)%Z then Run.throw (execError args result)
  else Run.ret (JS.trim (stdout result)).

Definition detectDefaultBranch (root : string) : Run.M string :=
  Run.tryCatch
    (ref <- exec ["symbolic-ref"; "refs/remotes/origin/HEAD"] (Some root) ;;
     Run.ret (JS.replace "refs/remotes/origin/" EmptyString ref))
    (fun _ =>
  Run.tryCatch
    (exec ["rev-parse"; "--verify"; "refs/heads/main"] (Some root) ;;;
     Run.ret "main")
    (fun _ =>
  Run.tryCatch
    (exec ["rev-parse"; "--verify"; "refs/heads/master"] (Some root) ;;;
     Run.ret "master")
    (fun _ =>
  current <- exec ["branch"; "--show-current"] (Some root) ;;
  Run.ret (JS.orElse current "main")))).

(** The comparator of [branches.sort]. *)
Definition nameOrder (defaultBranch a b : string) : Z :=
  if String.eqb a defaultBranch then (-1)%Z
  else if String.eqb b defaultBranch then 1%Z
  else Git.localeCompare a b.

(** [listBranches] on the text that [git branch -a] printed. *)
Definition listBranchesOf (raw defaultBranch : string) : list string :=
  Git.sort (nameOrder defaultBranch) (snd (fold_left collect (JS.lines raw) ([], []))).

Definition listBranches (root defaultBranch : string) : Run.M (list string) :=
  raw <- exec ["branch"; "-a"; "--format=%(refname:short)"] (Some root) ;;
  Run.ret (listBranchesOf raw defaultBranch).

Definition getRepoInfo : Run.M RepoInfo :=
  root <- exec ["rev-parse"; "--show-toplevel"] None ;;
  let repoName := Path.basename root in
  let parentDir := Path.dirname root in
  remoteUrl <- Run.tryCatch (url <- exec ["remote"; "get-url"; "origin"] (Some root) ;;
                             Run.ret (Some url))
                            (fun _ => Run.ret None) ;;
  defaultBranch <- detectDefaultBranch root ;;
  branches <- listBranches root defaultBranch ;;
  Run.ret (mkRepoInfo root repoName parentDir remoteUrl defaultBranch branches).

Definition createWorktree (root worktreePath baseBranch newBranch : string) : Run.M unit :=
  exec (Git.createWorktreeArgs worktreePath baseBranch newBranch) (Some root) ;;;
  Run.ret tt.

End WithHost.

End OldGit.

(** ** cli.ts, the earlier revision *)

Module OldCli.

Record CliArgs := mkCliArgs {
  help : bool;
  pathFile : option string
}.

(** The template literal of [HELP] in this revision. *)
Definition helpLines : list string :=
  [ EmptyString;
    "slopcannon - Create a git worktree. Launch Claude Code. Ship slop.";
    EmptyString;
    "Usage:";
    "  slopcannon                     Interactive TUI";
    "  slopcannon --path-file <path>  Write worktree path to file (for shell function)";
    "  slopcannon --help              Show this help";
    EmptyString;
    "What it does:";
    "  git worktree add -b <branch> ../repo-branch origin/main";
    "  claude --dangerously-skip-permissions";
    EmptyString ].

Definition HELP : string := JS.trim (JS.join (String JS.LF EmptyString) helpLines).

Fixpoint parseFrom (args : list string) (result : CliArgs) : CliArgs :=
  match args with
  | [] => result
  | arg :: rest =>
      if String.eqb arg "--help" || String.eqb arg "-h" then
        parseFrom rest (mkCliArgs true (pathFile result))
      else if String.eqb arg "--path-file" then
        match rest with
        | value :: rest' => parseFrom rest' (mkCliArgs (help result) (Some value))
        | [] => parseFrom rest result
        end
      else parseFrom rest result
  end.

Definition parseArgs (argv : list string) : CliArgs :=
  parseFrom argv (mkCliArgs false None).

(** [main] of this revision, with the interactive session reduced to its
    result. *)
Definition main (argv : list string) (deps : DepCheckResult) (tui : option string)
  : Action :=
  let args := parseArgs argv in
  if help args then PrintHelp HELP
  else if negb (JS.truthyOpt (dep_git deps)) then
    MissingDependency 1 "Error: git is not installed."
  else if negb (JS.truthyOpt (dep_claude deps)) then
    MissingDependency 1
      ("Error: claude CLI is not installed."
       ++ String JS.LF "Install: https://docs.anthropic.com/en/docs/claude-code")
  else
    match tui with
    | None => Cancelled
    | Some worktreePath =>
        if negb (JS.truthy worktreePath) then Cancelled
        else
          match pathFile args with
          | Some file =>
              if JS.truthy file then WritePathFile file worktreePath
              else LaunchAssistant worktreePath
          | None => LaunchAssistant worktreePath
          end
    end.

End OldCli.

(** ** tui.ts *)


Module Tui.
Section WithHost.
Context {H : Host} {L : Launcher H}.



(** The message of the TypeError that the engine raises when a key of
    [null] is read. *)
Variable typeError : string.


End WithHost.
End Tui.

(** * The machine the statements are about *)

(** A machine on which every child can be started. A statement that
    names no launcher is about such a machine; the statements that say
    when the program raises name the launcher they range over. *)
#[global] Instance everyChildStarts (H : Host) : Launcher H | 100 :=
  {| startError := fun _ _ _ => None |}.

(** * Vocabulary of the properties *)

(** ** Traces *)

(** The state a command leaves: the world it produced, and one more line
    in the trace. *)
Definition after {H : Host} (argv : list string) (cwd : option string) (st : Run.St)
  : Run.St :=
  Run.mkSt (snd (spawnSync argv cwd (Run.world st)))
           (Run.calls st
            ++ [mkCall argv cwd (fst (spawnSync argv cwd (Run.world st)))])%list.

(** ** Candidates *)

(** What the merge probe answers in a state: whether [git branch --merged]
    succeeds there and prints the branch on a line of its own. *)
Definition mergedIn {H : Host} (root branch into : string) (st : Run.St) : bool :=
  let result := fst (spawnSync ["git"; "branch"; "--merged"; into] (Some root)
                               (Run.world st)) in
  if (exitCode result =? 0)%Z
  then existsb (fun l => String.eqb (JS.trim l) branch) (JS.lines (JS.trim (stdout result)))
  else false.

(** Whether the remote-tracking reference of a branch resolves in a
    state. *)
Definition remoteLive {H : Host} (root branch : string) (st : Run.St) : bool :=
  (exitCode (fst (spawnSync ["git"; "rev-parse"; "--verify";
                             "refs/remotes/origin/" ++ branch] (Some root)
                            (Run.world st))) =? 0)%Z.

(** An entry is detached when it has no branch at all. *)
Definition isDetached (e : WorktreeEntry) : bool :=
  match branch e with
  | None => true
  | Some _ => false
  end.

(** The verdict as the specification composes it. *)
Definition compositeVerdict (c : WorktreeCandidate) : bool :=
  merged c || (deletedOnRemote c && isDetached (entry c)) || Cleanup.prMerged (pr c).

(** What [classify] guarantees about the candidate it builds. *)
Record Classified (e : WorktreeEntry) (c : WorktreeCandidate) : Prop := {
  cl_entry : entry c = e;
  cl_code : safeToClean c
            = merged c || (deletedOnRemote c && negb (JS.truthyOpt (branch e)))
              || Cleanup.prMerged (pr c);
  cl_no_branch : Cleanup.truthyBranch e = None ->
                 merged c = false /\ deletedOnRemote c = false /\ pr c = None
}.

(** ** Probes for the default branch *)

Module Probe.

Definition remoteHead : list string := ["symbolic-ref"; "refs/remotes/origin/HEAD"].
Definition localMain : list string := ["rev-parse"; "--verify"; "refs/heads/main"].
Definition localMaster : list string := ["rev-parse"; "--verify"; "refs/heads/master"].
Definition currentBranch : list string := ["branch"; "--show-current"].

(** The four commands, in the order of the probes. *)
Definition order : list (list string) :=
  map (cons "git") [remoteHead; localMain; localMaster; currentBranch].

End Probe.

(** The ladder of probes: [Detected st n result st'] says that from [st]
    the first [n] probes were run, ending in [st'] with [result]. A probe
    fails when its command exits with a code other than zero; the
    current-branch probe also counts as failed when it prints nothing. *)
Inductive Detected {H : Host} (root : string) (st : Run.St)
  : nat -> Res string -> Run.St -> Prop :=
| ByRemoteHead (pointer : string) (st1 : Run.St) :
    Git.exec Probe.remoteHead (Some root) st = (Ok pointer, st1) ->
    Detected root st 1 (Ok (JS.replace "refs/remotes/origin/" EmptyString pointer)) st1
| ByLocalMain (m1 out : string) (st1 st2 : Run.St) :
    Git.exec Probe.remoteHead (Some root) st = (Throw m1, st1) ->
    Git.exec Probe.localMain (Some root) st1 = (Ok out, st2) ->
    Detected root st 2 (Ok "main") st2
| ByLocalMaster (m1 m2 out : string) (st1 st2 st3 : Run.St) :
    Git.exec Probe.remoteHead (Some root) st = (Throw m1, st1) ->
    Git.exec Probe.localMain (Some root) st1 = (Throw m2, st2) ->
    Git.exec Probe.localMaster (Some root) st2 = (Ok out, st3) ->
    Detected root st 3 (Ok "master") st3
| ByCurrentBranch (m1 m2 m3 current : string) (st1 st2 st3 st4 : Run.St) :
    Git.exec Probe.remoteHead (Some root) st = (Throw m1, st1) ->
    Git.exec Probe.localMain (Some root) st1 = (Throw m2, st2) ->
    Git.exec Probe.localMaster (Some root) st2 = (Throw m3, st3) ->
    Git.exec Probe.currentBranch (Some root) st3 = (Ok current, st4) ->
    current <> EmptyString ->
    Detected root st 4 (Ok current) st4
| ByLiteral (m1 m2 m3 : string) (st1 st2 st3 st4 : Run.St) :
    Git.exec Probe.remoteHead (Some root) st = (Throw m1, st1) ->
    Git.exec Probe.localMain (Some root) st1 = (Throw m2, st2) ->
    Git.exec Probe.localMaster (Some root) st2 = (Throw m3, st3) ->
    Git.exec Probe.currentBranch (Some root) st3 = (Ok EmptyString, st4) ->
    Detected root st 4 (Ok "main") st4
| CurrentBranchError (m1 m2 m3 m4 : string) (st1 st2 st3 st4 : Run.St) :
    Git.exec Probe.remoteHead (Some root) st = (Throw m1, st1) ->
    Git.exec Probe.localMain (Some root) st1 = (Throw m2, st2) ->
    Git.exec Probe.localMaster (Some root) st2 = (Throw m3, st3) ->
    Git.exec Probe.currentBranch (Some root) st3 = (Throw m4, st4) ->
    Detected root st 4 (Throw m4) st4.

(** ** Command-line flags *)

Module Flag.

(** The arguments [parseArgs] recognises by name. *)
Definition known : list string :=
  ["--help"; "-h"; "--version"; "-v"; "-V"; "--path-file"; "config"; "cleanup"; "clean"].

Definition isKnown (arg : string) : bool := existsb (String.eqb arg) known.

Definition usage (arg : string) : string :=
  "Unknown command: " ++ arg ++ String JS.LF "Run 'slopcannon --help' for usage.".

End Flag.

(** ** Strings and paths *)

(** The character [c] does not occur in a string. *)
Fixpoint lacks (c : ascii) (s : string) : bool :=
  match s with
  | EmptyString => true
  | String x s' => negb (Ascii.eqb x c) && lacks c s'
  end.

(** No path separator occurs in a string. *)
Definition noSep (s : string) : bool := lacks Path.SEP s.

(** A path segment that normalisation keeps as it is. *)
Definition plain (seg : string) : bool :=
  noSep seg && negb (String.eqb seg EmptyString) && negb (String.eqb seg ".")
  && negb (String.eqb seg "..").

(** The absolute path with the given segments. *)
Definition absolute (segs : list string) : string := "/" ++ JS.join "/" segs.

(** ** Worktree listings *)

(** The shape every list of parsed records has: nothing yet, or a main
    worktree followed by linked ones only. *)
Definition MainFirst (entries : list WorktreeEntry) : Prop :=
  match entries with
  | [] => True
  | first :: others => isMain first = true /\ Forall (fun e => isMain e = false) others
  end.

(** One record of a porcelain listing: the path of the worktree, the
    commit it is at, and its branch if it is on one. *)
Record Listed := mkListed {
  listed_path : string;
  listed_head : string;
  listed_branch : option string
}.

(** The lines git prints for a record, and the blank line that closes
    it. *)
Definition recordBody (r : Listed) : list string :=
  [ "worktree " ++ listed_path r;
    "HEAD " ++ listed_head r;
    match listed_branch r with
    | Some b => "branch refs/heads/" ++ b
    | None => "detached"
    end ].

Definition recordLines (r : Listed) : list string :=
  (recordBody r ++ [EmptyString])%list.

(** The lines of a whole listing once [exec] has trimmed it: the blank
    line after the last record is gone. *)
Fixpoint listingLines (rs : list Listed) : list string :=
  match rs with
  | [] => [EmptyString]
  | [r] => recordBody r
  | r :: rs' => (recordLines r ++ listingLines rs')%list
  end.

(** A record git can print on lines of its own. *)
Definition wellFormed (r : Listed) : Prop :=
  JS.truthy (listed_path r) = true
  /\ lacks JS.LF (listed_path r) = true
  /\ lacks JS.LF (listed_head r) = true
  /\ match listed_branch r with
     | Some b => lacks JS.LF b = true
     | None => True
     end.

(** The entry a record is parsed to, as the first record or a later one. *)
Definition entryOf (first : bool) (r : Listed) : WorktreeEntry :=
  mkWorktreeEntry (listed_path r) (listed_branch r) first.

Definition entriesOf (rs : list Listed) : list WorktreeEntry :=
  match rs with
  | [] => []
  | r :: rs' => entryOf true r :: map (entryOf false) rs'
  end.

(** What the parser does once the input is read. *)
Definition finish (acc : list WorktreeEntry * PartialEntry) : list WorktreeEntry :=
  Git.pushCurrent (fst acc) (snd acc).

(** ** Removal batches *)






(** ** Branch listings *)

(** The text [listBranches] reads in a state: what [git branch -a]
    prints there, trimmed. *)
Definition branchListing {H : Host} (root : string) (st : Run.St) : string :=
  JS.trim (stdout (fst (spawnSync ["git"; "branch"; "-a"; "--format=%(refname:short)"]
                                  (Some root) (Run.world st)))).

(** [x] may stand in front of [y] under the comparator [cmp]. *)
Definition before {A : Type} (cmp : A -> A -> Z) (x y : A) : Prop := (cmp x y <= 0)%Z.

(** A line of the listing that names a local branch. *)
Definition isLocalLine (line : string) : bool :=
  JS.truthy (JS.trim line) && negb (JS.startsWith (JS.trim line) "origin/").

(** The short name a line stands for. *)
Definition shortOf (line : string) : string :=
  let name := JS.trim line in
  if JS.startsWith name "origin/" then JS.replace "origin/" EmptyString name else name.

(** A line that makes it into the map when its short name is new. *)
Definition isBranchLine (line : string) : bool :=
  JS.truthy (JS.trim line) && negb (String.eqb (shortOf line) "HEAD").

(** What the second pass keeps true of the map: keys are unique, every
    entry is filed under its own name, and an entry whose name is a local
    branch refers to that branch. *)
Record WellKeyed (locals : list string) (entries : list (string * BranchEntry)) : Prop := {
  wk_nodup : NoDup (map fst entries);
  wk_entries : Forall (fun kv => name (snd kv) = fst kv
                                 /\ (In (fst kv) locals -> ref (snd kv) = fst kv))
                      entries
}.

(** [a] collates no later than [b]. *)
Definition collated {H : Host} (a b : BranchEntry) : Prop :=
  (Git.localeCompare (name a) (name b) <= 0)%Z.

(** Code-unit order of the display names. *)
Definition ordinal (a b : BranchEntry) : Prop :=
  String.leb (name a) (name b) = true.

(** ** Commands a computation runs *)

(** Every command [m] runs, from any state, has a command line that
    satisfies [P]; and it runs them on top of the trace it found. *)
Definition Emits {H : Host} {A : Type} (P : list string -> Prop) (m : Run.M A) : Prop :=
  forall st r st',
    m st = (r, st') ->
    exists new, Run.calls st' = (Run.calls st ++ new)%list
                /\ Forall (fun call => P (call_argv call)) new.

(** The command lines of the scan of [runCleanup]. *)
Definition isScanCommand (argv : list string) : Prop :=
  argv = ["git"; "worktree"; "prune"]
  \/ argv = ["git"; "worktree"; "list"; "--porcelain"]
  \/ (exists into, argv = ["git"; "branch"; "--merged"; into])
  \/ (exists r, argv = ["git"; "rev-parse"; "--verify"; r])
  \/ (exists b, argv = ["gh"; "pr"; "list"; "--head"; b; "--state"; "all";
                        "--json"; "number,title,state,url"; "--limit"; "1"]).

(** Commands that change branches or worktrees for good. *)
Definition isDestructive (argv : list string) : bool :=
  sameArgv (firstn 3 argv) ["git"; "worktree"; "remove"]
  || sameArgv (firstn 3 argv) ["git"; "worktree"; "add"]
  || sameArgv (firstn 3 argv) ["git"; "branch"; "-D"]
  || sameArgv (firstn 3 argv) ["git"; "branch"; "-d"].

(** A string that is empty or starts with a character other than white
    space. *)
Definition startsClean (s : string) : Prop :=
  match s with
  | EmptyString => True
  | String c _ => JS.isWhiteSpace c = false
  end.


(** ** The removal loop, turn by turn *)




(** The command lines [getRepoInfo] runs. *)
Definition isInfoCommand (argv : list string) : Prop :=
  argv = ["git"; "rev-parse"; "--show-toplevel"]
  \/ argv = ["git"; "remote"; "get-url"; "origin"]
  \/ In argv Probe.order
  \/ argv = ["git"; "branch"; "-a"; "--format=%(refname:short)"].

(** ** The two revisions of git.ts *)

(** What the earlier revision knows of a repository: the branches by name
    only. *)
Definition namesOnly (info : RepoInfo) : OldGit.RepoInfo :=
  OldGit.mkRepoInfo (root info) (repoName info) (parentDir info) (remoteUrl info)
                    (defaultBranch info) (map name (branches info)).

(** Two runs that end in the same state, and with the same value up to
    [same] when they return; when they raise, the messages may differ. *)
Definition Agree {H : Host} {A B : Type} (same : A -> B -> Prop)
  (later : Res A * Run.St) (earlier : Res B * Run.St) : Prop :=
  snd later = snd earlier
  /\ match fst later, fst earlier with
     | Ok a, Ok b => same a b
     | Throw _, Throw _ => True
     | _, _ => False
     end.

(** ** Children that cannot be started *)

(** The state a command leaves on a machine where it may fail to start:
    nothing has happened when it did not start. *)
Definition attempted {H : Host} {L : Launcher H} (argv : list string)
  (cwd : option string) (st : Run.St) : Run.St :=
  match startError argv cwd (Run.world st) with
  | Some _ => st
  | None => after argv cwd st
  end.

(** [msg] is the error of a child that could not be started in the state
    [st], for a command line in [P]. *)
Definition CouldNotStart {H : Host} {L : Launcher H} (P : list string -> Prop)
  (msg : string) (st : Run.St) : Prop :=
  exists argv cwd, P argv /\ startError argv cwd (Run.world st) = Some msg.

(** [m] raises only when it cannot start a child with a command line in
    [P], with the error of that child and in the state it had reached. *)
Definition RaisesUnstarted {H : Host} {L : Launcher H} {A : Type}
  (P : list string -> Prop) (m : Run.M A) : Prop :=
  forall st msg st', m st = (Throw msg, st') -> CouldNotStart P msg st'.

(** The command lines the scan runs outside any [try]: the probe of the
    remote-tracking reference and the query for review requests. *)
Definition isRemoteQuery (argv : list string) : Prop :=
  (exists b, argv = ["git"; "rev-parse"; "--verify"; "refs/remotes/origin/" ++ b])
  \/ (exists b, argv = ["gh"; "pr"; "list"; "--head"; b; "--state"; "all";
                        "--json"; "number,title,state,url"; "--limit"; "1"]).


(** The command lines of the removal loop for the candidates of
    [toRemove]: the forced removal of the worktree of one of them, or the
    forced deletion of the branch of one of them. *)
Definition reclaims (toRemove : list WorktreeCandidate) (argv : list string) : Prop :=
  exists c, In c toRemove
    /\ (argv = ["git"; "worktree"; "remove"; path (entry c); "--force"]
        \/ exists b, branch (entry c) = Some b /\ argv = ["git"; "branch"; "-D"; b]).

(** * Recorded hosts

    Commands are answered from a table of recorded results, keyed by the
    command line; anything else fails the way git does on an unknown
    reference. The world never changes. *)

Module Fixture.

Record Recorded := mkRecorded {
  script : list (list string * SpawnResult);
  installed : list string
}.

Definition notFound : SpawnResult :=
  mkSpawnResult 128 EmptyString "fatal: Needed a single revision".

Definition replay (argv : list string) (cwd : option string) (w : Recorded)
  : SpawnResult * Recorded :=
  match find (fun r => sameArgv argv (fst r)) (script w) with
  | Some r => (snd r, w)
  | None => (notFound, w)
  end.

Definition lookPath (tool : string) (w : Recorded) : option string :=
  if existsb (String.eqb tool) (installed w) then Some ("/usr/bin/" ++ tool) else None.

Definition isUpper (c : ascii) : bool :=
  let n := nat_of_ascii c in (65 <=? n)%nat && (n <=? 90)%nat.

Definition isLower (c : ascii) : bool :=
  let n := nat_of_ascii c in (97 <=? n)%nat && (n <=? 122)%nat.

Definition isDigit (c : ascii) : bool :=
  let n := nat_of_ascii c in (48 <=? n)%nat && (n <=? 57)%nat.

(** Primary weight: letters by their place in the alphabet whatever
    their case, after the digits, after everything else. *)
Definition primaryWeight (c : ascii) : N :=
  let n := N_of_ascii c in
  if isUpper c then (600 + n + 32)%N
  else if isLower c then (600 + n)%N
  else if isDigit c then (300 + n)%N
  else (1 + n)%N.

(** Tertiary weight: a lower-case letter before its upper-case form. *)
Definition tertiaryWeight (c : ascii) : N :=
  if isUpper c then 2%N else 1%N.

(** Sort key of the root collation order, for strings of ASCII letters
    and digits: the primary weights, a separator, the tertiary weights.
    Other characters are placed in front of the digits in code order,
    which the real collator refines. *)
Definition rootCollationKey (s : string) : list N :=
  let cs := list_ascii_of_string s in
  (map primaryWeight cs ++ [0%N] ++ map tertiaryWeight cs)%list.

(** Recorded answers of [gh pr list]. *)
Definition quoted (s : string) : string :=
  String (ascii_of_nat 34) (s ++ String (ascii_of_nat 34) EmptyString).

Definition mergedPrText : string :=
  "[{" ++ quoted "number" ++ ":7," ++ quoted "state" ++ ":" ++ quoted "MERGED" ++ ","
  ++ quoted "title" ++ ":" ++ quoted "Login" ++ ","
  ++ quoted "url" ++ ":" ++ quoted "https://example.test/pull/7" ++ "}]".

Definition mergedPr : PrInfo :=
  mkPrInfo 7 "Login" "MERGED" "https://example.test/pull/7".

Definition parseRecorded (text : string) : option (list PrInfo) :=
  if String.eqb text "[]" then Some []
  else if String.eqb text mergedPrText then Some [mergedPr]
  else None.

#[local] Instance host : Host := {|
  World := Recorded;
  spawnSync := replay;
  which := lookPath;
  collationKey := rootCollationKey;
  parsePrList := parseRecorded
|}.

(** A text of several lines. *)
Definition text (ls : list string) : string :=
  JS.join (String JS.LF EmptyString) ls.

Definition start (w : Recorded) : Run.St := Run.mkSt w [].

Definition ok (out : string) : SpawnResult := mkSpawnResult 0 out EmptyString.

Definition failed (code : Z) (err : string) : SpawnResult := mkSpawnResult code EmptyString err.

(** A machine on which the directory [missing] does not exist: no child
    can be started in it. *)
Definition enoent : string := "ENOENT: no such file or directory".

Definition noSuchDirectory (missing : string) : Launcher host :=
  {| startError := fun _ cwd _ =>
       match cwd with
       | Some dir => if String.eqb dir missing then Some enoent else None
       | None => None
       end |}.

(** A machine on which [tool] is found but cannot be executed. *)
Definition eacces : string := "EACCES: permission denied".

Definition cannotRun (tool : string) : Launcher host :=
  {| startError := fun argv _ _ =>
       if String.eqb (hd EmptyString argv) tool then Some eacces else None |}.

End Fixture.

(** A repository with the main worktree, a linked worktree on
    [feat/login] (not merged, still on the remote, review request
    merged) and a detached linked worktree. *)
Module Sample.

Definition info : RepoInfo :=
  mkRepoInfo "/work/app" "app" "/work" None "main" [mkBranchEntry "main" "main"].

Definition worktreeListing : string :=
  Fixture.text
    ["worktree /work/app"; "HEAD 1111"; "branch refs/heads/main"; EmptyString;
     "worktree /work/app-feat-login"; "HEAD 2222"; "branch refs/heads/feat/login";
     EmptyString;
     "worktree /work/app-scratch"; "HEAD 3333"; "detached"; EmptyString].

Definition commands (prText : string) : list (list string * SpawnResult) :=
  [ (["git"; "worktree"; "prune"], Fixture.ok EmptyString);
    (["git"; "worktree"; "list"; "--porcelain"], Fixture.ok worktreeListing);
    (["git"; "branch"; "--merged"; "main"], Fixture.ok "* main");
    (["git"; "rev-parse"; "--verify"; "refs/remotes/origin/feat/login"],
     Fixture.ok "2222");
    (["gh"; "pr"; "list"; "--head"; "feat/login"; "--state"; "all";
      "--json"; "number,title,state,url"; "--limit"; "1"], Fixture.ok prText) ].

(** With the review tool installed and the request merged. *)
Definition reviewed : Run.St :=
  Fixture.start (Fixture.mkRecorded (commands Fixture.mergedPrText) ["git"; "gh"]).

(** Without the review tool. *)
Definition unreviewed : Run.St :=
  Fixture.start (Fixture.mkRecorded (commands "[]") ["git"]).

Definition login : WorktreeEntry :=
  mkWorktreeEntry "/work/app-feat-login" (Some "feat/login") false.

Definition scratch : WorktreeEntry :=
  mkWorktreeEntry "/work/app-scratch" None false.

End Sample.

(** A repository on a detached HEAD, without remote and without [main]
    or [master], seen through a git that does not know
    [branch --show-current]. *)
Module Legacy.

Definition st : Run.St :=
  Fixture.start (Fixture.mkRecorded
    [(["git"; "symbolic-ref"; "refs/remotes/origin/HEAD"],
      Fixture.failed 128 "fatal: ref refs/remotes/origin/HEAD is not a symbolic ref");
     (["git"; "rev-parse"; "--verify"; "refs/heads/main"],
      Fixture.failed 128 "fatal: Needed a single revision");
     (["git"; "rev-parse"; "--verify"; "refs/heads/master"],
      Fixture.failed 128 "fatal: Needed a single revision");
     (["git"; "branch"; "--show-current"],
      Fixture.failed 129 "error: unknown option `show-current'")]
    ["git"]).

End Legacy.

(** Three confirmed candidates: the removal of the second fails, and the
    branch of the first cannot be deleted. *)
Module Batch.

Definition candidate (p : string) (b : option string) : WorktreeCandidate :=
  mkWorktreeCandidate (mkWorktreeEntry p b false) true false None true.

Definition toRemove : list WorktreeCandidate :=
  [candidate "/work/app-one" (Some "one");
   candidate "/work/app-two" (Some "two");
   candidate "/work/app-three" None].

Definition st : Run.St :=
  Fixture.start (Fixture.mkRecorded
    [(["git"; "worktree"; "remove"; "/work/app-one"; "--force"], Fixture.ok EmptyString);
     (["git"; "branch"; "-D"; "one"], Fixture.failed 1 "error: branch 'one' not found.");
     (["git"; "worktree"; "remove"; "/work/app-two"; "--force"],
      Fixture.failed 128 "fatal: '/work/app-two' is locked");
     (["git"; "worktree"; "remove"; "/work/app-three"; "--force"], Fixture.ok EmptyString)]
    ["git"]).

End Batch.

(** A repository with a remote, seen from its root. *)
Module Repo.

Definition commands : list (list string * SpawnResult) :=
  [ (["git"; "rev-parse"; "--show-toplevel"], Fixture.ok "/work/app");
    (["git"; "symbolic-ref"; "refs/remotes/origin/HEAD"],
     Fixture.ok "refs/remotes/origin/main");
    (["git"; "branch"; "-a"; "--format=%(refname:short)"],
     Fixture.ok (Fixture.text ["feat/login"; "main"; "origin/HEAD"; "origin/main"])) ].

Definition st : Run.St := Fixture.start (Fixture.mkRecorded commands ["git"]).

Definition info : RepoInfo :=
  mkRepoInfo "/work/app" "app" "/work" None "main"
    [mkBranchEntry "main" "main"; mkBranchEntry "feat/login" "feat/login"].

End Repo.

(** A session of [runTui] in that repository: the base branch chosen, a
    name that is taken and then a free one submitted, and the creation
    confirmed. *)
Module Session.

Definition commands : list (list string * SpawnResult) :=
  (Repo.commands
   ++ [ (["git"; "check-ref-format"; "--branch"; "main"], Fixture.ok "main");
        (["git"; "rev-parse"; "--verify"; "refs/heads/main"], Fixture.ok "4f2a91c");
        (["git"; "check-ref-format"; "--branch"; "feat-x"], Fixture.ok "feat-x");
        (["git"; "worktree"; "add"; "-b"; "feat-x"; "/work/app-feat-x"; "main"],
         Fixture.ok EmptyString) ])%list.

Definition st : Run.St := Fixture.start (Fixture.mkRecorded commands ["git"; "claude"]).


End Session.

(** A cleanup in that repository, with the worktrees of the sample
    listing: the selection is left as it is shown and confirmed. *)
Module Sweep.

Definition commands : list (list string * SpawnResult) :=
  (Repo.commands
   ++ Sample.commands Fixture.mergedPrText
   ++ [ (["git"; "worktree"; "remove"; "/work/app-feat-login"; "--force"],
         Fixture.ok EmptyString);
        (["git"; "branch"; "-D"; "feat/login"], Fixture.ok "Deleted branch feat/login") ])%list.

Definition st : Run.St := Fixture.start (Fixture.mkRecorded commands ["git"; "gh"]).

Definition accept : CleanupPrompts :=
  mkCleanupPrompts (fun candidates => Some (Cleanup.initialValues candidates))
                   (fun _ => Some true).

Definition decline : CleanupPrompts :=
  mkCleanupPrompts (fun candidates => Some (Cleanup.initialValues candidates))
                   (fun _ => Some false).

End Sweep.

(** * Properties *)

(** A statement that names no launcher is about a machine on which every
    child can be started ([everyChildStarts]); the statements about what
    makes the program raise range over every launcher. *)

(** ** The primitives on examples *)

Example split_demo :
  JS.lines (String "a" (String JS.LF (String JS.LF "b"))) = ["a"; EmptyString; "b"].
Proof. reflexivity. Qed.

Example trim_demo : JS.trim "  x y  " = "x y".
Proof. reflexivity. Qed.

Example replace_demo : JS.replace "origin/" EmptyString "origin/a/origin/b" = "a/origin/b".
Proof. reflexivity. Qed.

Example path_join_demo1 : Path.join ["/a/b/"; "../c"; "./d"] = "/a/c/d".
Proof. reflexivity. Qed.

Example path_join_demo2 : Path.join [EmptyString; "x-y"] = "x-y".
Proof. reflexivity. Qed.

Example path_join_demo3 : Path.join ["../.."; "x"] = "../../x".
Proof. reflexivity. Qed.

Example parse_demo :
  Cli.parseArgs ["--path-file"; "/tmp/f"; "clean"; "--bogus"]
  = Args (mkCliArgs false false false true (Some "/tmp/f")).
Proof. reflexivity. Qed.

(** ** Strings *)

Lemma append_assoc (a b c : string) : (a ++ b) ++ c = a ++ (b ++ c).
Proof. induction a as [| x a IH]; cbn; [reflexivity | now rewrite IH]. Qed.

Lemma lacks_app (c : ascii) (s t : string) :
  lacks c (s ++ t) = lacks c s && lacks c t.
Proof.
  induction s as [| x s IH]; cbn; [reflexivity |].
  now rewrite IH, andb_assoc.
Qed.

(** A string without the separator is one piece. *)
Lemma split_lacks (c : ascii) (s : string) : lacks c s = true -> JS.split c s = [s].
Proof.
  induction s as [| x s IH]; cbn; [reflexivity |].
  intros Hs. apply andb_prop in Hs. destruct Hs as [Hx Hs].
  apply negb_true_iff in Hx. now rewrite Hx, (IH Hs).
Qed.

Lemma split_piece (c : ascii) (s rest : string) :
  lacks c s = true -> JS.split c (s ++ String c rest) = s :: JS.split c rest.
Proof.
  induction s as [| x s IH]; cbn.
  - now rewrite Ascii.eqb_refl.
  - intros Hs. apply andb_prop in Hs. destruct Hs as [Hx Hs].
    apply negb_true_iff in Hx. now rewrite Hx, (IH Hs).
Qed.

(** Splitting undoes joining, for pieces without the separator. *)
Lemma split_join (c : ascii) (pieces : list string) :
  pieces <> [] -> forallb (lacks c) pieces = true ->
  JS.split c (JS.join (String c EmptyString) pieces) = pieces.
Proof.
  induction pieces as [| s pieces IH]; [congruence |].
  intros _ Hall. cbn [forallb] in Hall. apply andb_prop in Hall.
  destruct Hall as [Hs Hall].
  destruct pieces as [| s' pieces].
  - cbn. now apply split_lacks.
  - change (JS.join (String c EmptyString) (s :: s' :: pieces))
      with (s ++ String c (JS.join (String c EmptyString) (s' :: pieces))).
    rewrite (split_piece _ _ _ Hs), IH; [reflexivity | discriminate | exact Hall].
Qed.

Lemma startsWith_app (p s : string) : JS.startsWith (p ++ s) p = true.
Proof.
  unfold JS.startsWith. induction p as [| c p IH]; cbn.
  - now destruct s.
  - destruct (ascii_dec c c) as [_ | Hne]; [exact IH | contradiction].
Qed.

Lemma slice_app (p s : string) : JS.slice (String.length p) (p ++ s) = s.
Proof. induction p as [| c p IH]; cbn; [reflexivity | exact IH]. Qed.

(** ** Running computations *)

Section RunFacts.
Context {H : Host}.

Lemma bind_ok {A B} (m : Run.M A) (k : A -> Run.M B) (st st' : Run.St) (a : A) :
  m st = (Ok a, st') -> Run.bind m k st = k a st'.
Proof. unfold Run.bind. now intros ->. Qed.

Lemma bind_throw {A B} (m : Run.M A) (k : A -> Run.M B) (st st' : Run.St) (msg : string) :
  m st = (Throw msg, st') -> Run.bind m k st = (Throw msg, st').
Proof. unfold Run.bind. now intros ->. Qed.

Lemma tryCatch_ok {A} (m : Run.M A) (h : string -> Run.M A) (st st' : Run.St) (a : A) :
  m st = (Ok a, st') -> Run.tryCatch m h st = (Ok a, st').
Proof. unfold Run.tryCatch. now intros ->. Qed.

Lemma tryCatch_throw {A} (m : Run.M A) (h : string -> Run.M A) (st st' : Run.St)
  (msg : string) :
  m st = (Throw msg, st') -> Run.tryCatch m h st = h msg st'.
Proof. unfold Run.tryCatch. now intros ->. Qed.

Lemma spawn_run (argv : list string) (cwd : option string) (st : Run.St) :
  Run.spawn argv cwd st = (Ok (fst (spawnSync argv cwd (Run.world st))), after argv cwd st).
Proof.
  unfold Run.spawn, after. now destruct (spawnSync argv cwd (Run.world st)).
Qed.

(** [exec] runs exactly one command; it throws exactly when the exit code
    is not zero. *)
Lemma exec_run (args : list string) (cwd : option string) (st : Run.St) :
  Git.exec args cwd st
  = (let result := fst (spawnSync ("git" :: args) cwd (Run.world st)) in
     if (exitCode result =? 0)%Z then Ok (JS.trim (stdout result))
     else Throw (Git.execError args result),
     after ("git" :: args) cwd st).
Proof.
  unfold Git.exec. rewrite (bind_ok _ _ _ _ _ (spawn_run _ _ _)). cbv zeta.
  destruct (exitCode (fst (spawnSync ("git" :: args) cwd (Run.world st))) =? 0)%Z;
    reflexivity.
Qed.

(** The enumerations are the parsers applied to what git printed. *)
Lemma listBranches_run (root defaultBranch : string) (st st' : Run.St)
  (bs : list BranchEntry) :
  Git.listBranches root defaultBranch st = (Ok bs, st') ->
  bs = Git.listBranchesOf (branchListing root st) defaultBranch.
Proof.
  unfold Git.listBranches, Run.bind. rewrite exec_run. cbv zeta.
  destruct (exitCode _ =? 0)%Z; [| discriminate].
  unfold Run.ret. now intros [= <- _].
Qed.

Lemma listWorktrees_run (root : string) (st st' : Run.St) (es : list WorktreeEntry) :
  Git.listWorktrees root st = (Ok es, st') ->
  exists raw, es = Git.parseWorktrees raw.
Proof.
  unfold Git.listWorktrees, Run.bind. rewrite exec_run. cbv zeta.
  destruct (exitCode _ =? 0)%Z; [| discriminate].
  unfold Run.ret. intros [= <- _]. eauto.
Qed.

End RunFacts.

(** ** The cleanup safety classifier *)

Section ClassifierFacts.
Context {H : Host}.

(** The three probes answer in every world: their failures are turned
    into values. *)
Lemma isBranchMerged_total (r b into : string) (st : Run.St) :
  exists v st', Git.isBranchMerged r b into st = (Ok v, st').
Proof.
  unfold Git.isBranchMerged, Run.tryCatch, Run.bind, Run.ret.
  destruct (Git.exec _ _ st) as [[out | msg] st1]; eauto.
Qed.

Lemma isBranchDeletedOnRemote_total (r b : string) (st : Run.St) :
  exists v st', Git.isBranchDeletedOnRemote r b st = (Ok v, st').
Proof.
  unfold Git.isBranchDeletedOnRemote, Run.bind, Run.spawn, Run.ret.
  cbn [startError everyChildStarts].
  destruct (spawnSync _ _ _) as [res w]; eauto.
Qed.

Lemma lookupPr_total (b : string) (st : Run.St) :
  exists v st', Cleanup.lookupPr b st = (Ok v, st').
Proof.
  unfold Cleanup.lookupPr, Run.bind, Run.spawn, Run.ret.
  cbn [startError everyChildStarts].
  destruct (spawnSync _ _ _) as [res w].
  destruct (negb _); eauto.
  destruct (parsePrList _) as [[| p ps] |]; eauto.
Qed.

Lemma isBranchMerged_run (r b into : string) (st : Run.St) :
  Git.isBranchMerged r b into st
  = (Ok (mergedIn r b into st), after ["git"; "branch"; "--merged"; into] (Some r) st).
Proof.
  unfold Git.isBranchMerged, mergedIn, Run.tryCatch, Run.bind.
  rewrite exec_run. cbv zeta.
  destruct (exitCode _ =? 0)%Z; reflexivity.
Qed.

Lemma isBranchDeletedOnRemote_run (r b : string) (st : Run.St) :
  Git.isBranchDeletedOnRemote r b st
  = (Ok (negb (remoteLive r b st)),
     after ["git"; "rev-parse"; "--verify"; "refs/remotes/origin/" ++ b] (Some r) st).
Proof.
  unfold Git.isBranchDeletedOnRemote, remoteLive.
  now rewrite (bind_ok _ _ _ _ _ (spawn_run _ _ _)).
Qed.

(** The candidate of an entry with a branch: its first two fields are
    what the two git probes say, one after the other. *)
Lemma classify_probes (info : RepoInfo) (hasGh : bool) (e : WorktreeEntry) (b : string)
  (st : Run.St) :
  Cleanup.truthyBranch e = Some b ->
  let st1 := after ["git"; "branch"; "--merged"; defaultBranch info] (Some (root info)) st in
  exists p st',
    Cleanup.classify info hasGh e st
    = (Ok (mkWorktreeCandidate e
             (mergedIn (root info) b (defaultBranch info) st)
             (negb (remoteLive (root info) b st1))
             p
             (mergedIn (root info) b (defaultBranch info) st
              || (negb (remoteLive (root info) b st1) && negb (JS.truthyOpt (branch e)))
              || Cleanup.prMerged p)), st')
    /\ (hasGh = false -> p = None).
Proof.
  intros Hb. cbv zeta. unfold Cleanup.classify. rewrite Hb.
  rewrite (bind_ok _ _ _ _ _ (isBranchMerged_run _ _ _ _)).
  rewrite (bind_ok _ _ _ _ _ (isBranchDeletedOnRemote_run _ _ _)).
  destruct hasGh.
  - match goal with
    | |- context [Run.bind (Cleanup.lookupPr b) _ ?s] =>
        destruct (lookupPr_total b s) as (p & st' & Hp)
    end.
    rewrite (bind_ok _ _ _ _ _ Hp).
    exists p, st'. split; [reflexivity | discriminate].
  - eexists None, _. split; reflexivity.
Qed.

Lemma classify_spec (info : RepoInfo) (hasGh : bool) (e : WorktreeEntry) (st : Run.St) :
  exists c st', Cleanup.classify info hasGh e st = (Ok c, st') /\ Classified e c.
Proof.
  unfold Cleanup.classify.
  destruct (Cleanup.truthyBranch e) as [b |] eqn:Hb.
  - unfold Run.bind at 1.
    destruct (isBranchMerged_total (root info) b (defaultBranch info) st)
      as (m & st1 & ->).
    unfold Run.bind at 1.
    destruct (isBranchDeletedOnRemote_total (root info) b st1) as (d & st2 & ->).
    unfold Run.bind at 1.
    assert (Hpr : exists v st3,
               (if hasGh then Cleanup.lookupPr b else Run.ret None) st2 = (Ok v, st3)).
    { destruct hasGh; [apply lookupPr_total | unfold Run.ret; eauto]. }
    destruct Hpr as (p & st3 & ->).
    eexists _, _. split; [reflexivity |].
    constructor; cbn; [reflexivity .. | congruence].
  - eexists _, _. split; [reflexivity |].
    constructor; cbn; auto.
Qed.

Lemma mapM_classify (info : RepoInfo) (hasGh : bool) (l : list WorktreeEntry) :
  forall st, exists cs st',
    Cleanup.mapM (Cleanup.classify info hasGh) l st = (Ok cs, st')
    /\ Forall2 Classified l cs.
Proof.
  induction l as [| e l IH]; intros st; cbn.
  - eexists _, _. split; [reflexivity | constructor].
  - unfold Run.bind at 1.
    destruct (classify_spec info hasGh e st) as (c & st1 & -> & Hc).
    unfold Run.bind at 1.
    destruct (IH st1) as (cs & st2 & -> & Hcs).
    eexists _, _. split; [reflexivity | constructor; assumption].
Qed.

(** The candidates of a scan are the classified secondary worktrees. *)
Lemma scan_candidates (info : RepoInfo) (st st' : Run.St) (cs : list WorktreeCandidate) :
  Cleanup.scan info st = (Ok (Candidates cs), st') ->
  exists linked, Forall (fun e => isMain e = false) linked /\ Forall2 Classified linked cs.
Proof.
  unfold Cleanup.scan.
  erewrite bind_ok.
  2: { unfold Run.tryCatch. rewrite (bind_ok _ _ _ _ _ (spawn_run _ _ _)). reflexivity. }
  set (st0 := after ["git"; "worktree"; "prune"] (Some (root info)) st).
  unfold Run.bind at 1, Run.tryCatch at 1, Run.bind at 1.
  destruct (Git.listWorktrees (root info) st0) as [[ws | msg] st1]; [| discriminate].
  unfold Run.ret at 1.
  set (linked := filter (fun w => negb (isMain w)) ws).
  destruct (Nat.eqb (List.length linked) 0); [discriminate |].
  unfold Run.bind at 1, Run.whichM at 1.
  unfold Run.bind at 1.
  destruct (mapM_classify info (JS.truthyOpt (which "gh" (Run.world st1))) linked st1)
    as (cs' & st2 & -> & Hcs).
  unfold Run.ret. intros [= <- <-].
  exists linked. split; [| assumption].
  apply Forall_forall. intros e He. apply filter_In in He.
  destruct He as [_ He]. now destruct (isMain e).
Qed.

Lemma classified_composite (e : WorktreeEntry) (c : WorktreeCandidate) :
  Classified e c -> safeToClean c = compositeVerdict c.
Proof.
  intros [He Hcode Hnb]. unfold compositeVerdict. rewrite Hcode, He.
  unfold isDetached. destruct (branch e) as [b |] eqn:Hb; cbn; [| reflexivity].
  destruct (JS.truthy b) eqn:Ht; cbn.
  - now rewrite andb_false_r.
  - unfold Cleanup.truthyBranch in Hnb. rewrite Hb, Ht in Hnb.
    destruct (Hnb eq_refl) as (_ & -> & _). reflexivity.
Qed.

Lemma classified_without_remote (e : WorktreeEntry) (c : WorktreeCandidate) :
  Classified e c ->
  deletedOnRemote c && negb (JS.truthyOpt (branch e)) = false.
Proof.
  intros [He Hcode Hnb]. unfold Cleanup.truthyBranch in Hnb.
  destruct (branch e) as [b |]; cbn.
  - destruct (JS.truthy b); cbn.
    + apply andb_false_r.
    + destruct (Hnb eq_refl) as (_ & -> & _). reflexivity.
  - destruct (Hnb eq_refl) as (_ & -> & _). reflexivity.
Qed.

End ClassifierFacts.

Example scan_reviewed :
  fst (Cleanup.scan (H := Fixture.host) Sample.info Sample.reviewed)
  = Ok (Candidates
          [mkWorktreeCandidate Sample.login false false (Some Fixture.mergedPr) true;
           mkWorktreeCandidate Sample.scratch false false None false]).
Proof. vm_compute. reflexivity. Qed.

Example scan_unreviewed :
  fst (Cleanup.scan (H := Fixture.host) Sample.info Sample.unreviewed)
  = Ok (Candidates
          [mkWorktreeCandidate Sample.login false false None false;
           mkWorktreeCandidate Sample.scratch false false None false]).
Proof. vm_compute. reflexivity. Qed.

(** C1. For every secondary worktree, the classifier returns a candidate
    whose safe-to-reclaim verdict is
    [merged] or ([deletedOnRemote] and the entry is detached) or (a review
    request exists and its state is MERGED). In particular a candidate that
    is not merged, whose remote branch is live and that has no review
    request is not safe, and one with a review request in the merged state
    is safe: when the merge probe does not list the branch and the remote
    reference resolves, the candidate is not safe without the review tool,
    and with it exactly when the request found is merged. The candidates
    of a scan are secondary worktrees classified this way. *)
Theorem C1_safe_to_reclaim_composite :
  forall (H : Host) (info : RepoInfo),
  (forall (hasGh : bool) (e : WorktreeEntry) (st : Run.St),
   exists c st',
     Cleanup.classify info hasGh e st = (Ok c, st')
     /\ entry c = e
     /\ safeToClean c
        = merged c || (deletedOnRemote c && isDetached e)
          || match pr c with
             | Some request => String.eqb (pr_state request) "MERGED"
             | None => false
             end
     /\ (merged c = false -> deletedOnRemote c = false -> pr c = None ->
         safeToClean c = false)
     /\ (forall request, pr c = Some request -> pr_state request = "MERGED" ->
         safeToClean c = true))
  /\ (forall (e : WorktreeEntry) (b : string) (st : Run.St),
        Cleanup.truthyBranch e = Some b ->
        mergedIn (root info) b (defaultBranch info) st = false ->
        remoteLive (root info) b
          (after ["git"; "branch"; "--merged"; defaultBranch info] (Some (root info)) st)
        = true ->
        (exists st',
           Cleanup.classify info false e st
           = (Ok (mkWorktreeCandidate e false false None false), st'))
        /\ (forall c st',
              Cleanup.classify info true e st = (Ok c, st') ->
              safeToClean c = Cleanup.prMerged (pr c)))
  /\ (forall (st st' : Run.St) (cs : list WorktreeCandidate),
        Cleanup.scan info st = (Ok (Candidates cs), st') ->
        Forall (fun c => isMain (entry c) = false
                         /\ safeToClean c = compositeVerdict c) cs).
Proof.
  intros H info. split; [| split].
  2: { intros e b st Hb Hmerged Hlive. split.
       - destruct (classify_probes info false e b st Hb) as (p & st' & Hrun & Hp).
         cbv zeta in Hrun. rewrite Hmerged, Hlive, (Hp eq_refl) in Hrun.
         exists st'. exact Hrun.
       - intros c st' Hrun.
         destruct (classify_probes info true e b st Hb) as (p & st1 & Hrun' & _).
         cbv zeta in Hrun'. rewrite Hmerged, Hlive, Hrun in Hrun'.
         injection Hrun' as -> _. reflexivity. }
  - intros hasGh e st.
    destruct (classify_spec info hasGh e st) as (c & st' & Hrun & Hc).
    exists c, st'.
    pose proof (classified_composite e c Hc) as Hv.
    unfold compositeVerdict, Cleanup.prMerged in Hv.
    destruct Hc as [He _ _]. rewrite He in Hv.
    repeat split; try assumption.
    + intros Hm Hd Hp. rewrite Hv, Hm, Hd, Hp. reflexivity.
    + intros request Hp Hs. rewrite Hv, Hp, Hs. cbn.
      now rewrite orb_true_r.
  - intros st st' cs Hscan.
    destruct (scan_candidates info st st' cs Hscan) as (linked & Hlinked & Hcs).
    clear Hscan. induction Hcs as [| e c l cs' Hc _ IH]; constructor.
    + inversion Hlinked as [| ? ? He _]; subst.
      split; [| now apply (classified_composite e)].
      destruct Hc as [Hentry _ _]. now rewrite Hentry.
    + apply IH. now inversion Hlinked.
Qed.

Lemma C1_safe_to_reclaim_composite_witness :
  Forall (fun c => isMain (entry c) = false /\ safeToClean c = compositeVerdict c)
    [mkWorktreeCandidate Sample.login false false (Some Fixture.mergedPr) true;
     mkWorktreeCandidate Sample.scratch false false None false].
Proof.
  apply (proj2 (proj2 (C1_safe_to_reclaim_composite Fixture.host Sample.info))
           Sample.reviewed
           (snd (Cleanup.scan (H := Fixture.host) Sample.info Sample.reviewed))).
  vm_compute. reflexivity.
Defined.

(** C9. For a detached entry no probe is run at all: the state is left as
    it was and every signal is negative. The remote-deletion probe is only
    run for an entry with a (truthy) branch, so in every candidate of a
    scan the middle disjunct is false: the verdict is [merged] or (review
    request in state MERGED), and a detached worktree is neither safe to
    reclaim nor among the candidates ticked in advance. *)
Theorem C9_remote_deletion_disjunct_dead :
  forall (H : Host) (info : RepoInfo),
  (forall (hasGh : bool) (e : WorktreeEntry) (st : Run.St),
     isDetached e = true ->
     Cleanup.classify info hasGh e st
     = (Ok (mkWorktreeCandidate e false false None false), st))
  /\ forall (st st' : Run.St) (cs : list WorktreeCandidate),
     Cleanup.scan info st = (Ok (Candidates cs), st') ->
     Forall (fun c =>
               deletedOnRemote c && negb (JS.truthyOpt (branch (entry c))) = false
               /\ (isDetached (entry c) = true -> deletedOnRemote c = false)
               /\ safeToClean c = merged c || Cleanup.prMerged (pr c)
               /\ (isDetached (entry c) = true -> safeToClean c = false)) cs
     /\ Forall (fun c => isDetached (entry c) = false) (Cleanup.initialValues cs).
Proof.
  intros H info. split.
  { intros hasGh e st Hd. unfold Cleanup.classify, Cleanup.truthyBranch.
    unfold isDetached in Hd. destruct (branch e) eqn:Hb; [discriminate |].
    reflexivity. }
  intros st st' cs Hscan.
  destruct (scan_candidates info st st' cs Hscan) as (linked & _ & Hcs).
  assert (Hall : Forall (fun c =>
            deletedOnRemote c && negb (JS.truthyOpt (branch (entry c))) = false
            /\ (isDetached (entry c) = true -> deletedOnRemote c = false)
            /\ safeToClean c = merged c || Cleanup.prMerged (pr c)
            /\ (isDetached (entry c) = true -> safeToClean c = false)) cs).
  { clear Hscan. induction Hcs as [| e c l cs' Hc _ IH]; constructor; [| exact IH].
    pose proof (classified_without_remote e c Hc) as Hdead.
    destruct Hc as [He Hcode Hnb]. subst e.
    assert (Hdet : isDetached (entry c) = true ->
                   merged c = false /\ deletedOnRemote c = false /\ pr c = None).
    { unfold isDetached. intros Hd. apply Hnb. unfold Cleanup.truthyBranch.
      destruct (branch (entry c)); [discriminate | reflexivity]. }
    repeat split.
    - exact Hdead.
    - intros Hd. apply Hdet in Hd. tauto.
    - rewrite Hcode, Hdead, orb_false_r. reflexivity.
    - intros Hd. destruct (Hdet Hd) as (Hm & Hr & Hp).
      rewrite Hcode, Hm, Hr, Hp. reflexivity. }
  split; [exact Hall |].
  unfold Cleanup.initialValues. apply Forall_forall. intros c Hin.
  apply filter_In in Hin. destruct Hin as [Hin Hsafe].
  rewrite Forall_forall in Hall. destruct (Hall c Hin) as (_ & _ & _ & Hd).
  destruct (isDetached (entry c)); [| reflexivity].
  rewrite (Hd eq_refl) in Hsafe. discriminate.
Qed.

Lemma C9_remote_deletion_disjunct_dead_witness :
  Cleanup.scan (H := Fixture.host) Sample.info Sample.reviewed
  = (Ok (Candidates
           [mkWorktreeCandidate Sample.login false false (Some Fixture.mergedPr) true;
            mkWorktreeCandidate Sample.scratch false false None false]),
     snd (Cleanup.scan (H := Fixture.host) Sample.info Sample.reviewed))
  /\ Forall (fun c => isDetached (entry c) = false)
       (Cleanup.initialValues
          [mkWorktreeCandidate Sample.login false false (Some Fixture.mergedPr) true;
           mkWorktreeCandidate Sample.scratch false false None false]).
Proof.
  split.
  - vm_compute. reflexivity.
  - apply (proj2 (C9_remote_deletion_disjunct_dead Fixture.host Sample.info)
             Sample.reviewed
             (snd (Cleanup.scan (H := Fixture.host) Sample.info Sample.reviewed))).
    vm_compute. reflexivity.
Defined.

(** ** Branch-name validation *)

Example validate_space :
  fst (Git.validateBranchName (H := Fixture.host) "my branch" "/work/app"
         (Fixture.start (Fixture.mkRecorded
            [(["git"; "check-ref-format"; "--branch"; "my branch"],
              Fixture.failed 1 "fatal: 'my branch' is not a valid branch name")]
            ["git"])))
  = Ok (Some "Invalid branch name").
Proof. vm_compute. reflexivity. Qed.

Example validate_existing :
  fst (Git.validateBranchName (H := Fixture.host) "main" "/work/app"
         (Fixture.start (Fixture.mkRecorded
            [(["git"; "check-ref-format"; "--branch"; "main"], Fixture.ok "main");
             (["git"; "rev-parse"; "--verify"; "refs/heads/main"], Fixture.ok "1111")]
            ["git"])))
  = Ok (Some "Branch 'main' already exists").
Proof. vm_compute. reflexivity. Qed.

Example validate_fresh :
  fst (Git.validateBranchName (H := Fixture.host) "feat/login" "/work/app"
         (Fixture.start (Fixture.mkRecorded
            [(["git"; "check-ref-format"; "--branch"; "feat/login"], Fixture.ok "feat/login")]
            ["git"])))
  = Ok None.
Proof. vm_compute. reflexivity. Qed.

Example validate_missing_directory :
  fst (Git.validateBranchName (H := Fixture.host)
         (L := Fixture.noSuchDirectory "/nonexistent/dir") "x" "/nonexistent/dir"
         (Fixture.start (Fixture.mkRecorded [] ["git"])))
  = Throw Fixture.enoent.
Proof. vm_compute. reflexivity. Qed.

(** What [Bun.spawnSync] does with a command, on any machine. *)
Lemma spawn_on {H : Host} {L : Launcher H} (argv : list string) (cwd : option string)
  (st : Run.St) :
  Run.spawn argv cwd st
  = match startError argv cwd (Run.world st) with
    | Some msg => (Throw msg, st)
    | None => (Ok (fst (spawnSync argv cwd (Run.world st))), after argv cwd st)
    end.
Proof.
  unfold Run.spawn, after. destruct (startError argv cwd (Run.world st)); [reflexivity |].
  now destruct (spawnSync argv cwd (Run.world st)).
Qed.

(** C4. [validateBranchName] raises only when git cannot be started for
    one of its two checks, and then with the error of the runtime; the
    checks are started one after the other. Whenever they run, it answers
    with a non-empty reason when git's reference-name check rejects the
    candidate, and when the check passes but a local branch of that name
    exists; it answers with no reason when the check passes and no such
    branch exists. *)
Theorem C4_validateBranchName_answers :
  forall (H : Host) (L : Launcher H) (candidate root : string) (st : Run.St),
  let formatCheck := ["git"; "check-ref-format"; "--branch"; candidate] in
  let existsCheck := ["git"; "rev-parse"; "--verify"; "refs/heads/" ++ candidate] in
  let formatProbe := spawnSync formatCheck (Some root) (Run.world st) in
  let existsProbe := spawnSync existsCheck (Some root) (snd formatProbe) in
  exists result st',
    Git.validateBranchName candidate root st = (result, st')
    /\ (forall msg, startError formatCheck (Some root) (Run.world st) = Some msg ->
        result = Throw msg /\ st' = st)
    /\ (startError formatCheck (Some root) (Run.world st) = None ->
        (exitCode (fst formatProbe) <> 0%Z -> result = Ok (Some "Invalid branch name"))
        /\ (exitCode (fst formatProbe) = 0%Z ->
            (forall msg, startError existsCheck (Some root) (snd formatProbe) = Some msg ->
               result = Throw msg)
            /\ (startError existsCheck (Some root) (snd formatProbe) = None ->
                (exitCode (fst existsProbe) = 0%Z ->
                 result = Ok (Some ("Branch '" ++ candidate ++ "' already exists")))
                /\ (exitCode (fst existsProbe) <> 0%Z -> result = Ok None))))
    /\ (forall msg, result = Throw msg ->
        exists argv, In argv [formatCheck; existsCheck]
                     /\ startError argv (Some root) (Run.world st') = Some msg)
    /\ (forall reason, result = Ok (Some reason) -> reason <> EmptyString).
Proof.
  intros H L candidate root st. cbv zeta.
  unfold Git.validateBranchName, Run.bind at 1. rewrite spawn_on.
  destruct (startError _ (Some root) (Run.world st)) as [msg |] eqn:Hformat.
  { exists (Throw msg), st. split; [reflexivity |].
    split; [intros ? [= <-]; now split |].
    split; [discriminate |].
    split; [| discriminate].
    intros ? [= <-]. eexists. split; [now left | exact Hformat]. }
  match goal with
  | |- context [(?x =? 0)%Z] => destruct (Z.eqb_spec x 0) as [Hz | Hnz]
  end; cbn [negb].
  - unfold Run.bind. rewrite spawn_on. cbn [after Run.world].
    destruct (startError ["git"; "rev-parse"; "--verify"; "refs/heads/" ++ candidate]
                         (Some root) _) as [msg |] eqn:Hexists.
    + eexists (Throw msg), _. split; [reflexivity |].
      split; [discriminate |].
      split.
      { intros _. split; [congruence |]. intros _.
        split; [now intros ? [= <-] | discriminate]. }
      split; [| discriminate].
      intros ? [= <-]. eexists. split; [right; now left | exact Hexists].
    + match goal with
      | |- context [(?x =? 0)%Z] => destruct (Z.eqb_spec x 0) as [Hez | Henz]
      end; unfold Run.ret.
      * eexists _, _. split; [reflexivity |].
        split; [discriminate |].
        split.
        { intros _. split; [congruence |]. intros _.
          split; [discriminate |]. intros _. split; [reflexivity | congruence]. }
        split; [discriminate |]. intros reason [= <-]. discriminate.
      * eexists _, _. split; [reflexivity |].
        split; [discriminate |].
        split.
        { intros _. split; [congruence |]. intros _.
          split; [discriminate |]. intros _. split; [congruence | reflexivity]. }
        split; discriminate.
  - unfold Run.ret. eexists _, _. split; [reflexivity |].
    split; [discriminate |].
    split; [intros _; split; [reflexivity | congruence] |].
    split; [discriminate |]. intros reason [= <-]. discriminate.
Qed.

Lemma C4_validateBranchName_answers_witness :
  exists result st',
    Git.validateBranchName (H := Fixture.host)
      (L := Fixture.noSuchDirectory "/nonexistent/dir") "my branch" "/work/app"
      (Fixture.start (Fixture.mkRecorded
         [(["git"; "check-ref-format"; "--branch"; "my branch"],
           Fixture.failed 1 "fatal: 'my branch' is not a valid branch name")]
         ["git"])) = (result, st')
    /\ result = Ok (Some "Invalid branch name")
    /\ "Invalid branch name" <> EmptyString.
Proof.
  destruct (C4_validateBranchName_answers Fixture.host
              (Fixture.noSuchDirectory "/nonexistent/dir") "my branch" "/work/app"
              (Fixture.start (Fixture.mkRecorded
                 [(["git"; "check-ref-format"; "--branch"; "my branch"],
                   Fixture.failed 1 "fatal: 'my branch' is not a valid branch name")]
                 ["git"])))
    as (result & st' & Hrun & _ & Hstarted & _ & Hreason).
  assert (Hresult : result = Ok (Some "Invalid branch name")).
  { apply Hstarted; [reflexivity |]. vm_compute. discriminate. }
  exists result, st'. split; [exact Hrun |]. split; [exact Hresult |].
  apply Hreason. exact Hresult.
Defined.

(** With a root directory that does not exist no child can be started,
    and [validateBranchName] raises. *)
Lemma C4_validateBranchName_raises :
  fst (Git.validateBranchName (H := Fixture.host)
         (L := Fixture.noSuchDirectory "/nonexistent/dir") "x" "/nonexistent/dir"
         (Fixture.start (Fixture.mkRecorded [] ["git"])))
  = Throw Fixture.enoent
  /\ ~ exists answer st',
         Git.validateBranchName (H := Fixture.host)
           (L := Fixture.noSuchDirectory "/nonexistent/dir") "x" "/nonexistent/dir"
           (Fixture.start (Fixture.mkRecorded [] ["git"]))
         = (Ok answer, st').
Proof.
  split; [vm_compute; reflexivity |].
  intros (answer & st' & Hrun). apply (f_equal fst) in Hrun.
  vm_compute in Hrun. discriminate.
Qed.

(** ** Default-branch detection *)

Section DetectDefaultBranch.
Context {H : Host}.
Variable root : string.

Lemma truthy_false (s : string) : JS.truthy s = false -> s = EmptyString.
Proof.
  unfold JS.truthy. destruct (String.eqb_spec s EmptyString); [auto | discriminate].
Qed.

Lemma truthy_true (s : string) : JS.truthy s = true -> s <> EmptyString.
Proof.
  unfold JS.truthy. destruct (String.eqb_spec s EmptyString); [discriminate | auto].
Qed.

Lemma exec_trace (args : list string) (cwd : option string) (st st' : Run.St)
  (r : Res string) :
  Git.exec args cwd st = (r, st') ->
  map call_argv (Run.calls st') = (map call_argv (Run.calls st) ++ ["git" :: args])%list.
Proof.
  rewrite exec_run. intros [= _ <-]. unfold after. cbn [Run.calls].
  now rewrite map_app.
Qed.

Lemma detected_trace (st st' : Run.St) (n : nat) (r : Res string) :
  Detected root st n r st' ->
  map call_argv (Run.calls st')
  = (map call_argv (Run.calls st) ++ firstn n Probe.order)%list.
Proof.
  intros Hd. destruct Hd;
    repeat match goal with
           | Hx : Git.exec _ _ _ = _ |- _ => apply exec_trace in Hx
           end;
    repeat match goal with
           | Hx : map call_argv (Run.calls _) = _ |- _ => rewrite Hx; clear Hx
           end;
    cbn [firstn Probe.order map]; rewrite <- ?app_assoc; reflexivity.
Qed.

End DetectDefaultBranch.

(** With no remote pointer, no [main] and no [master], the checked-out
    branch is the default; on a detached HEAD it is the literal. *)
Example detect_current :
  fst (Git.detectDefaultBranch (H := Fixture.host) "/work/app"
         (Fixture.start (Fixture.mkRecorded
            [(["git"; "branch"; "--show-current"], Fixture.ok "trunk")] ["git"])))
  = Ok "trunk".
Proof. vm_compute. reflexivity. Qed.

Example detect_detached :
  fst (Git.detectDefaultBranch (H := Fixture.host) "/work/app"
         (Fixture.start (Fixture.mkRecorded
            [(["git"; "branch"; "--show-current"], Fixture.ok EmptyString)] ["git"])))
  = Ok "main".
Proof. vm_compute. reflexivity. Qed.

(** The ladder as the code runs it. The probes are the remote's symbolic
    default-branch pointer, a local [main], a local [master] and the
    checked-out branch, in this order; the first success wins and no probe
    after it is run. When the current-branch command succeeds but prints
    nothing the result is the literal [main]; when that command itself
    fails its error is raised. *)
Theorem detectDefaultBranch_ladder :
  forall (H : Host) (root : string) (st : Run.St),
  exists n,
    Detected root st n (fst (Git.detectDefaultBranch root st))
             (snd (Git.detectDefaultBranch root st))
    /\ map call_argv (Run.calls (snd (Git.detectDefaultBranch root st)))
       = (map call_argv (Run.calls st) ++ firstn n Probe.order)%list.
Proof.
  intros H root st.
  assert (Hd : exists n, Detected root st n (fst (Git.detectDefaultBranch root st))
                                  (snd (Git.detectDefaultBranch root st))).
  { unfold Git.detectDefaultBranch.
    destruct (Git.exec Probe.remoteHead (Some root) st) as [[pointer | m1] st1] eqn:H1.
    { erewrite tryCatch_ok by (erewrite bind_ok by exact H1; reflexivity).
      exists 1. eapply ByRemoteHead; eassumption. }
    erewrite tryCatch_throw by (erewrite bind_throw by exact H1; reflexivity).
    destruct (Git.exec Probe.localMain (Some root) st1) as [[o2 | m2] st2] eqn:H2.
    { erewrite tryCatch_ok by (erewrite bind_ok by exact H2; reflexivity).
      exists 2. eapply ByLocalMain; eassumption. }
    erewrite tryCatch_throw by (erewrite bind_throw by exact H2; reflexivity).
    destruct (Git.exec Probe.localMaster (Some root) st2) as [[o3 | m3] st3] eqn:H3.
    { erewrite tryCatch_ok by (erewrite bind_ok by exact H3; reflexivity).
      exists 3. eapply ByLocalMaster; eassumption. }
    erewrite tryCatch_throw by (erewrite bind_throw by exact H3; reflexivity).
    destruct (Git.exec Probe.currentBranch (Some root) st3) as [[cur | m4] st4] eqn:H4.
    - erewrite bind_ok by exact H4. unfold Run.ret. cbn [fst snd].
      exists 4. destruct (JS.truthy cur) eqn:Ht.
      + eapply ByCurrentBranch; try eassumption. now apply truthy_true.
      + apply truthy_false in Ht. subst cur. eapply ByLiteral; eassumption.
    - erewrite bind_throw by exact H4. cbn [fst snd].
      exists 4. eapply CurrentBranchError; eassumption. }
  destruct Hd as (n & Hd). exists n. split; [exact Hd |].
  eapply detected_trace; exact Hd.
Qed.

(** C7. In a repository without remote pointer, without local [main] and
    [master], and where the current-branch command fails, the ladder is
    expected to end in the literal [main]. The code raises the error of
    the last command instead: the three probes before it catch their
    failure, the last one is not inside a [try]. *)
Lemma C7_current_branch_failure_raises :
  map call_argv
      (Run.calls (snd (Git.detectDefaultBranch (H := Fixture.host) "/work/app" Legacy.st)))
  = Probe.order
  /\ Forall (fun call => call_exit call <> 0%Z)
       (Run.calls (snd (Git.detectDefaultBranch (H := Fixture.host) "/work/app" Legacy.st)))
  /\ fst (Git.detectDefaultBranch (H := Fixture.host) "/work/app" Legacy.st)
     = Throw "error: unknown option `show-current'"
  /\ fst (Git.detectDefaultBranch (H := Fixture.host) "/work/app" Legacy.st) <> Ok "main".
Proof.
  split; [| split; [| split]].
  - vm_compute. reflexivity.
  - vm_compute. repeat constructor; discriminate.
  - vm_compute. reflexivity.
  - vm_compute. discriminate.
Qed.

(** ** Command-line arguments *)

Lemma parseFrom_unknown_dash (arg : string) (rest : list string) (result : CliArgs) :
  Flag.isKnown arg = false -> JS.startsWith arg "-" = true ->
  Cli.parseFrom (arg :: rest) result = Cli.parseFrom rest result.
Proof.
  unfold Flag.isKnown, Flag.known. cbn [existsb]. intros Hk Hd.
  repeat (apply orb_false_elim in Hk; destruct Hk as [? Hk]).
  cbn [Cli.parseFrom].
  repeat match goal with
         | Hx : String.eqb arg _ = false |- _ => rewrite Hx; clear Hx
         end.
  rewrite Hd. reflexivity.
Qed.

Lemma parseFrom_unknown_word (arg : string) (rest : list string) (result : CliArgs) :
  Flag.isKnown arg = false -> JS.startsWith arg "-" = false ->
  Cli.parseFrom (arg :: rest) result = Exited 1 (Flag.usage arg).
Proof.
  unfold Flag.isKnown, Flag.known. cbn [existsb]. intros Hk Hd.
  repeat (apply orb_false_elim in Hk; destruct Hk as [? Hk]).
  cbn [Cli.parseFrom].
  repeat match goal with
         | Hx : String.eqb arg _ = false |- _ => rewrite Hx; clear Hx
         end.
  rewrite Hd. reflexivity.
Qed.

(** Whenever the parser ends the process, a dash-free argument that it
    does not know is to blame. *)
Lemma parseFrom_exit (args : list string) :
  forall (result : CliArgs) (code : Z) (message : string),
  Cli.parseFrom args result = Exited code message ->
  exists arg, In arg args /\ JS.startsWith arg "-" = false /\ Flag.isKnown arg = false
              /\ code = 1%Z /\ message = Flag.usage arg.
Proof.
  induction args as [args IH] using (well_founded_induction
                                       (Wf_nat.well_founded_ltof _ (@List.length string))).
  destruct args as [| arg rest]; intros result code message; [discriminate |].
  assert (Hrest : forall r, Cli.parseFrom rest r = Exited code message ->
            exists a, In a (arg :: rest) /\ JS.startsWith a "-" = false
                      /\ Flag.isKnown a = false /\ code = 1%Z /\ message = Flag.usage a).
  { intros r Hr.
    destruct (IH rest (Nat.lt_succ_diag_r (List.length rest)) r code message Hr)
      as (a & Hin & Hrem).
    exists a. split; [now right | exact Hrem]. }
  cbn [Cli.parseFrom].
  destruct (String.eqb arg "--help" || String.eqb arg "-h"); [apply Hrest |].
  destruct (String.eqb arg "--version" || String.eqb arg "-v" || String.eqb arg "-V");
    [apply Hrest |].
  assert (Hother :
    (if String.eqb arg "config"
     then Cli.parseFrom rest (mkCliArgs (help result) (version result) true
                                        (cleanup result) (pathFile result))
     else if String.eqb arg "cleanup" || String.eqb arg "clean"
     then Cli.parseFrom rest (mkCliArgs (help result) (version result) (config result)
                                        true (pathFile result))
     else if negb (JS.startsWith arg "-")
     then Exited 1 ("Unknown command: " ++ arg
                    ++ String JS.LF "Run 'slopcannon --help' for usage.")
     else Cli.parseFrom rest result) = Exited code message ->
    exists a, In a (arg :: rest) /\ JS.startsWith a "-" = false
              /\ Flag.isKnown a = false /\ code = 1%Z /\ message = Flag.usage a).
  { destruct (String.eqb arg "config") eqn:Hc; [apply Hrest |].
    destruct (String.eqb arg "cleanup" || String.eqb arg "clean") eqn:Hcl; [apply Hrest |].
    destruct (JS.startsWith arg "-") eqn:Hd; cbn [negb]; [apply Hrest |].
    intros [= <- <-]. exists arg. split; [now left |].
    repeat split; try reflexivity; [exact Hd |].
    apply orb_false_elim in Hcl. destruct Hcl as [Hcl1 Hcl2].
    unfold Flag.isKnown, Flag.known. cbn [existsb].
    rewrite Hc, Hcl1, Hcl2.
    destruct arg as [| c arg']; [reflexivity |].
    unfold JS.startsWith in Hd. cbn in Hd.
    destruct (Ascii.eqb_spec c "-"%char) as [-> | Hne].
    - destruct arg'; discriminate.
    - assert (Hfirst : forall s, String.eqb (String c arg') (String "-"%char s) = false).
      { intros s. cbn. destruct (Ascii.eqb_spec c "-"%char); [contradiction | reflexivity]. }
      rewrite !Hfirst. reflexivity. }
  destruct (String.eqb arg "--path-file"); [| exact Hother].
  destruct rest as [| value rest']; [exact Hother |].
  intros Hr.
  assert (Hlt : ltof _ (@List.length string) rest' (arg :: value :: rest')).
  { unfold ltof. cbn. lia. }
  destruct (IH rest' Hlt _ code message Hr) as (a & Hin & Hrem).
  exists a. split; [right; now right | exact Hrem].
Qed.

Lemma parseFrom_trailing_path_file (pre : list string) :
  forall result : CliArgs,
  Forall (fun a => a <> "--path-file") pre ->
  Cli.parseFrom (pre ++ ["--path-file"]) result = Cli.parseFrom pre result.
Proof.
  induction pre as [| arg pre IH]; intros result Hpre.
  - reflexivity.
  - inversion Hpre as [| ? ? Hne Hpre']; subst.
    apply String.eqb_neq in Hne.
    cbn [app Cli.parseFrom]. rewrite Hne, !IH by assumption. reflexivity.
Qed.

(** C10. An argument that starts with a dash and is not one the parser
    knows is skipped without a trace, and only a dash-free argument it
    does not know ends the process with the usage error. A final
    [--path-file] with nothing after it is skipped as well: [pathFile]
    stays unset, and after a completed session the assistant is launched
    instead of the path being written. *)
Theorem C10_parseArgs_lenient :
  (forall arg rest result,
     Flag.isKnown arg = false -> JS.startsWith arg "-" = true ->
     Cli.parseFrom (arg :: rest) result = Cli.parseFrom rest result)
  /\ (forall arg rest result,
        Flag.isKnown arg = false -> JS.startsWith arg "-" = false ->
        Cli.parseFrom (arg :: rest) result = Exited 1 (Flag.usage arg))
  /\ (forall argv code message,
        Cli.parseArgs argv = Exited code message ->
        exists arg, In arg argv /\ JS.startsWith arg "-" = false
                    /\ Flag.isKnown arg = false /\ code = 1%Z
                    /\ message = Flag.usage arg)
  /\ (forall pre,
        Forall (fun a => a <> "--path-file") pre ->
        Cli.parseArgs (pre ++ ["--path-file"]) = Cli.parseArgs pre)
  /\ Cli.parseArgs ["--path-file"] = Args (mkCliArgs false false false false None)
  /\ (forall git claude gh bun worktreePath,
        JS.truthy git = true -> JS.truthy claude = true ->
        JS.truthy worktreePath = true ->
        Cli.main ["--path-file"] (mkDeps (Some git) (Some claude) gh bun)
                 (Some worktreePath)
        = LaunchAssistant worktreePath).
Proof.
  split; [exact parseFrom_unknown_dash |].
  split; [exact parseFrom_unknown_word |].
  split; [intros argv code message; apply parseFrom_exit |].
  split; [intros pre; apply parseFrom_trailing_path_file |].
  split; [reflexivity |].
  intros git claude gh bun worktreePath Hg Hc Hw.
  unfold Cli.main. cbn. rewrite Hg, Hc, Hw. reflexivity.
Qed.

Lemma C10_parseArgs_lenient_witness :
  Cli.parseFrom ["--frobnicate"; "clean"] (mkCliArgs false false false false None)
  = Cli.parseFrom ["clean"] (mkCliArgs false false false false None)
  /\ Cli.parseArgs (["-x"; "config"] ++ ["--path-file"]) = Cli.parseArgs ["-x"; "config"].
Proof.
  split.
  - apply (proj1 C10_parseArgs_lenient "--frobnicate" ["clean"]); reflexivity.
  - apply (proj1 (proj2 (proj2 (proj2 C10_parseArgs_lenient))) ["-x"; "config"]).
    repeat constructor; discriminate.
Defined.

Example main_unknown_flag :
  Cli.main ["--frobnicate"; "--path-file"]
           (mkDeps (Some "/usr/bin/git") (Some "/usr/bin/claude") None None)
           (Some "/work/app-x")
  = LaunchAssistant "/work/app-x".
Proof. reflexivity. Qed.

Example main_unknown_word :
  Cli.main ["frobnicate"]
           (mkDeps (Some "/usr/bin/git") (Some "/usr/bin/claude") None None)
           (Some "/work/app-x")
  = UsageError 1 (Flag.usage "frobnicate").
Proof. reflexivity. Qed.

(** ** Worktree enumeration *)

Lemma pushCurrent_MainFirst (entries : list WorktreeEntry) (current : PartialEntry) :
  MainFirst entries -> MainFirst (Git.pushCurrent entries current).
Proof.
  unfold Git.pushCurrent. intros Hinv.
  destruct (cur_path current) as [p |]; [| exact Hinv].
  destruct (JS.truthy p); [| exact Hinv].
  destruct entries as [| first others]; cbn.
  - split; [reflexivity | constructor].
  - destruct Hinv as [Hfirst Hothers]. split; [exact Hfirst |].
    apply Forall_app. split; [exact Hothers |].
    constructor; [reflexivity | constructor].
Qed.

Lemma parseLine_MainFirst (acc : list WorktreeEntry * PartialEntry) (line : string) :
  MainFirst (fst acc) -> MainFirst (fst (Git.parseLine acc line)).
Proof.
  destruct acc as [entries current]. unfold Git.parseLine. intros Hinv.
  destruct (JS.startsWith line "worktree "); [exact Hinv |].
  destruct (JS.startsWith line "branch refs/heads/"); [exact Hinv |].
  destruct (String.eqb line "detached"); [exact Hinv |].
  destruct (String.eqb line EmptyString); [| exact Hinv].
  now apply pushCurrent_MainFirst.
Qed.

Lemma parseLines_MainFirst (ls : list string) :
  forall acc, MainFirst (fst acc) -> MainFirst (fst (fold_left Git.parseLine ls acc)).
Proof.
  induction ls as [| line ls IH]; intros acc Hinv; cbn.
  - exact Hinv.
  - apply IH. now apply parseLine_MainFirst.
Qed.

Lemma parseWorktrees_MainFirst (raw : string) : MainFirst (Git.parseWorktrees raw).
Proof.
  unfold Git.parseWorktrees.
  pose proof (parseLines_MainFirst (JS.lines raw) ([], Git.emptyPartial) I) as Hinv.
  destruct (fold_left Git.parseLine (JS.lines raw) ([], Git.emptyPartial))
    as [entries current].
  now apply pushCurrent_MainFirst.
Qed.

Lemma filter_none {A} (f : A -> bool) (l : list A) :
  Forall (fun x => f x = false) l -> filter f l = [].
Proof.
  induction 1 as [| x l Hx _ IH]; cbn; [reflexivity |]. now rewrite Hx.
Qed.

Lemma parseWorktrees_finish (raw : string) :
  Git.parseWorktrees raw
  = finish (fold_left Git.parseLine (JS.lines raw) ([], Git.emptyPartial)).
Proof.
  unfold Git.parseWorktrees, finish.
  now destruct (fold_left Git.parseLine (JS.lines raw) ([], Git.emptyPartial)).
Qed.

(** The three lines of a record fill the scratch record. *)
Lemma parse_body (r : Listed) (entries : list WorktreeEntry) :
  fold_left Git.parseLine (recordBody r) (entries, Git.emptyPartial)
  = (entries, mkPartialEntry (Some (listed_path r)) (Some (listed_branch r))).
Proof.
  unfold recordBody. cbn [fold_left].
  assert (Hw : Git.parseLine (entries, Git.emptyPartial) ("worktree " ++ listed_path r)
               = (entries, mkPartialEntry (Some (listed_path r)) None)).
  { unfold Git.parseLine. rewrite (startsWith_app "worktree " (listed_path r)).
    now rewrite (slice_app "worktree " (listed_path r)). }
  rewrite Hw.
  assert (Hh : forall cur, Git.parseLine (entries, cur) ("HEAD " ++ listed_head r)
                           = (entries, cur)) by reflexivity.
  rewrite Hh.
  destruct (listed_branch r) as [b |]; [| reflexivity].
  unfold Git.parseLine.
  change (JS.startsWith ("branch refs/heads/" ++ b) "worktree ") with false.
  rewrite (startsWith_app "branch refs/heads/" b).
  now rewrite (slice_app "branch refs/heads/" b).
Qed.

Lemma push_record (r : Listed) (entries : list WorktreeEntry) :
  JS.truthy (listed_path r) = true ->
  Git.pushCurrent entries (mkPartialEntry (Some (listed_path r)) (Some (listed_branch r)))
  = (entries ++ [entryOf (Nat.eqb (List.length entries) 0) r])%list.
Proof.
  intros Hpath. unfold Git.pushCurrent. cbn [cur_path cur_branch].
  rewrite Hpath. unfold entryOf. now destruct (listed_branch r).
Qed.

(** A record and its closing blank line push one entry and leave the
    scratch record empty. *)
Lemma parse_record (r : Listed) (entries : list WorktreeEntry) (rest : list string) :
  JS.truthy (listed_path r) = true ->
  fold_left Git.parseLine (recordLines r ++ rest)%list (entries, Git.emptyPartial)
  = fold_left Git.parseLine rest
      ((entries ++ [entryOf (Nat.eqb (List.length entries) 0) r])%list, Git.emptyPartial).
Proof.
  intros Hpath. unfold recordLines.
  rewrite !fold_left_app, parse_body. cbn [fold_left]. f_equal.
  unfold Git.parseLine.
  change (JS.startsWith EmptyString "worktree ") with false.
  change (JS.startsWith EmptyString "branch refs/heads/") with false.
  cbn [String.eqb]. now rewrite (push_record r entries Hpath).
Qed.

Lemma parse_later_records (rs : list Listed) :
  forall entries : list WorktreeEntry,
  rs <> [] -> entries <> [] ->
  Forall wellFormed rs ->
  finish (fold_left Git.parseLine (listingLines rs) (entries, Git.emptyPartial))
  = (entries ++ map (entryOf false) rs)%list.
Proof.
  induction rs as [| r rs IH]; intros entries Hrs Hne Hall; [congruence |].
  inversion Hall as [| ? ? (Hpath & _) Hall']; subst.
  assert (Hlen : Nat.eqb (List.length entries) 0 = false) by now destruct entries.
  destruct rs as [| r' rs].
  - cbn [listingLines map]. rewrite parse_body. unfold finish. cbn [fst snd].
    now rewrite (push_record r entries Hpath), Hlen.
  - change (listingLines (r :: r' :: rs))
      with (recordLines r ++ listingLines (r' :: rs))%list.
    rewrite (parse_record r entries _ Hpath), Hlen.
    rewrite IH; [| discriminate | now destruct entries | exact Hall'].
    cbn [map]. now rewrite <- app_assoc.
Qed.

(** The entries of a listing of well-formed records are these records,
    the first one as the main worktree. *)
Lemma parse_listing (rs : list Listed) :
  rs <> [] -> Forall wellFormed rs ->
  finish (fold_left Git.parseLine (listingLines rs) ([], Git.emptyPartial)) = entriesOf rs.
Proof.
  destruct rs as [| r rs]; [congruence |]. intros _ Hall.
  inversion Hall as [| ? ? (Hpath & _) Hall']; subst.
  destruct rs as [| r' rs].
  - cbn [listingLines]. rewrite parse_body. unfold finish. cbn [fst snd].
    now rewrite (push_record r [] Hpath).
  - change (listingLines (r :: r' :: rs))
      with (recordLines r ++ listingLines (r' :: rs))%list.
    rewrite (parse_record r [] _ Hpath). cbn [app List.length Nat.eqb].
    rewrite parse_later_records; [reflexivity | discriminate | discriminate | exact Hall'].
Qed.

Lemma recordBody_lacks (r : Listed) :
  wellFormed r -> forallb (lacks JS.LF) (recordBody r) = true.
Proof.
  intros (_ & Hp & Hh & Hb). unfold recordBody. cbn [forallb].
  rewrite !lacks_app, Hp, Hh.
  destruct (listed_branch r) as [b |]; [rewrite lacks_app, Hb |]; reflexivity.
Qed.

Lemma listingLines_lacks (rs : list Listed) :
  Forall wellFormed rs -> forallb (lacks JS.LF) (listingLines rs) = true.
Proof.
  induction 1 as [| r rs Hr Hrs IH]; [reflexivity |].
  destruct rs as [| r' rs].
  - now apply recordBody_lacks.
  - change (listingLines (r :: r' :: rs))
      with ((recordBody r ++ [EmptyString]) ++ listingLines (r' :: rs))%list.
    rewrite !forallb_app, (recordBody_lacks r Hr), IH. reflexivity.
Qed.

Lemma listingLines_nonempty (rs : list Listed) : listingLines rs <> [].
Proof. destruct rs as [| r [| r' rs]]; discriminate. Qed.

Lemma parseWorktrees_listing (rs : list Listed) :
  rs <> [] -> Forall wellFormed rs ->
  Git.parseWorktrees (JS.join (String JS.LF EmptyString) (listingLines rs)) = entriesOf rs.
Proof.
  intros Hrs Hall. rewrite parseWorktrees_finish. unfold JS.lines.
  rewrite split_join;
    [| apply listingLines_nonempty | now apply listingLines_lacks].
  now apply parse_listing.
Qed.

Example parse_sample :
  Git.parseWorktrees Sample.worktreeListing
  = [mkWorktreeEntry "/work/app" (Some "main") true; Sample.login; Sample.scratch].
Proof. vm_compute. reflexivity. Qed.

Lemma mainFirst_shape (es : list WorktreeEntry) :
  MainFirst es -> es <> [] ->
  exists first others,
    es = first :: others
    /\ isMain first = true
    /\ Forall (fun e => isMain e = false) others
    /\ filter isMain es = [first].
Proof.
  intros Hinv Hne. destruct es as [| first others]; [contradiction |].
  destruct Hinv as [Hfirst Hothers].
  exists first, others. repeat split; try assumption.
  cbn. rewrite Hfirst, (filter_none _ _ Hothers). reflexivity.
Qed.

(** C5. Whenever the listing yields at least one record, exactly one
    parsed entry is marked as the main worktree: the first one; every
    later record is marked as linked. This holds of the text parser and of
    the enumeration that runs git, and a listing of one or more
    well-formed records yields exactly these records in order. *)
Theorem C5_first_record_is_main :
  (forall raw : string,
     Git.parseWorktrees raw <> [] ->
     exists first others,
       Git.parseWorktrees raw = first :: others
       /\ isMain first = true
       /\ Forall (fun e => isMain e = false) others
       /\ filter isMain (Git.parseWorktrees raw) = [first])
  /\ (forall (H : Host) (root : string) (st st' : Run.St) (es : list WorktreeEntry),
        Git.listWorktrees root st = (Ok es, st') -> es <> [] ->
        exists first others,
          es = first :: others
          /\ isMain first = true
          /\ Forall (fun e => isMain e = false) others
          /\ filter isMain es = [first])
  /\ (forall (r : Listed) (rs : list Listed),
        Forall wellFormed (r :: rs) ->
        Git.parseWorktrees (JS.join (String JS.LF EmptyString) (listingLines (r :: rs)))
        = entryOf true r :: map (entryOf false) rs).
Proof.
  split; [| split].
  - intros raw. apply mainFirst_shape, parseWorktrees_MainFirst.
  - intros H root st st' es Hrun.
    destruct (listWorktrees_run root st st' es Hrun) as (raw & ->).
    apply mainFirst_shape, parseWorktrees_MainFirst.
  - intros r rs Hall.
    now rewrite parseWorktrees_listing by (discriminate || exact Hall).
Qed.

Lemma C5_first_record_is_main_witness :
  (exists first others,
     Git.parseWorktrees Sample.worktreeListing = first :: others
     /\ isMain first = true
     /\ Forall (fun e => isMain e = false) others
     /\ filter isMain (Git.parseWorktrees Sample.worktreeListing) = [first])
  /\ Git.parseWorktrees
       (JS.join (String JS.LF EmptyString)
          (listingLines [mkListed "/work/app" "1111" (Some "main");
                         mkListed "/work/app-scratch" "3333" None]))
     = [mkWorktreeEntry "/work/app" (Some "main") true;
        mkWorktreeEntry "/work/app-scratch" None false].
Proof.
  split.
  - apply (proj1 C5_first_record_is_main Sample.worktreeListing).
    vm_compute. discriminate.
  - apply (proj2 (proj2 C5_first_record_is_main)
             (mkListed "/work/app" "1111" (Some "main"))
             [mkListed "/work/app-scratch" "3333" None]).
    repeat constructor.
Defined.

(** ** The reclaimer *)

Section ReclaimFacts.
Context {H : Host}.
Variable info : RepoInfo.




End ReclaimFacts.


Example reclaim_batch :
  fst (Cleanup.reclaim (H := Fixture.host) Sample.info Batch.toRemove Batch.st)
  = Ok (2%Z, ["two: fatal: '/work/app-two' is locked"])
  /\ map call_argv
       (Run.calls (snd (Cleanup.reclaim (H := Fixture.host) Sample.info Batch.toRemove
                          Batch.st)))
     = [["git"; "worktree"; "remove"; "/work/app-one"; "--force"];
        ["git"; "branch"; "-D"; "one"];
        ["git"; "worktree"; "remove"; "/work/app-two"; "--force"];
        ["git"; "worktree"; "remove"; "/work/app-three"; "--force"]].
Proof. split; vm_compute; reflexivity. Qed.

Section ReclaimAnywhere.
Context {H : Host} {L : Launcher H}.
Variable info : RepoInfo.



End ReclaimAnywhere.


(** ** Branch enumeration *)

(** *** The stable sort *)

Section SortFacts.
Context {A : Type}.
Variable cmp : A -> A -> Z.

Hypothesis cmp_total : forall x y, (0 < cmp x y)%Z -> before cmp y x.
Hypothesis cmp_trans : forall x y z, before cmp x y -> before cmp y z -> before cmp x z.

Lemma insertSorted_perm (x : A) (l : list A) :
  Permutation (Git.insertSorted cmp x l) (x :: l).
Proof.
  induction l as [| y l IH]; cbn.
  - reflexivity.
  - destruct (cmp x y <=? 0)%Z; [reflexivity |].
    rewrite IH. apply perm_swap.
Qed.

Lemma sort_perm (l : list A) : Permutation (Git.sort cmp l) l.
Proof.
  induction l as [| x l IH]; cbn.
  - reflexivity.
  - rewrite insertSorted_perm. now constructor.
Qed.

Lemma insertSorted_sorted (x : A) (l : list A) :
  StronglySorted (before cmp) l -> StronglySorted (before cmp) (Git.insertSorted cmp x l).
Proof.
  induction 1 as [| y l Hl IH Hy]; cbn.
  - constructor; constructor.
  - destruct (Z.leb_spec (cmp x y) 0) as [Hle | Hgt].
    + constructor; [now constructor |].
      constructor; [exact Hle |].
      apply Forall_forall. intros z Hz.
      rewrite Forall_forall in Hy. eapply cmp_trans; [exact Hle | now apply Hy].
    + constructor; [exact IH |].
      apply Forall_forall. intros z Hz.
      apply (Permutation_in _ (insertSorted_perm x l)) in Hz.
      destruct Hz as [<- | Hz].
      * now apply cmp_total.
      * rewrite Forall_forall in Hy. now apply Hy.
Qed.

Lemma sort_sorted (l : list A) : StronglySorted (before cmp) (Git.sort cmp l).
Proof.
  induction l as [| x l IH]; cbn.
  - constructor.
  - now apply insertSorted_sorted.
Qed.

End SortFacts.

(** *** Sort keys *)

Lemma compareKeys_antisym (k1 : list N) :
  forall k2, Git.compareKeys k2 k1 = CompOpp (Git.compareKeys k1 k2).
Proof.
  induction k1 as [| x k1 IH]; intros [| y k2]; cbn; try reflexivity.
  rewrite (N.compare_antisym x y).
  destruct (N.compare x y); cbn; [apply IH | reflexivity | reflexivity].
Qed.

Lemma compareKeys_trans (k1 : list N) :
  forall k2 k3,
  Git.compareKeys k1 k2 <> Gt -> Git.compareKeys k2 k3 <> Gt ->
  Git.compareKeys k1 k3 <> Gt.
Proof.
  induction k1 as [| x k1 IH]; intros [| y k2] [| z k3]; cbn;
    try congruence.
  destruct (N.compare_spec x y) as [-> | Hxy | Hxy]; [| | congruence].
  - destruct (N.compare_spec y z) as [-> | Hyz | Hyz]; [| congruence | congruence].
    apply IH.
  - intros _.
    destruct (N.compare_spec y z) as [-> | Hyz | Hyz]; [| | congruence]; intros _.
    + destruct (N.compare_spec x z) as [-> | Hxz | Hxz]; [lia | congruence | lia].
    + destruct (N.compare_spec x z) as [-> | Hxz | Hxz]; [lia | congruence | lia].
Qed.

Lemma signOf_nonpos (c : comparison) : (Git.signOf c <= 0)%Z <-> c <> Gt.
Proof. destruct c; cbn; split; (congruence || lia). Qed.

Lemma signOf_pos (c : comparison) : (0 < Git.signOf c)%Z <-> c = Gt.
Proof. destruct c; cbn; split; (congruence || lia). Qed.

Section BranchOrderFacts.
Context {H : Host}.
Variable defaultBranch : string.

Lemma localeCompare_total (a b : string) :
  (0 < Git.localeCompare a b)%Z -> (Git.localeCompare b a <= 0)%Z.
Proof.
  unfold Git.localeCompare. rewrite signOf_pos, signOf_nonpos.
  rewrite (compareKeys_antisym (collationKey a) (collationKey b)).
  intros ->. discriminate.
Qed.

Lemma localeCompare_trans (a b c : string) :
  (Git.localeCompare a b <= 0)%Z -> (Git.localeCompare b c <= 0)%Z ->
  (Git.localeCompare a c <= 0)%Z.
Proof.
  unfold Git.localeCompare. rewrite !signOf_nonpos. apply compareKeys_trans.
Qed.

Lemma branchOrder_total (x y : BranchEntry) :
  (0 < Git.branchOrder defaultBranch x y)%Z ->
  before (Git.branchOrder defaultBranch) y x.
Proof.
  unfold before, Git.branchOrder.
  destruct (String.eqb (name x) defaultBranch); [lia |].
  destruct (String.eqb (name y) defaultBranch); [lia |].
  apply localeCompare_total.
Qed.

Lemma branchOrder_trans (x y z : BranchEntry) :
  before (Git.branchOrder defaultBranch) x y ->
  before (Git.branchOrder defaultBranch) y z ->
  before (Git.branchOrder defaultBranch) x z.
Proof.
  unfold before, Git.branchOrder.
  destruct (String.eqb (name x) defaultBranch); [lia |].
  destruct (String.eqb (name y) defaultBranch); [lia |].
  destruct (String.eqb (name z) defaultBranch); [lia |].
  apply localeCompare_trans.
Qed.

Lemma listBranchesOf_perm (raw : string) :
  Permutation (Git.listBranchesOf raw defaultBranch) (Git.branchEntries raw).
Proof. apply sort_perm. Qed.

Lemma listBranchesOf_sorted (raw : string) :
  StronglySorted (before (Git.branchOrder defaultBranch))
                 (Git.listBranchesOf raw defaultBranch).
Proof. apply sort_sorted; [exact branchOrder_total | exact branchOrder_trans]. Qed.

End BranchOrderFacts.

(** *** The two passes over the listing *)

Lemma setHas_In (x : string) (s : list string) : Git.setHas x s = true <-> In x s.
Proof.
  unfold Git.setHas. rewrite existsb_exists. split.
  - intros (y & Hy & Heq). apply String.eqb_eq in Heq. now subst.
  - intros Hin. exists x. split; [exact Hin | apply String.eqb_refl].
Qed.

Lemma setAdd_In (x y : string) (s : list string) :
  In y (Git.setAdd x s) <-> y = x \/ In y s.
Proof.
  unfold Git.setAdd. destruct (existsb (String.eqb x) s) eqn:Hx.
  - split; [now right |]. intros [-> | Hin]; [| exact Hin].
    now apply setHas_In.
  - rewrite in_app_iff. cbn. intuition congruence.
Qed.

Lemma mapHas_In (k : string) (m : list (string * BranchEntry)) :
  Git.mapHas k m = true <-> In k (map fst m).
Proof.
  unfold Git.mapHas. rewrite existsb_exists, in_map_iff. split.
  - intros (kv & Hin & Heq). apply String.eqb_eq in Heq. eauto.
  - intros (kv & Heq & Hin). exists kv. split; [exact Hin |].
    subst k. apply String.eqb_refl.
Qed.

Lemma collectLocal_In (acc : list string) (line x : string) :
  In x (Git.collectLocal acc line)
  <-> In x acc \/ (isLocalLine line = true /\ x = JS.trim line).
Proof.
  unfold Git.collectLocal, isLocalLine.
  destruct (JS.truthy (JS.trim line)); cbn [negb orb andb].
  - destruct (JS.startsWith (JS.trim line) "origin/"); cbn [negb].
    + intuition discriminate.
    + rewrite setAdd_In. intuition.
  - intuition discriminate.
Qed.

Lemma collectLocal_fold (ls : list string) :
  forall (acc : list string) (x : string),
  In x (fold_left Git.collectLocal ls acc)
  <-> In x acc \/ exists line, In line ls /\ isLocalLine line = true /\ x = JS.trim line.
Proof.
  induction ls as [| l ls IH]; intros acc x; cbn [fold_left].
  - split; [now left |]. intros [Hin | (line & [] & _)]. exact Hin.
  - rewrite IH, collectLocal_In. split.
    + intros [[Hin | (Hl & ->)] | (line & Hin & Hl & ->)].
      * now left.
      * right. exists l. cbn. auto.
      * right. exists line. cbn. auto.
    + intros [Hin | (line & [<- | Hin] & Hl & ->)].
      * left. now left.
      * left. right. auto.
      * right. exists line. auto.
Qed.

(** The local branches are the names on the local lines. *)
Lemma localBranches_In (raw x : string) :
  In x (Git.localBranches raw)
  <-> exists line, In line (JS.lines raw) /\ isLocalLine line = true /\ x = JS.trim line.
Proof.
  unfold Git.localBranches. rewrite collectLocal_fold. cbn. intuition.
Qed.

Lemma buildEntry_cases (locals : list string) (entries : list (string * BranchEntry))
  (line : string) :
  Git.buildEntry locals entries line
  = if isBranchLine line && negb (Git.mapHas (shortOf line) entries)
    then (entries
          ++ [(shortOf line,
               mkBranchEntry (shortOf line)
                 (if Git.setHas (shortOf line) locals then shortOf line
                  else JS.trim line))])%list
    else entries.
Proof.
  unfold Git.buildEntry, isBranchLine, shortOf.
  destruct (JS.truthy (JS.trim line)); cbn [negb andb]; [| reflexivity].
  destruct (JS.startsWith (JS.trim line) "origin/");
    match goal with
    | |- context [String.eqb ?s "HEAD"] => destruct (String.eqb s "HEAD")
    end; cbn [negb andb]; try reflexivity;
    match goal with
    | |- context [Git.mapHas ?s entries] => destruct (Git.mapHas s entries)
    end; reflexivity.
Qed.

Lemma buildEntry_WellKeyed (locals : list string) (entries : list (string * BranchEntry))
  (line : string) :
  WellKeyed locals entries -> WellKeyed locals (Git.buildEntry locals entries line).
Proof.
  intros [Hnd Hall]. rewrite buildEntry_cases.
  destruct (isBranchLine line); cbn [andb]; [| constructor; assumption].
  destruct (Git.mapHas (shortOf line) entries) eqn:Hhas; cbn [negb];
    [constructor; assumption |].
  constructor.
  - rewrite map_app. cbn [map fst].
    apply (Permutation_NoDup (Permutation_cons_append _ _)).
    constructor; [| exact Hnd].
    rewrite <- mapHas_In, Hhas. discriminate.
  - apply Forall_app. split; [exact Hall |].
    constructor; [| constructor]. cbn [fst snd name ref].
    split; [reflexivity |].
    intros Hin. apply setHas_In in Hin. now rewrite Hin.
Qed.

Lemma buildEntry_keeps (locals : list string) (entries : list (string * BranchEntry))
  (line k : string) :
  In k (map fst entries) -> In k (map fst (Git.buildEntry locals entries line)).
Proof.
  rewrite buildEntry_cases.
  destruct (_ && _); [| auto].
  rewrite map_app, in_app_iff. auto.
Qed.

Lemma buildEntry_adds (locals : list string) (entries : list (string * BranchEntry))
  (line : string) :
  isBranchLine line = true ->
  In (shortOf line) (map fst (Git.buildEntry locals entries line)).
Proof.
  intros Hl. rewrite buildEntry_cases, Hl. cbn [andb].
  destruct (Git.mapHas (shortOf line) entries) eqn:Hhas; cbn [negb].
  - now apply mapHas_In.
  - rewrite map_app, in_app_iff. right. now left.
Qed.

Lemma buildEntries_WellKeyed (locals ls : list string) :
  forall entries,
  WellKeyed locals entries -> WellKeyed locals (fold_left (Git.buildEntry locals) ls entries).
Proof.
  induction ls as [| l ls IH]; intros entries Hwk; cbn [fold_left].
  - exact Hwk.
  - apply IH. now apply buildEntry_WellKeyed.
Qed.

Lemma buildEntries_keeps (locals ls : list string) :
  forall entries k,
  In k (map fst entries) -> In k (map fst (fold_left (Git.buildEntry locals) ls entries)).
Proof.
  induction ls as [| l ls IH]; intros entries k Hin; cbn [fold_left].
  - exact Hin.
  - apply IH. now apply buildEntry_keeps.
Qed.

Lemma buildEntries_adds (locals ls : list string) :
  forall entries line,
  In line ls -> isBranchLine line = true ->
  In (shortOf line) (map fst (fold_left (Git.buildEntry locals) ls entries)).
Proof.
  induction ls as [| l ls IH]; intros entries line Hin Hl; cbn [fold_left].
  - destruct Hin.
  - destruct Hin as [-> | Hin].
    + apply buildEntries_keeps. now apply buildEntry_adds.
    + now apply IH.
Qed.

Lemma wellKeyed_names (locals : list string) (entries : list (string * BranchEntry)) :
  WellKeyed locals entries -> map name (map snd entries) = map fst entries.
Proof.
  intros [_ Hall]. induction Hall as [| kv l [Hn _] _ IH]; cbn; [reflexivity |].
  now rewrite Hn, IH.
Qed.

(** The entries before sorting: unique names, local reference for local
    names. *)
Lemma branchEntries_nodup (raw : string) : NoDup (map name (Git.branchEntries raw)).
Proof.
  unfold Git.branchEntries.
  assert (Hwk : WellKeyed (Git.localBranches raw)
                  (fold_left (Git.buildEntry (Git.localBranches raw)) (JS.lines raw) [])).
  { apply buildEntries_WellKeyed. constructor; constructor. }
  rewrite (wellKeyed_names _ _ Hwk). apply Hwk.
Qed.

Lemma branchEntries_local (raw : string) (e : BranchEntry) :
  In e (Git.branchEntries raw) -> In (name e) (Git.localBranches raw) ->
  ref e = name e.
Proof.
  unfold Git.branchEntries. intros Hin Hloc.
  assert (Hwk : WellKeyed (Git.localBranches raw)
                  (fold_left (Git.buildEntry (Git.localBranches raw)) (JS.lines raw) [])).
  { apply buildEntries_WellKeyed. constructor; constructor. }
  apply in_map_iff in Hin. destruct Hin as (kv & <- & Hin).
  destruct Hwk as [_ Hall]. rewrite Forall_forall in Hall.
  destruct (Hall kv Hin) as [Hn Href].
  rewrite Hn in *. now apply Href.
Qed.

Lemma branchEntries_present (raw line : string) :
  In line (JS.lines raw) -> isBranchLine line = true ->
  exists e, In e (Git.branchEntries raw) /\ name e = shortOf line.
Proof.
  intros Hin Hl. unfold Git.branchEntries.
  assert (Hwk : WellKeyed (Git.localBranches raw)
                  (fold_left (Git.buildEntry (Git.localBranches raw)) (JS.lines raw) [])).
  { apply buildEntries_WellKeyed. constructor; constructor. }
  pose proof (buildEntries_adds (Git.localBranches raw) (JS.lines raw) [] line Hin Hl)
    as Hkey.
  apply in_map_iff in Hkey. destruct Hkey as (kv & Hk & Hkv).
  exists (snd kv). split; [now apply in_map |].
  destruct Hwk as [_ Hall]. rewrite Forall_forall in Hall.
  destruct (Hall kv Hkv) as [Hn _]. congruence.
Qed.

(** *** The sorted result *)

Lemma listBranchesOf_nodup {H : Host} (raw defaultBranch : string) :
  NoDup (map name (Git.listBranchesOf raw defaultBranch)).
Proof.
  apply (Permutation_NoDup
           (Permutation_map name
              (Permutation_sym (listBranchesOf_perm defaultBranch raw)))).
  apply branchEntries_nodup.
Qed.

Lemma sorted_without_default {H : Host} (defaultBranch : string) (l : list BranchEntry) :
  ~ In defaultBranch (map name l) ->
  StronglySorted (before (Git.branchOrder defaultBranch)) l ->
  StronglySorted collated l.
Proof.
  intros Hnot Hs. induction Hs as [| x l Hl IH Hx]; constructor.
  - apply IH. intros Hin. apply Hnot. now right.
  - apply Forall_forall. intros y Hy.
    rewrite Forall_forall in Hx. specialize (Hx y Hy).
    unfold before, Git.branchOrder in Hx. unfold collated.
    destruct (String.eqb_spec (name x) defaultBranch) as [Heq | _].
    { exfalso. apply Hnot. left. exact Heq. }
    destruct (String.eqb_spec (name y) defaultBranch) as [Heq | _]; [| exact Hx].
    exfalso. apply Hnot. right. rewrite <- Heq. now apply in_map.
Qed.

Example listBranches_sample :
  Git.listBranchesOf (H := Fixture.host)
    (Fixture.text ["feat/login"; "main"; "origin/HEAD"; "origin/feat/login";
                   "origin/main"; "origin/release"]) "main"
  = [mkBranchEntry "main" "main";
     mkBranchEntry "feat/login" "feat/login";
     mkBranchEntry "release" "origin/release"].
Proof. vm_compute. reflexivity. Qed.

(** C6. A branch enumeration is [listBranchesOf] on the listing git
    printed, and its entries have pairwise different display names; when
    the listing has a local branch [foo] next to the remote branch
    [origin/foo], every entry named [foo] refers to the local name, and
    unless [foo] is the skipped name [HEAD] there is such an entry. *)
Theorem C6_unique_names_local_wins :
  forall (H : Host) (raw defaultBranch : string),
  (forall (root : string) (st st' : Run.St) (bs : list BranchEntry),
     Git.listBranches root defaultBranch st = (Ok bs, st') ->
     bs = Git.listBranchesOf (branchListing root st) defaultBranch
     /\ NoDup (map name bs))
  /\ NoDup (map name (Git.listBranchesOf raw defaultBranch))
  /\ forall foo : string,
       In foo (map JS.trim (JS.lines raw)) ->
       In ("origin/" ++ foo) (map JS.trim (JS.lines raw)) ->
       foo <> EmptyString -> JS.startsWith foo "origin/" = false ->
       (forall e, In e (Git.listBranchesOf raw defaultBranch) -> name e = foo ->
                  ref e = foo)
       /\ (foo <> "HEAD" ->
           exists e, In e (Git.listBranchesOf raw defaultBranch)
                     /\ name e = foo /\ ref e = foo).
Proof.
  intros H raw defaultBranch.
  pose proof (listBranchesOf_perm defaultBranch raw) as Hperm.
  split; [| split].
  - intros root st bs st' Hrun.
    rewrite (listBranches_run _ _ _ _ _ Hrun).
    split; [reflexivity | apply listBranchesOf_nodup].
  - apply listBranchesOf_nodup.
  - intros foo Hlocal _ Hne Hnr.
    apply in_map_iff in Hlocal. destruct Hlocal as (line & Htrim & Hline).
    assert (Htruthy : JS.truthy (JS.trim line) = true).
    { rewrite Htrim. unfold JS.truthy.
      destruct (String.eqb_spec foo EmptyString); [contradiction | reflexivity]. }
    assert (Hloc : In foo (Git.localBranches raw)).
    { apply localBranches_In. exists line. split; [exact Hline |].
      split; [| now symmetry].
      unfold isLocalLine. now rewrite Htruthy, Htrim, Hnr. }
    assert (Hshort : shortOf line = foo).
    { unfold shortOf. now rewrite Htrim, Hnr. }
    assert (Hwins : forall e, In e (Git.listBranchesOf raw defaultBranch) ->
                              name e = foo -> ref e = foo).
    { intros e He Hn. apply (Permutation_in _ Hperm) in He.
      rewrite <- Hn. apply (branchEntries_local raw e He). now rewrite Hn. }
    split; [exact Hwins |].
    intros Hhead.
    destruct (branchEntries_present raw line Hline) as (e & He & Hn).
    { unfold isBranchLine. rewrite Htruthy, Hshort.
      destruct (String.eqb_spec foo "HEAD"); [contradiction | reflexivity]. }
    apply (Permutation_in _ (Permutation_sym Hperm)) in He.
    exists e. rewrite Hshort in Hn. auto.
Qed.

Lemma C6_unique_names_local_wins_witness :
  let raw := Fixture.text ["origin/foo"; "foo"; "origin/HEAD"; "main"] in
  (forall e, In e (Git.listBranchesOf (H := Fixture.host) raw "main") -> name e = "foo" ->
             ref e = "foo")
  /\ ("foo" <> "HEAD" ->
      exists e, In e (Git.listBranchesOf (H := Fixture.host) raw "main")
                /\ name e = "foo" /\ ref e = "foo").
Proof.
  cbv zeta.
  apply (proj2 (proj2 (C6_unique_names_local_wins Fixture.host
                         (Fixture.text ["origin/foo"; "foo"; "origin/HEAD"; "main"])
                         "main")) "foo").
  - vm_compute. tauto.
  - vm_compute. tauto.
  - discriminate.
  - reflexivity.
Defined.

(** C3. A branch enumeration is [listBranchesOf] on
    the listing git printed. When the default branch is among the display
    names it is the first element of the enumeration, and the elements
    after it (all of them, when it is absent) are in the order of
    [localeCompare], the collation of the runtime. *)
Theorem C3_default_first_then_collated :
  forall (H : Host) (raw defaultBranch : string),
  (forall (root : string) (st st' : Run.St) (bs : list BranchEntry),
     Git.listBranches root defaultBranch st = (Ok bs, st') ->
     bs = Git.listBranchesOf (branchListing root st) defaultBranch)
  /\ Permutation (Git.listBranchesOf raw defaultBranch) (Git.branchEntries raw)
  /\ (In defaultBranch (map name (Git.branchEntries raw)) ->
      exists first others,
        Git.listBranchesOf raw defaultBranch = first :: others
        /\ name first = defaultBranch
        /\ ~ In defaultBranch (map name others)
        /\ StronglySorted collated others)
  /\ (~ In defaultBranch (map name (Git.branchEntries raw)) ->
      StronglySorted collated (Git.listBranchesOf raw defaultBranch)).
Proof.
  intros H raw defaultBranch.
  pose proof (listBranchesOf_perm defaultBranch raw) as Hperm.
  pose proof (listBranchesOf_sorted defaultBranch raw) as Hsorted.
  pose proof (listBranchesOf_nodup raw defaultBranch) as Hnodup.
  split; [intros root st bs st'; apply listBranches_run |].
  split; [exact Hperm |]. split.
  - intros Hin.
    apply (Permutation_in _ (Permutation_map name (Permutation_sym Hperm))) in Hin.
    destruct (Git.listBranchesOf raw defaultBranch) as [| first others]; [destruct Hin |].
    apply StronglySorted_inv in Hsorted. destruct Hsorted as [Hothers Hfirst].
    cbn [map] in Hnodup. apply NoDup_cons_iff in Hnodup. destruct Hnodup as [Hfresh _].
    assert (Hname : name first = defaultBranch).
    { destruct Hin as [Heq | Hin]; [exact Heq |].
      apply in_map_iff in Hin. destruct Hin as (e & He & Hin).
      rewrite Forall_forall in Hfirst. specialize (Hfirst e Hin).
      unfold before, Git.branchOrder in Hfirst.
      destruct (String.eqb_spec (name first) defaultBranch) as [Heq | _]; [exact Heq |].
      rewrite He, String.eqb_refl in Hfirst. lia. }
    exists first, others. rewrite Hname in Hfresh.
    repeat split; try assumption.
    now apply (sorted_without_default defaultBranch).
  - intros Hnot. apply (sorted_without_default defaultBranch); [| exact Hsorted].
    intros Hin. apply Hnot.
    now apply (Permutation_in _ (Permutation_map name Hperm)).
Qed.

Lemma C3_default_first_then_collated_witness :
  exists first others,
    Git.listBranchesOf (H := Fixture.host) (Fixture.text ["zeta"; "main"; "alpha"]) "main"
    = first :: others
    /\ name first = "main"
    /\ ~ In "main" (map name others)
    /\ StronglySorted (collated (H := Fixture.host)) others.
Proof.
  apply (proj1 (proj2 (proj2 (C3_default_first_then_collated Fixture.host
                                (Fixture.text ["zeta"; "main"; "alpha"]) "main")))).
  vm_compute. tauto.
Defined.

(** C3, the ordinal reading refuted: the order after the default branch is
    the collation order, in which [a] comes before [B], not the order of
    the character codes, in which [B] comes before [a]. *)
Lemma C3_collation_is_not_ordinal :
  Git.listBranchesOf (H := Fixture.host) (Fixture.text ["main"; "B"; "a"]) "main"
  = [mkBranchEntry "main" "main"; mkBranchEntry "a" "a"; mkBranchEntry "B" "B"]
  /\ ~ StronglySorted ordinal
         (tl (Git.listBranchesOf (H := Fixture.host) (Fixture.text ["main"; "B"; "a"])
                "main")).
Proof.
  split.
  - vm_compute. reflexivity.
  - intros Hs.
    assert (Heq : tl (Git.listBranchesOf (H := Fixture.host)
                        (Fixture.text ["main"; "B"; "a"]) "main")
                  = [mkBranchEntry "a" "a"; mkBranchEntry "B" "B"])
      by (vm_compute; reflexivity).
    rewrite Heq in Hs. apply StronglySorted_inv in Hs. destruct Hs as [_ Hs].
    inversion Hs as [| ? ? Hab _]; subst. vm_compute in Hab. discriminate.
Qed.

(** ** The worktree path *)

Lemma plain_noSep (seg : string) : plain seg = true -> noSep seg = true.
Proof.
  unfold plain. intros Hp.
  repeat (apply andb_prop in Hp; destruct Hp as [Hp ?]). exact Hp.
Qed.

Lemma forallb_plain_noSep (segs : list string) :
  forallb plain segs = true -> forallb noSep segs = true.
Proof.
  rewrite !forallb_forall. intros Hall s Hs. apply plain_noSep. now apply Hall.
Qed.

Lemma normStep_plain (allowAboveRoot : bool) (stack : list string) (seg : string) :
  plain seg = true -> Path.normStep allowAboveRoot stack seg = seg :: stack.
Proof.
  unfold plain, Path.normStep. intros Hp.
  repeat (apply andb_prop in Hp; destruct Hp as [Hp ?]).
  repeat match goal with
         | Hx : negb _ = true |- _ => apply negb_true_iff in Hx; rewrite Hx; clear Hx
         end.
  reflexivity.
Qed.

Lemma normalize_plain (allowAboveRoot : bool) (segs : list string) :
  forall stack,
  forallb plain segs = true ->
  fold_left (Path.normStep allowAboveRoot) segs stack = (rev segs ++ stack)%list.
Proof.
  induction segs as [| s segs IH]; intros stack Hall; cbn [fold_left rev].
  - reflexivity.
  - cbn [forallb] in Hall. apply andb_prop in Hall. destruct Hall as [Hs Hall].
    rewrite (normStep_plain _ _ _ Hs), (IH _ Hall), <- app_assoc. reflexivity.
Qed.

Lemma endsWithSep_cons (c : ascii) (s : string) :
  s <> EmptyString -> Path.endsWithSep (String c s) = Path.endsWithSep s.
Proof. destruct s; [congruence | reflexivity]. Qed.

Lemma endsWithSep_app (s t : string) :
  t <> EmptyString -> Path.endsWithSep (s ++ t) = Path.endsWithSep t.
Proof.
  intros Ht. induction s as [| c s IH]; [reflexivity |].
  cbn [String.append]. rewrite endsWithSep_cons; [exact IH |].
  destruct s; [exact Ht | discriminate].
Qed.

Lemma endsWithSep_noSep (s : string) : noSep s = true -> Path.endsWithSep s = false.
Proof.
  unfold noSep. induction s as [| c s IH]; [reflexivity |].
  cbn [lacks]. intros Hs. apply andb_prop in Hs. destruct Hs as [Hc Hs].
  destruct s as [| c' s].
  - cbn. now apply negb_true_iff in Hc.
  - rewrite endsWithSep_cons by discriminate. now apply IH.
Qed.

Lemma join_snoc (segs : list string) (last : string) :
  segs <> [] ->
  JS.join "/" (segs ++ [last]) = JS.join "/" segs ++ "/" ++ last.
Proof.
  induction segs as [| s segs IH]; [congruence |]. intros _.
  destruct segs as [| s' segs].
  - reflexivity.
  - change (JS.join "/" ((s :: s' :: segs) ++ [last]))
      with (s ++ "/" ++ JS.join "/" ((s' :: segs) ++ [last])).
    rewrite IH by discriminate.
    change (JS.join "/" (s :: s' :: segs)) with (s ++ "/" ++ JS.join "/" (s' :: segs)).
    now rewrite !append_assoc.
Qed.

Lemma join_ends (segs : list string) (last : string) :
  last <> EmptyString ->
  exists front, JS.join "/" (segs ++ [last]) = front ++ last.
Proof.
  intros _. destruct segs as [| s segs].
  - exists EmptyString. reflexivity.
  - exists (JS.join "/" (s :: segs) ++ "/").
    rewrite join_snoc by discriminate. now rewrite append_assoc.
Qed.

(** Normalising an absolute path of plain segments changes nothing. *)
Lemma normalize_absolute (segs : list string) (last : string) :
  forallb plain segs = true -> plain last = true ->
  Path.normalize (absolute (segs ++ [last])) = absolute (segs ++ [last]).
Proof.
  intros Hsegs Hlast.
  assert (Hall : forallb plain (segs ++ [last]) = true).
  { rewrite forallb_app, Hsegs. cbn. now rewrite Hlast. }
  assert (Hne : last <> EmptyString).
  { unfold plain in Hlast.
    repeat (apply andb_prop in Hlast; destruct Hlast as [Hlast ?]).
    intros ->. discriminate. }
  unfold Path.normalize, absolute.
  change (String.eqb ("/" ++ JS.join "/" (segs ++ [last])) EmptyString) with false.
  assert (Habs : JS.startsWith ("/" ++ JS.join "/" (segs ++ [last])) "/" = true)
    by (unfold JS.startsWith; cbn; now destruct (JS.join "/" (segs ++ [last]))).
  rewrite Habs.
  cbv zeta. cbn [negb].
  change (JS.split Path.SEP ("/" ++ JS.join "/" (segs ++ [last])))
    with (EmptyString :: JS.split Path.SEP (JS.join "/" (segs ++ [last]))).
  rewrite (split_join Path.SEP);
    [| now destruct segs | now apply forallb_plain_noSep].
  unfold Path.normalizeSegments. cbn [fold_left].
  change (Path.normStep false [] EmptyString) with (@nil string).
  rewrite (normalize_plain _ _ _ Hall), app_nil_r, rev_involutive.
  destruct (join_ends segs last Hne) as (front & Hfront).
  assert (Htrail : Path.endsWithSep ("/" ++ JS.join "/" (segs ++ [last])) = false).
  { rewrite Hfront, <- append_assoc, endsWithSep_app by exact Hne.
    apply endsWithSep_noSep. now apply plain_noSep. }
  rewrite Htrail.
  destruct (String.eqb_spec (JS.join "/" (segs ++ [last])) EmptyString) as [Hempty | _];
    [| reflexivity].
  exfalso. rewrite Hfront in Hempty.
  destruct front; cbn in Hempty; [now apply Hne | discriminate].
Qed.

Lemma noSep_app (s t : string) : noSep (s ++ t) = noSep s && noSep t.
Proof. apply lacks_app. Qed.

(** A name with a hyphen in it is never empty, [.] or [..]. *)
Lemma plain_dashed (r s : string) :
  noSep r = true -> noSep s = true -> plain (r ++ "-" ++ s) = true.
Proof.
  intros Hr Hs. unfold plain.
  rewrite !noSep_app, Hr, Hs. cbn [andb].
  change (noSep "-") with true. cbn [andb].
  destruct r as [| c1 [| c2 [| c3 r]]]; cbn;
    repeat match goal with
           | |- context [Ascii.eqb ?a ?b] => destruct (Ascii.eqb a b); cbn
           end; reflexivity.
Qed.

Lemma replaceAll_chars (c d : ascii) (s : string) :
  list_ascii_of_string (JS.replaceAll c d s)
  = map (fun x => if Ascii.eqb x c then d else x) (list_ascii_of_string s).
Proof. induction s as [| x s IH]; cbn; [reflexivity | now rewrite IH]. Qed.

Lemma replaceAll_length (c d : ascii) (s : string) :
  String.length (JS.replaceAll c d s) = String.length s.
Proof. induction s as [| x s IH]; cbn; [reflexivity | now rewrite IH]. Qed.

Lemma sanitized_noSep (s : string) :
  noSep (JS.replaceAll "/"%char "-"%char s) = true.
Proof.
  unfold noSep. induction s as [| x s IH]; cbn; [reflexivity |].
  rewrite IH, andb_true_r.
  destruct (Ascii.eqb_spec x "/"%char) as [-> | Hne]; [reflexivity |].
  apply negb_true_iff. now apply Ascii.eqb_neq.
Qed.

Lemma truthy_cons (c : ascii) (s : string) : JS.truthy (String c s) = true.
Proof. reflexivity. Qed.

(** A doubled separator at the root is one separator. *)
Lemma normalize_double_root (s : string) :
  Path.normalize ("//" ++ s) = Path.normalize ("/" ++ s).
Proof.
  unfold Path.normalize.
  change (String.eqb ("//" ++ s) EmptyString) with false.
  change (String.eqb ("/" ++ s) EmptyString) with false.
  assert (Ha : JS.startsWith ("/" ++ s) "/" = true)
    by (unfold JS.startsWith; cbn; now destruct s).
  rewrite Ha. change (JS.startsWith ("//" ++ s) "/") with true. cbv zeta.
  change (JS.split Path.SEP ("//" ++ s))
    with (EmptyString :: EmptyString :: JS.split Path.SEP s).
  change (JS.split Path.SEP ("/" ++ s)) with (EmptyString :: JS.split Path.SEP s).
  unfold Path.normalizeSegments. cbn [fold_left].
  change (Path.normStep false [] EmptyString) with (@nil string).
  change (Path.endsWithSep ("//" ++ s)) with (Path.endsWithSep ("/" ++ s)).
  reflexivity.
Qed.

Lemma join_directory (segs : list string) (last : string) :
  forallb plain segs = true -> plain last = true ->
  Path.join [absolute segs; last] = absolute (segs ++ [last]).
Proof.
  intros Hsegs Hlast. unfold Path.join. cbn [filter].
  assert (Hne : JS.truthy last = true).
  { unfold plain in Hlast.
    repeat (apply andb_prop in Hlast; destruct Hlast as [Hlast ?]).
    unfold JS.truthy. assumption. }
  unfold absolute at 1. change ("/" ++ JS.join "/" segs) with (String "/" (JS.join "/" segs)).
  rewrite truthy_cons, Hne.
  destruct segs as [| s segs].
  - (* the parent is the root: the doubled separator collapses *)
    change (Path.normalize (JS.join "/" [absolute []; last]))
      with (Path.normalize ("//" ++ last)).
    rewrite normalize_double_root.
    apply (normalize_absolute [] last eq_refl Hlast).
  - rewrite <- (normalize_absolute (s :: segs) last Hsegs Hlast).
    f_equal. unfold absolute.
    rewrite join_snoc by discriminate. reflexivity.
Qed.

Example path_of_login : Git.computeWorktreePath "/work" "app" "feat/login" = "/work/app-feat-login".
Proof. reflexivity. Qed.

Example path_under_root : Git.computeWorktreePath "/" "app" "feat/login" = "/app-feat-login".
Proof. reflexivity. Qed.

Example path_trailing_separator :
  Git.computeWorktreePath "/work/" "app" "feat/login" = "/work/app-feat-login".
Proof. reflexivity. Qed.

(** C8. [computeWorktreePath] replaces every [/] of the
    branch name by a hyphen and hands the parent directory and
    [repoName-sanitizedBranch] to [path.join], which normalises the joined
    path. For a parent directory that is an absolute path of plain
    segments and a repository name without separator the result is that
    path with one more segment: [parentDir/repoName-sanitizedBranch] below
    a directory, and [/repoName-sanitizedBranch] below the root. *)
Theorem C8_computeWorktreePath_joined :
  forall (segs : list string) (repoName branch : string),
  forallb plain segs = true -> noSep repoName = true ->
  let safeBranch := JS.replaceAll "/"%char "-"%char branch in
  list_ascii_of_string safeBranch
  = map (fun c => if Ascii.eqb c "/"%char then "-"%char else c) (list_ascii_of_string branch)
  /\ noSep safeBranch = true
  /\ Git.computeWorktreePath (absolute segs) repoName branch
     = absolute (segs ++ [repoName ++ "-" ++ safeBranch])
  /\ (segs <> [] ->
      Git.computeWorktreePath (absolute segs) repoName branch
      = absolute segs ++ "/" ++ repoName ++ "-" ++ safeBranch)
  /\ Git.computeWorktreePath "/work" "app" "feat/login" = "/work/app-feat-login".
Proof.
  intros segs repoName branch Hsegs Hrepo safeBranch.
  assert (Hlast : plain (repoName ++ "-" ++ safeBranch) = true)
    by (apply plain_dashed; [exact Hrepo | apply sanitized_noSep]).
  split; [apply replaceAll_chars |].
  split; [apply sanitized_noSep |].
  assert (Hjoin : Git.computeWorktreePath (absolute segs) repoName branch
                  = absolute (segs ++ [repoName ++ "-" ++ safeBranch])).
  { unfold Git.computeWorktreePath. cbv zeta. fold safeBranch.
    now apply join_directory. }
  split; [exact Hjoin |].
  split; [| reflexivity].
  intros Hne. rewrite Hjoin. unfold absolute.
  rewrite join_snoc by exact Hne. reflexivity.
Qed.

Lemma C8_computeWorktreePath_joined_witness :
  Git.computeWorktreePath (absolute ["srv"; "work"]) "app" "feat/a/b"
  = absolute (["srv"; "work"] ++ ["app" ++ "-" ++ JS.replaceAll "/"%char "-"%char "feat/a/b"]).
Proof.
  assert (Hsegs : forallb plain ["srv"; "work"] = true) by reflexivity.
  assert (Hrepo : noSep "app" = true) by reflexivity.
  exact (proj1 (proj2 (proj2
           (C8_computeWorktreePath_joined ["srv"; "work"] "app" "feat/a/b" Hsegs Hrepo)))).
Defined.

(** C8, the literal template refuted: for a repository directly below the
    root the parent directory is [/], and the joined path has one
    separator, not the two of [parentDir/repoName-branch]. *)
Lemma C8_root_parent_is_normalised :
  Git.computeWorktreePath "/" "app" "feat/login" = "/app-feat-login"
  /\ Git.computeWorktreePath "/" "app" "feat/login"
     <> "/" ++ "/" ++ "app" ++ "-" ++ JS.replaceAll "/"%char "-"%char "feat/login".
Proof. split; [reflexivity | vm_compute; discriminate]. Qed.

(** * Further properties *)

(** ** The trace of a computation *)

Section EmitsFacts.
Context {H : Host} {L : Launcher H}.
Variable P : list string -> Prop.

Lemma emits_ret {A} (a : A) : Emits P (Run.ret a).
Proof.
  intros st r st'. unfold Run.ret. intros [= <- <-].
  exists []. now rewrite app_nil_r.
Qed.

Lemma emits_throw {A} (msg : string) : Emits P (@Run.throw H A msg).
Proof.
  intros st r st'. unfold Run.throw. intros [= <- <-].
  exists []. now rewrite app_nil_r.
Qed.

Lemma emits_bind {A B} (m : Run.M A) (k : A -> Run.M B) :
  Emits P m -> (forall a, Emits P (k a)) -> Emits P (Run.bind m k).
Proof.
  intros Hm Hk st r st'. unfold Run.bind.
  destruct (m st) as [[a | msg] st1] eqn:Hrun.
  - intros Hrest.
    destruct (Hm _ _ _ Hrun) as (new1 & Hc1 & Hp1).
    destruct (Hk a _ _ _ Hrest) as (new2 & Hc2 & Hp2).
    exists (new1 ++ new2)%list. split.
    + now rewrite Hc2, Hc1, app_assoc.
    + apply Forall_app. now split.
  - intros [= <- <-]. apply (Hm _ _ _ Hrun).
Qed.

Lemma emits_tryCatch {A} (m : Run.M A) (h : string -> Run.M A) :
  Emits P m -> (forall msg, Emits P (h msg)) -> Emits P (Run.tryCatch m h).
Proof.
  intros Hm Hh st r st'. unfold Run.tryCatch.
  destruct (m st) as [[a | msg] st1] eqn:Hrun.
  - intros [= <- <-]. apply (Hm _ _ _ Hrun).
  - intros Hrest.
    destruct (Hm _ _ _ Hrun) as (new1 & Hc1 & Hp1).
    destruct (Hh msg _ _ _ Hrest) as (new2 & Hc2 & Hp2).
    exists (new1 ++ new2)%list. split.
    + now rewrite Hc2, Hc1, app_assoc.
    + apply Forall_app. now split.
Qed.

Lemma emits_spawn (argv : list string) (cwd : option string) :
  P argv -> Emits P (Run.spawn argv cwd).
Proof.
  intros Hp st r st'. rewrite spawn_on.
  destruct (startError argv cwd (Run.world st)); intros [= <- <-].
  - exists []. now rewrite app_nil_r.
  - eexists [_]. split; [reflexivity |]. constructor; [exact Hp | constructor].
Qed.

Lemma emits_whichM (tool : string) : Emits P (Run.whichM tool).
Proof.
  intros st r st'. unfold Run.whichM. intros [= <- <-].
  exists []. now rewrite app_nil_r.
Qed.

Lemma emits_exec (args : list string) (cwd : option string) :
  P ("git" :: args) -> Emits P (Git.exec args cwd).
Proof.
  intros Hp. unfold Git.exec. apply emits_bind; [now apply emits_spawn |].
  intros result. destruct (negb _); [apply emits_throw | apply emits_ret].
Qed.


End EmitsFacts.

(** ** What makes a computation raise *)

Section RaisesFacts.
Context {H : Host} {L : Launcher H}.
Variable P : list string -> Prop.

Lemma raises_ret {A} (a : A) : RaisesUnstarted P (Run.ret a).
Proof. intros st msg st'. unfold Run.ret. discriminate. Qed.

Lemma raises_bind {A B} (m : Run.M A) (k : A -> Run.M B) :
  RaisesUnstarted P m -> (forall a, RaisesUnstarted P (k a)) ->
  RaisesUnstarted P (Run.bind m k).
Proof.
  intros Hm Hk st msg st'. unfold Run.bind.
  destruct (m st) as [[a | msg1] st1] eqn:Hrun.
  - apply Hk.
  - intros [= <- <-]. now apply (Hm st).
Qed.

(** A handler that does not raise makes the whole [try] safe. *)
Lemma raises_tryCatch {A} (m : Run.M A) (h : string -> Run.M A) :
  (forall msg, RaisesUnstarted P (h msg)) -> RaisesUnstarted P (Run.tryCatch m h).
Proof.
  intros Hh st msg st'. unfold Run.tryCatch.
  destruct (m st) as [[a | msg1] st1]; [discriminate | apply Hh].
Qed.

Lemma raises_spawn (argv : list string) (cwd : option string) :
  P argv -> RaisesUnstarted P (Run.spawn argv cwd).
Proof.
  intros Hp st msg st'. rewrite spawn_on.
  destruct (startError argv cwd (Run.world st)) as [msg1 |] eqn:Hstart;
    [| discriminate].
  intros [= <- <-]. now exists argv, cwd.
Qed.

Lemma raises_whichM (tool : string) : RaisesUnstarted P (Run.whichM tool).
Proof. intros st msg st'. unfold Run.whichM. discriminate. Qed.

End RaisesFacts.

(** [exec] on any machine: the child does not start, or it runs and its
    exit code decides. *)
Lemma exec_on {H : Host} {L : Launcher H} (args : list string) (cwd : option string)
  (st : Run.St) :
  Git.exec args cwd st
  = match startError ("git" :: args) cwd (Run.world st) with
    | Some msg => (Throw msg, st)
    | None =>
        (let result := fst (spawnSync ("git" :: args) cwd (Run.world st)) in
         if (exitCode result =? 0)%Z then Ok (JS.trim (stdout result))
         else Throw (Git.execError args result),
         after ("git" :: args) cwd st)
    end.
Proof.
  unfold Git.exec, Run.bind. rewrite spawn_on.
  destruct (startError ("git" :: args) cwd (Run.world st)); [reflexivity |].
  cbv zeta.
  destruct (exitCode (fst (spawnSync ("git" :: args) cwd (Run.world st))) =? 0)%Z;
    reflexivity.
Qed.

Lemma oldExec_on {H : Host} {L : Launcher H} (args : list string) (cwd : option string)
  (st : Run.St) :
  OldGit.exec args cwd st
  = match startError ("git" :: args) cwd (Run.world st) with
    | Some msg => (Throw msg, st)
    | None =>
        (let result := fst (spawnSync ("git" :: args) cwd (Run.world st)) in
         if (exitCode result =? 0)%Z then Ok (JS.trim (stdout result))
         else Throw (OldGit.execError args result),
         after ("git" :: args) cwd st)
    end.
Proof.
  unfold OldGit.exec, Run.bind. rewrite spawn_on.
  destruct (startError ("git" :: args) cwd (Run.world st)); [reflexivity |].
  cbv zeta.
  destruct (exitCode (fst (spawnSync ("git" :: args) cwd (Run.world st))) =? 0)%Z;
    reflexivity.
Qed.

(** ** [exec] *)

Lemma trimEnd_idempotent (s : string) : JS.trimEnd (JS.trimEnd s) = JS.trimEnd s.
Proof.
  induction s as [| c s IH]; [reflexivity |].
  cbn [JS.trimEnd]. destruct (JS.trimEnd s) as [| c' t] eqn:Ht.
  - destruct (JS.isWhiteSpace c) eqn:Hc; [reflexivity |].
    cbn. now rewrite Hc.
  - cbn [JS.trimEnd]. cbn [JS.trimEnd] in IH. now rewrite IH.
Qed.

Lemma trimStart_clean (s : string) : startsClean (JS.trimStart s).
Proof.
  induction s as [| c s IH]; cbn; [exact I |].
  destruct (JS.isWhiteSpace c) eqn:Hc; [exact IH | exact Hc].
Qed.

Lemma trimStart_of_clean (s : string) : startsClean s -> JS.trimStart s = s.
Proof. destruct s as [| c s]; cbn; [reflexivity |]. now intros ->. Qed.

Lemma trimEnd_clean (s : string) : startsClean s -> startsClean (JS.trimEnd s).
Proof.
  destruct s as [| c s]; cbn; [auto |]. intros Hc.
  destruct (JS.trimEnd s); [now rewrite Hc |]; exact Hc.
Qed.

Lemma trim_idempotent (s : string) : JS.trim (JS.trim s) = JS.trim s.
Proof.
  unfold JS.trim.
  rewrite (trimStart_of_clean (JS.trimEnd (JS.trimStart s))).
  - apply trimEnd_idempotent.
  - apply trimEnd_clean, trimStart_clean.
Qed.

Lemma execError_nonempty (args : list string) (result : SpawnResult) :
  Git.execError args result <> EmptyString.
Proof.
  unfold Git.execError. cbv zeta.
  destruct (JS.truthy (JS.trim (stderr result))) eqn:Ht.
  - now apply truthy_true.
  - discriminate.
Qed.

(** X1. [exec] runs at most one command, [git] followed by its arguments.
    When the child cannot be started it raises the error of the runtime
    and nothing has run. When the child runs, [exec] raises exactly when
    the exit code is not zero, and then with a message that is not empty;
    otherwise it returns the standard output trimmed, so trimming it again
    changes nothing. *)
Theorem X1_exec_outcome :
  forall (H : Host) (L : Launcher H) (args : list string) (cwd : option string)
         (st : Run.St),
  let result := fst (spawnSync ("git" :: args) cwd (Run.world st)) in
  (forall msg, startError ("git" :: args) cwd (Run.world st) = Some msg ->
     Git.exec args cwd st = (Throw msg, st))
  /\ (startError ("git" :: args) cwd (Run.world st) = None ->
      exists r,
        Git.exec args cwd st = (r, after ("git" :: args) cwd st)
        /\ (exitCode result = 0%Z ->
            r = Ok (JS.trim (stdout result))
            /\ forall out, r = Ok out -> JS.trim out = out)
        /\ (exitCode result <> 0%Z ->
            exists msg, r = Throw msg /\ msg <> EmptyString)).
Proof.
  intros H L args cwd st. cbv zeta. rewrite exec_on. split.
  { now intros msg ->. }
  intros ->. cbv zeta.
  destruct (Z.eqb_spec (exitCode (fst (spawnSync ("git" :: args) cwd (Run.world st)))) 0)
    as [Hz | Hnz].
  - eexists. split; [reflexivity |]. split; [| contradiction].
    intros _. split; [reflexivity |].
    intros out [= <-]. apply trim_idempotent.
  - eexists. split; [reflexivity |]. split; [contradiction |].
    intros _. eexists. split; [reflexivity | apply execError_nonempty].
Qed.

Lemma X1_exec_outcome_witness :
  (exists msg,
     fst (Git.exec (H := Fixture.host) (L := Fixture.noSuchDirectory "/nonexistent/dir")
            ["rev-parse"; "--verify"; "refs/heads/none"]
            (Some "/work/app") (Fixture.start (Fixture.mkRecorded [] ["git"])))
     = Throw msg
     /\ msg <> EmptyString)
  /\ Git.exec (H := Fixture.host) (L := Fixture.noSuchDirectory "/nonexistent/dir")
       ["status"] (Some "/nonexistent/dir")
       (Fixture.start (Fixture.mkRecorded [] ["git"]))
     = (Throw Fixture.enoent, Fixture.start (Fixture.mkRecorded [] ["git"])).
Proof.
  split.
  - destruct (proj2 (X1_exec_outcome Fixture.host
                       (Fixture.noSuchDirectory "/nonexistent/dir")
                       ["rev-parse"; "--verify"; "refs/heads/none"]
                       (Some "/work/app") (Fixture.start (Fixture.mkRecorded [] ["git"])))
                    eq_refl)
      as (r & Hrun & _ & Hfail).
    destruct Hfail as (msg & Hr & Hmsg); [vm_compute; discriminate |].
    exists msg. split; [| exact Hmsg].
    rewrite Hrun. exact Hr.
  - apply (proj1 (X1_exec_outcome Fixture.host
                    (Fixture.noSuchDirectory "/nonexistent/dir")
                    ["status"] (Some "/nonexistent/dir")
                    (Fixture.start (Fixture.mkRecorded [] ["git"])))).
    reflexivity.
Defined.

(** ** [detectDefaultBranch] *)

Lemma replace_unfold (pat rep s : string) :
  JS.replace pat rep s
  = if String.prefix pat s then rep ++ JS.slice (String.length pat) s
    else match s with
         | EmptyString => EmptyString
         | String c s' => String c (JS.replace pat rep s')
         end.
Proof. destruct s; reflexivity. Qed.

(** Replacing a prefix by nothing strips it. *)
Lemma replace_prefix (pat s : string) : JS.replace pat EmptyString (pat ++ s) = s.
Proof.
  rewrite replace_unfold.
  pose proof (startsWith_app pat s) as Hp. unfold JS.startsWith in Hp.
  rewrite Hp. cbn. apply slice_app.
Qed.

Lemma detected_nonempty {H : Host} (root : string) (st st' : Run.St) (n : nat)
  (d : string) :
  Detected root st n (Ok d) st' -> 1 < n -> d <> EmptyString.
Proof.
  intros Hd Hn. inversion Hd; subst; try discriminate; try lia; assumption.
Qed.

Lemma detected_first {H : Host} (root : string) (st st' st1 : Run.St) (n : nat)
  (r : Res string) (m : string) :
  Detected root st n r st' ->
  Git.exec Probe.remoteHead (Some root) st = (Throw m, st1) -> 1 < n.
Proof.
  intros Hd Hfail. inversion Hd; subst; try lia. congruence.
Qed.

(** X2. When the remote's default-branch pointer reads
    [refs/remotes/origin/NAME], the default branch is [NAME] and no other
    command is run. When the pointer cannot be read, whatever default
    branch is returned is not empty. In every case the commands run are
    the first few of the four probes, in their order. *)
Theorem X2_detectDefaultBranch_result :
  forall (H : Host) (root : string) (st : Run.St),
  (forall (b : string) (st1 : Run.St),
     Git.exec Probe.remoteHead (Some root) st = (Ok ("refs/remotes/origin/" ++ b), st1) ->
     Git.detectDefaultBranch root st = (Ok b, st1))
  /\ (forall (m d : string) (st1 st' : Run.St),
        Git.exec Probe.remoteHead (Some root) st = (Throw m, st1) ->
        Git.detectDefaultBranch root st = (Ok d, st') ->
        d <> EmptyString)
  /\ (exists n, n <= 4
        /\ map call_argv (Run.calls (snd (Git.detectDefaultBranch root st)))
           = (map call_argv (Run.calls st) ++ firstn n Probe.order)%list).
Proof.
  intros H root st.
  destruct (detectDefaultBranch_ladder H root st) as (n & Hd & Htrace).
  split; [| split].
  - intros b st1 Hrun. unfold Git.detectDefaultBranch.
    erewrite tryCatch_ok; [reflexivity |].
    fold Probe.remoteHead. rewrite (bind_ok _ _ _ _ _ Hrun).
    unfold Run.ret. now rewrite replace_prefix.
  - intros m d st1 st' Hfail Hrun. rewrite Hrun in Hd. cbn [fst snd] in Hd.
    apply (detected_nonempty root st st' n d Hd).
    eapply detected_first; eassumption.
  - exists n. split; [| exact Htrace].
    inversion Hd; lia.
Qed.

Lemma X2_detectDefaultBranch_result_witness :
  Git.detectDefaultBranch (H := Fixture.host) "/work/app"
    (Fixture.start (Fixture.mkRecorded
       [(["git"; "symbolic-ref"; "refs/remotes/origin/HEAD"],
         Fixture.ok "refs/remotes/origin/trunk")] ["git"]))
  = (Ok "trunk",
     snd (Git.exec (H := Fixture.host) Probe.remoteHead (Some "/work/app")
            (Fixture.start (Fixture.mkRecorded
               [(["git"; "symbolic-ref"; "refs/remotes/origin/HEAD"],
                 Fixture.ok "refs/remotes/origin/trunk")] ["git"])))).
Proof.
  apply (proj1 (X2_detectDefaultBranch_result Fixture.host "/work/app"
                  (Fixture.start (Fixture.mkRecorded
                     [(["git"; "symbolic-ref"; "refs/remotes/origin/HEAD"],
                       Fixture.ok "refs/remotes/origin/trunk")] ["git"]))) "trunk").
  vm_compute. reflexivity.
Defined.

(** ** [isBranchMerged] *)

(** [trim] keeps a first character that is not white space. *)
Lemma trim_keeps_first (c : ascii) (s : string) :
  JS.isWhiteSpace c = false -> exists t, JS.trim (String c s) = String c t.
Proof.
  intros Hc. unfold JS.trim. cbn [JS.trimStart]. rewrite Hc.
  cbn [JS.trimEnd]. destruct (JS.trimEnd s); [rewrite Hc |]; eauto.
Qed.

Lemma startsWith_first (c d : ascii) (rest : string) :
  JS.startsWith (String c rest) (String d EmptyString) = true -> d = c.
Proof.
  unfold JS.startsWith.
  change (String.prefix (String d EmptyString) (String c rest))
    with (if ascii_dec d c then String.prefix EmptyString rest else false).
  destruct (ascii_dec d c); [auto | discriminate].
Qed.

Lemma existsb_false {A} (f : A -> bool) (l : list A) :
  (forall x, In x l -> f x = false) -> existsb f l = false.
Proof.
  induction l as [| x l IH]; intros Hall; cbn; [reflexivity |].
  rewrite (Hall x (or_introl eq_refl)). apply IH.
  intros y Hy. apply Hall. now right.
Qed.

(** X3. [isBranchMerged] never raises and runs one command. It answers
    true exactly when that command succeeds and one of its output lines,
    trimmed, is the branch name. A line that starts with the mark [+] or
    [*], which git puts in front of a branch that is checked out, matches
    no branch whose name does not start with that mark. *)
Theorem X3_isBranchMerged_exact :
  forall (H : Host) (root branch into : string) (st : Run.St),
  let result := fst (spawnSync ["git"; "branch"; "--merged"; into] (Some root)
                               (Run.world st)) in
  (exists answer,
     Git.isBranchMerged root branch into st
     = (Ok answer, after ["git"; "branch"; "--merged"; into] (Some root) st)
     /\ (answer = true <->
         exitCode result = 0%Z
         /\ exists line, In line (JS.lines (JS.trim (stdout result)))
                         /\ JS.trim line = branch))
  /\ ((forall line, In line (JS.lines (JS.trim (stdout result))) ->
         JS.startsWith line "+" = true \/ JS.startsWith line "*" = true) ->
      JS.startsWith branch "+" = false -> JS.startsWith branch "*" = false ->
      fst (Git.isBranchMerged root branch into st) = Ok false).
Proof.
  intros H root branch into st. cbv zeta.
  rewrite isBranchMerged_run. unfold mergedIn. cbv zeta.
  set (result := fst (spawnSync ["git"; "branch"; "--merged"; into] (Some root)
                                (Run.world st))).
  split.
  - eexists. split; [reflexivity |].
    destruct (Z.eqb_spec (exitCode result) 0) as [Hz | Hnz].
    + rewrite existsb_exists. split.
      * intros (line & Hin & Heq). apply String.eqb_eq in Heq. eauto.
      * intros (_ & line & Hin & Heq). exists line. split; [exact Hin |].
        now apply String.eqb_eq.
    + split; [discriminate | tauto].
  - intros Hmarks Hplus Hstar. cbn [fst]. f_equal.
    destruct (exitCode result =? 0)%Z; [| reflexivity].
    apply existsb_false. intros line Hin.
    apply String.eqb_neq. intros Heq.
    destruct line as [| c rest].
    { destruct (Hmarks _ Hin) as [Hm | Hm]; discriminate. }
    assert (Hc : c = "+"%char \/ c = "*"%char).
    { destruct (Hmarks _ Hin) as [Hm | Hm]; apply startsWith_first in Hm; auto. }
    assert (Hws : JS.isWhiteSpace c = false) by (destruct Hc; subst c; reflexivity).
    destruct (trim_keeps_first c rest Hws) as (t & Ht).
    rewrite Ht in Heq. subst branch.
    destruct Hc; subst c.
    + pose proof (startsWith_app "+" t) as Hp. cbn [String.append] in Hp. congruence.
    + pose proof (startsWith_app "*" t) as Hp. cbn [String.append] in Hp. congruence.
Qed.

Lemma X3_isBranchMerged_exact_witness :
  fst (Git.isBranchMerged (H := Fixture.host) "/work/app" "feat/login" "main"
         (Fixture.start (Fixture.mkRecorded
            [(["git"; "branch"; "--merged"; "main"],
              Fixture.ok (Fixture.text ["+ feat/login"; "* main"]))] ["git"])))
  = Ok false.
Proof.
  apply (proj2 (X3_isBranchMerged_exact Fixture.host "/work/app" "feat/login" "main"
                  (Fixture.start (Fixture.mkRecorded
                     [(["git"; "branch"; "--merged"; "main"],
                       Fixture.ok (Fixture.text ["+ feat/login"; "* main"]))] ["git"])))).
  - intros line Hin. vm_compute in Hin.
    destruct Hin as [<- | [<- | []]]; vm_compute; auto.
  - reflexivity.
  - reflexivity.
Defined.

(** ** [path.basename] and [path.dirname] *)

Lemma chars_app (a b : string) :
  list_ascii_of_string (a ++ b)
  = (list_ascii_of_string a ++ list_ascii_of_string b)%list.
Proof. induction a as [| c a IH]; cbn; [reflexivity | now rewrite IH]. Qed.

Lemma lacks_chars (c : ascii) (s : string) :
  lacks c s = true ->
  Forall (fun x => Ascii.eqb x c = false) (list_ascii_of_string s).
Proof.
  induction s as [| x s IH]; cbn; [constructor |].
  intros Hs. apply andb_prop in Hs. destruct Hs as [Hx Hs].
  constructor; [now apply negb_true_iff | now apply IH].
Qed.

Lemma dropSeps_name (name rest : list ascii) :
  name <> [] -> Forall (fun x => Ascii.eqb x Path.SEP = false) name ->
  Path.dropSeps (name ++ rest) = (name ++ rest)%list.
Proof.
  destruct name as [| c name]; [congruence |]. intros _ Hall.
  inversion Hall as [| ? ? Hc _]; subst. cbn. now rewrite Hc.
Qed.

Lemma takeName_name (name rest : list ascii) :
  Forall (fun x => Ascii.eqb x Path.SEP = false) name ->
  Path.takeName (name ++ Path.SEP :: rest) = name.
Proof.
  induction 1 as [| c name Hc _ IH]; cbn.
  - reflexivity.
  - now rewrite Hc, IH.
Qed.

Lemma dropName_name (name rest : list ascii) :
  Forall (fun x => Ascii.eqb x Path.SEP = false) name ->
  Path.dropName (name ++ Path.SEP :: rest) = Path.SEP :: rest.
Proof.
  induction 1 as [| c name Hc _ IH]; cbn.
  - reflexivity.
  - now rewrite Hc.
Qed.

Lemma dropName_only (name : list ascii) :
  Forall (fun x => Ascii.eqb x Path.SEP = false) name -> Path.dropName name = [].
Proof. induction 1 as [| c name Hc _ IH]; cbn; [reflexivity | now rewrite Hc]. Qed.

Lemma plain_chars (seg : string) :
  plain seg = true ->
  list_ascii_of_string seg <> []
  /\ Forall (fun x => Ascii.eqb x Path.SEP = false) (list_ascii_of_string seg).
Proof.
  intros Hp. split.
  - unfold plain in Hp.
    repeat (apply andb_prop in Hp; destruct Hp as [Hp ?]).
    destruct seg; [discriminate | discriminate].
  - apply lacks_chars. now apply plain_noSep.
Qed.

Lemma rev_nonempty {A} (l : list A) : l <> [] -> rev l <> [].
Proof.
  destruct l as [| x l]; [congruence |]. cbn. intros _ Hnil.
  apply app_eq_nil in Hnil. destruct Hnil; discriminate.
Qed.

(** The name after the last separator is the base name. *)
Lemma basename_last (pre last : string) :
  plain last = true -> Path.basename (pre ++ "/" ++ last) = last.
Proof.
  intros Hp. destruct (plain_chars last Hp) as [Hne Hall].
  unfold Path.basename. rewrite !chars_app. cbn [list_ascii_of_string app].
  rewrite rev_app_distr. cbn [rev]. rewrite <- app_assoc. cbn [app].
  rewrite dropSeps_name;
    [| now apply rev_nonempty | now apply Forall_rev].
  rewrite takeName_name by now apply Forall_rev.
  rewrite rev_involutive. apply string_of_list_ascii_of_string.
Qed.

(** Below a directory, the directory is what is in front of the last
    separator; below the root it is the root. *)
Lemma dirname_last (c : ascii) (pre last : string) :
  pre <> EmptyString -> plain last = true ->
  Path.dirname (String c pre ++ "/" ++ last) = String c pre.
Proof.
  intros Hpre Hp. destruct (plain_chars last Hp) as [Hne Hall].
  unfold Path.dirname. cbn [String.append list_ascii_of_string].
  rewrite !chars_app. cbn [list_ascii_of_string app].
  rewrite rev_app_distr. cbn [rev]. rewrite <- app_assoc. cbn [app].
  rewrite dropSeps_name;
    [| now apply rev_nonempty | now apply Forall_rev].
  rewrite dropName_name by now apply Forall_rev.
  destruct (rev (list_ascii_of_string pre)) as [| x before] eqn:Hrev.
  - exfalso. apply Hpre.
    apply (f_equal (@rev ascii)) in Hrev. rewrite rev_involutive in Hrev. cbn in Hrev.
    rewrite <- (string_of_list_ascii_of_string pre), Hrev. reflexivity.
  - rewrite <- Hrev, rev_involutive. cbn [string_of_list_ascii].
    now rewrite string_of_list_ascii_of_string.
Qed.

Lemma dirname_root (last : string) :
  plain last = true -> Path.dirname ("/" ++ last) = "/".
Proof.
  intros Hp. destruct (plain_chars last Hp) as [Hne Hall].
  unfold Path.dirname. cbn [String.append list_ascii_of_string].
  rewrite <- (app_nil_r (rev (list_ascii_of_string last))).
  rewrite dropSeps_name;
    [| now apply rev_nonempty | now apply Forall_rev].
  rewrite app_nil_r, dropName_only by now apply Forall_rev.
  reflexivity.
Qed.

Lemma join_nonempty (segs : list string) :
  segs <> [] -> forallb plain segs = true -> JS.join "/" segs <> EmptyString.
Proof.
  destruct segs as [| s segs]; [congruence |]. intros _ Hall.
  cbn [forallb] in Hall. apply andb_prop in Hall. destruct Hall as [Hs _].
  destruct (plain_chars s Hs) as [Hne _].
  destruct s as [| c s]; [now cbn in Hne |].
  destruct segs; discriminate.
Qed.

Lemma absolute_snoc (segs : list string) (last : string) :
  segs <> [] -> absolute (segs ++ [last]) = absolute segs ++ "/" ++ last.
Proof.
  intros Hne. unfold absolute. rewrite join_snoc by exact Hne. reflexivity.
Qed.

Lemma basename_absolute (segs : list string) (last : string) :
  plain last = true -> Path.basename (absolute (segs ++ [last])) = last.
Proof.
  intros Hp. destruct segs as [| s segs].
  - apply (basename_last EmptyString last Hp).
  - rewrite absolute_snoc by discriminate. now apply basename_last.
Qed.

Lemma dirname_absolute (segs : list string) (last : string) :
  forallb plain segs = true -> plain last = true ->
  Path.dirname (absolute (segs ++ [last])) = absolute segs.
Proof.
  intros Hsegs Hp. destruct segs as [| s segs].
  - apply (dirname_root last Hp).
  - rewrite absolute_snoc by discriminate.
    apply (dirname_last "/"%char (JS.join "/" (s :: segs)) last); [| exact Hp].
    apply join_nonempty; [discriminate | exact Hsegs].
Qed.

Example basename_demo : Path.basename "/work/app/" = "app".
Proof. reflexivity. Qed.

Example dirname_demo : Path.dirname "/a//b" = "/a/".
Proof. reflexivity. Qed.

Example dirname_relative : Path.dirname "app" = ".".
Proof. reflexivity. Qed.

(** ** [getRepoInfo] *)

Section RepoInfoFacts.
Context {H : Host}.

Lemma exec_ok_trimmed (args : list string) (cwd : option string) (st st' : Run.St)
  (out : string) :
  Git.exec args cwd st = (Ok out, st') -> JS.trim out = out.
Proof.
  rewrite exec_run. cbv zeta. destruct (exitCode _ =? 0)%Z; [| discriminate].
  intros [= <- _]. apply trim_idempotent.
Qed.

(** The default branch, when listed, heads the enumeration. *)
Lemma listBranchesOf_default_first (raw defaultBranch : string) :
  In defaultBranch (map name (Git.listBranchesOf raw defaultBranch)) ->
  exists first others,
    Git.listBranchesOf raw defaultBranch = first :: others
    /\ name first = defaultBranch.
Proof.
  intros Hin.
  pose proof (listBranchesOf_sorted defaultBranch raw) as Hsorted.
  destruct (Git.listBranchesOf raw defaultBranch) as [| first others]; [destruct Hin |].
  exists first, others. split; [reflexivity |].
  apply StronglySorted_inv in Hsorted. destruct Hsorted as [_ Hfirst].
  destruct Hin as [Heq | Hin]; [exact Heq |].
  apply in_map_iff in Hin. destruct Hin as (e & He & Hin).
  rewrite Forall_forall in Hfirst. specialize (Hfirst e Hin).
  unfold before, Git.branchOrder in Hfirst.
  destruct (String.eqb_spec (name first) defaultBranch) as [Heq | _]; [exact Heq |].
  rewrite He, String.eqb_refl in Hfirst. lia.
Qed.

(** What a successful [getRepoInfo] went through. *)
Lemma getRepoInfo_ok (st st' : Run.St) (info : RepoInfo) :
  Git.getRepoInfo st = (Ok info, st') ->
  let st1 := after ["git"; "rev-parse"; "--show-toplevel"] None st in
  let remote := fst (spawnSync ["git"; "remote"; "get-url"; "origin"] (Some (root info))
                               (Run.world st1)) in
  JS.trim (root info) = root info
  /\ repoName info = Path.basename (root info)
  /\ parentDir info = Path.dirname (root info)
  /\ remoteUrl info = (if (exitCode remote =? 0)%Z then Some (JS.trim (stdout remote))
                       else None)
  /\ exists raw, branches info = Git.listBranchesOf raw (defaultBranch info).
Proof.
  unfold Git.getRepoInfo. unfold Run.bind at 1.
  destruct (Git.exec ["rev-parse"; "--show-toplevel"] None st) as [[top | m] st1] eqn:Htop;
    [| discriminate].
  pose proof (exec_ok_trimmed _ _ _ _ _ Htop) as Htrim.
  rewrite exec_run in Htop. injection Htop as _ <-.
  unfold Run.bind at 1, Run.tryCatch at 1, Run.bind at 1.
  rewrite exec_run. cbv zeta.
  set (st1 := after ["git"; "rev-parse"; "--show-toplevel"] None st).
  set (remote := fst (spawnSync ["git"; "remote"; "get-url"; "origin"] (Some top)
                                (Run.world st1))).
  set (st2 := after ["git"; "remote"; "get-url"; "origin"] (Some top) st1).
  assert (Hremote :
    (let (r, s) :=
       match (if (exitCode remote =? 0)%Z then Ok (JS.trim (stdout remote))
              else Throw (Git.execError ["remote"; "get-url"; "origin"] remote))
       with
       | Ok a => Run.ret (Some a) st2
       | Throw msg => (Throw msg, st2)
       end in
     match r with
     | Ok a => (Ok a, s)
     | Throw msg => Run.ret None s
     end)
    = (Ok (if (exitCode remote =? 0)%Z then Some (JS.trim (stdout remote)) else None),
       st2)).
  { destruct (exitCode remote =? 0)%Z; reflexivity. }
  rewrite Hremote. clear Hremote.
  unfold Run.bind at 1.
  destruct (Git.detectDefaultBranch top st2) as [[d | m] st3]; [| discriminate].
  unfold Run.bind at 1.
  destruct (Git.listBranches top d st3) as [[bs | m] st4] eqn:Hlist; [| discriminate].
  unfold Run.ret. intros [= <- <-]. cbn [root repoName parentDir remoteUrl branches
                                          defaultBranch].
  repeat split; try reflexivity; try assumption.
  exists (branchListing top st3). eapply listBranches_run; eassumption.
Qed.

End RepoInfoFacts.

Example getRepoInfo_repo : fst (Git.getRepoInfo (H := Fixture.host) Repo.st) = Ok Repo.info.
Proof. vm_compute. reflexivity. Qed.

Section InfoCommands.
Context {H : Host} {L : Launcher H}.

Lemma emits_detectDefaultBranch (r : string) :
  Emits isInfoCommand (Git.detectDefaultBranch r).
Proof.
  assert (Hprobe : forall args, In ("git" :: args) Probe.order ->
                                isInfoCommand ("git" :: args)).
  { intros args Hin. unfold isInfoCommand. auto. }
  unfold Git.detectDefaultBranch.
  apply emits_tryCatch;
    [apply emits_bind; [apply emits_exec, Hprobe; cbn; auto | intros; apply emits_ret] |].
  intros _. apply emits_tryCatch;
    [apply emits_bind; [apply emits_exec, Hprobe; cbn; auto | intros; apply emits_ret] |].
  intros _. apply emits_tryCatch;
    [apply emits_bind; [apply emits_exec, Hprobe; cbn; auto | intros; apply emits_ret] |].
  intros _. apply emits_bind; [apply emits_exec, Hprobe; cbn; auto 6 |].
  intros; apply emits_ret.
Qed.

Lemma emits_getRepoInfo : Emits isInfoCommand Git.getRepoInfo.
Proof.
  unfold Git.getRepoInfo.
  apply emits_bind; [apply emits_exec; unfold isInfoCommand; auto |]. intros top.
  cbv zeta. apply emits_bind.
  { apply emits_tryCatch; [| intros; apply emits_ret].
    apply emits_bind; [apply emits_exec; unfold isInfoCommand; auto |].
    intros; apply emits_ret. }
  intros url. apply emits_bind; [apply emits_detectDefaultBranch |]. intros d.
  apply emits_bind; [| intros; apply emits_ret].
  unfold Git.listBranches. apply emits_bind; [| intros; apply emits_ret].
  apply emits_exec. unfold isInfoCommand. auto.
Qed.

End InfoCommands.

Lemma infoCommand_harmless (argv : list string) :
  isInfoCommand argv -> isDestructive argv = false.
Proof.
  intros [-> | [-> | [Hin | ->]]]; try reflexivity.
  cbn in Hin. destruct Hin as [<- | [<- | [<- | [<- | []]]]]; reflexivity.
Qed.

Section Failures.
Context {H : Host} {L : Launcher H}.

Lemma exec_fails (args : list string) (cwd : option string) (st st' : Run.St)
  (msg : string) :
  Git.exec args cwd st = (Throw msg, st') ->
  (startError ("git" :: args) cwd (Run.world st') = Some msg /\ st' = st)
  \/ exists result,
       Run.calls st' = (Run.calls st ++ [mkCall ("git" :: args) cwd result])%list
       /\ exitCode result <> 0%Z
       /\ msg = Git.execError args result.
Proof.
  rewrite exec_on.
  destruct (startError ("git" :: args) cwd (Run.world st)) as [m |] eqn:Hstart.
  - intros [= <- <-]. now left.
  - cbv zeta.
    destruct (Z.eqb_spec (exitCode (fst (spawnSync ("git" :: args) cwd (Run.world st)))) 0)
      as [Hz | Hnz]; [discriminate |].
    intros [= <- <-]. right. eexists. split; [reflexivity |]. now split.
Qed.

Lemma exec_extends (args : list string) (cwd : option string) (st st' : Run.St)
  (r : Res string) :
  Git.exec args cwd st = (r, st') -> exists new, Run.calls st' = (Run.calls st ++ new)%list.
Proof.
  intros Hrun.
  destruct (emits_exec (fun _ => True) args cwd I st r st' Hrun) as (new & Hcalls & _).
  now exists new.
Qed.

(** A probe inside [try]: when the whole raises, the probe failed and the
    handler raised. *)
Lemma probe_throw {A} (args : list string) (cwd : option string) (f : string -> A)
  (h : string -> Run.M A) (st st' : Run.St) (msg : string) :
  Run.tryCatch (Run.bind (Git.exec args cwd) (fun out => Run.ret (f out))) h st
  = (Throw msg, st') ->
  exists m1 st1 new,
    Run.calls st1 = (Run.calls st ++ new)%list /\ h m1 st1 = (Throw msg, st').
Proof.
  unfold Run.tryCatch, Run.bind.
  destruct (Git.exec args cwd st) as [[out | m1] st1] eqn:Hexec.
  - unfold Run.ret. discriminate.
  - intros Hh. destruct (exec_extends _ _ _ _ _ Hexec) as (new & Hnew).
    now exists m1, st1, new.
Qed.

Lemma detectDefaultBranch_fails (r : string) (st st' : Run.St) (msg : string) :
  Git.detectDefaultBranch r st = (Throw msg, st') ->
  exists st3 earlier,
    Run.calls st3 = (Run.calls st ++ earlier)%list
    /\ Git.exec Probe.currentBranch (Some r) st3 = (Throw msg, st').
Proof.
  unfold Git.detectDefaultBranch. intros Hrun.
  apply probe_throw in Hrun. destruct Hrun as (m1 & st1 & new1 & Hc1 & Hrun).
  apply (probe_throw _ _ (fun _ => "main")) in Hrun.
  destruct Hrun as (m2 & st2 & new2 & Hc2 & Hrun).
  apply (probe_throw _ _ (fun _ => "master")) in Hrun.
  destruct Hrun as (m3 & st3 & new3 & Hc3 & Hrun).
  exists st3, (new1 ++ new2 ++ new3)%list. split.
  - rewrite Hc3, Hc2, Hc1, <- !app_assoc. reflexivity.
  - cbv beta in Hrun. unfold Run.bind, Run.ret in Hrun.
    fold Probe.currentBranch in Hrun.
    destruct (Git.exec Probe.currentBranch (Some r) st3) as [[out | m4] st4];
      [discriminate Hrun | exact Hrun].
Qed.

End Failures.

(** X4. [getRepoInfo] fails only on one of three commands:
    [rev-parse --show-toplevel] (not inside a repository),
    [branch --show-current] (the last probe for the default branch) and
    [branch -a] (the branch listing). Either that command could not be
    started, and the error is the runtime's, or it is the last command
    that ran, it ended with an exit code other than zero, and the error is
    the one [exec] makes of its result. A repository without remote, or
    without [main] and [master], does not make it fail: the commands that
    ask for them are never the one it fails on. *)
Theorem X4_getRepoInfo_failures :
  forall (H : Host) (L : Launcher H) (st st' : Run.St) (msg : string),
  Git.getRepoInfo st = (Throw msg, st') ->
  exists args cwd,
    In args [["rev-parse"; "--show-toplevel"]; Probe.currentBranch;
             ["branch"; "-a"; "--format=%(refname:short)"]]
    /\ (startError ("git" :: args) cwd (Run.world st') = Some msg
        \/ exists earlier result,
             Run.calls st'
             = (Run.calls st ++ earlier ++ [mkCall ("git" :: args) cwd result])%list
             /\ exitCode result <> 0%Z
             /\ msg = Git.execError args result).
Proof.
  intros H L st st' msg.
  assert (Hfrom : forall (args : list string) (cwd : option string) (st1 : Run.St)
                         (earlier : list Call),
            In args [["rev-parse"; "--show-toplevel"]; Probe.currentBranch;
                     ["branch"; "-a"; "--format=%(refname:short)"]] ->
            Run.calls st1 = (Run.calls st ++ earlier)%list ->
            Git.exec args cwd st1 = (Throw msg, st') ->
            exists args cwd,
              In args [["rev-parse"; "--show-toplevel"]; Probe.currentBranch;
                       ["branch"; "-a"; "--format=%(refname:short)"]]
              /\ (startError ("git" :: args) cwd (Run.world st') = Some msg
                  \/ exists earlier result,
                       Run.calls st'
                       = (Run.calls st ++ earlier
                          ++ [mkCall ("git" :: args) cwd result])%list
                       /\ exitCode result <> 0%Z
                       /\ msg = Git.execError args result)).
  { intros args cwd st1 earlier Hin Hcalls Hexec. exists args, cwd. split; [exact Hin |].
    destruct (exec_fails _ _ _ _ _ Hexec) as [[Hstart _] | (result & Hc & Hexit & Hmsg)].
    - now left.
    - right. exists earlier, result. rewrite Hc, Hcalls, <- app_assoc. now split. }
  unfold Git.getRepoInfo. unfold Run.bind at 1.
  destruct (Git.exec ["rev-parse"; "--show-toplevel"] None st) as [[top | m] st1] eqn:Htop.
  2:{ intros [= <- <-].
      apply (Hfrom ["rev-parse"; "--show-toplevel"] None st []);
        [cbn; auto | now rewrite app_nil_r | exact Htop]. }
  destruct (exec_extends _ _ _ _ _ Htop) as (new1 & Hc1).
  unfold Run.bind at 1.
  destruct (Run.tryCatch _ _ st1) as [[url | m] st2] eqn:Hurl.
  2:{ exfalso. revert Hurl. unfold Run.tryCatch, Run.bind.
      destruct (Git.exec _ _ st1) as [[u | m'] s]; unfold Run.ret; discriminate. }
  assert (Hc2 : exists new2, Run.calls st2 = (Run.calls st1 ++ new2)%list).
  { revert Hurl. unfold Run.tryCatch, Run.bind.
    destruct (Git.exec _ _ st1) as [[u | m'] s] eqn:Hexec; unfold Run.ret;
      intros [= _ <-]; eapply exec_extends; exact Hexec. }
  destruct Hc2 as (new2 & Hc2).
  unfold Run.bind at 1.
  destruct (Git.detectDefaultBranch top st2) as [[d | m] st3] eqn:Hd.
  2:{ intros [= <- <-].
      destruct (detectDefaultBranch_fails _ _ _ _ Hd) as (st3' & earlier & Hc3 & Hexec).
      apply (Hfrom Probe.currentBranch (Some top) st3' (new1 ++ new2 ++ earlier)%list);
        [cbn; auto | | exact Hexec].
      rewrite Hc3, Hc2, Hc1, <- !app_assoc. reflexivity. }
  assert (Hc3 : exists new3, Run.calls st3 = (Run.calls st2 ++ new3)%list).
  { destruct (emits_detectDefaultBranch top st2 _ _ Hd) as (new3 & Hc3 & _).
    now exists new3. }
  destruct Hc3 as (new3 & Hc3).
  unfold Run.bind at 1, Git.listBranches, Run.bind at 1.
  destruct (Git.exec _ (Some top) st3) as [[raw | m] st4] eqn:Hlist.
  - unfold Run.ret. discriminate.
  - intros [= <- <-].
    apply (Hfrom ["branch"; "-a"; "--format=%(refname:short)"] (Some top) st3
             (new1 ++ new2 ++ new3)%list); [cbn; auto | | exact Hlist].
    rewrite Hc3, Hc2, Hc1, <- !app_assoc. reflexivity.
Qed.

Lemma X4_getRepoInfo_failures_witness :
  exists args cwd,
    In args [["rev-parse"; "--show-toplevel"]; Probe.currentBranch;
             ["branch"; "-a"; "--format=%(refname:short)"]]
    /\ (startError ("git" :: args) cwd
          (Run.world (snd (Git.getRepoInfo (H := Fixture.host)
                             (Fixture.start (Fixture.mkRecorded [] ["git"])))))
        = Some "fatal: Needed a single revision"
        \/ exists earlier result,
             Run.calls (snd (Git.getRepoInfo (H := Fixture.host)
                               (Fixture.start (Fixture.mkRecorded [] ["git"]))))
             = (Run.calls (Fixture.start (Fixture.mkRecorded [] ["git"])) ++ earlier
                ++ [mkCall ("git" :: args) cwd result])%list
             /\ exitCode result <> 0%Z
             /\ "fatal: Needed a single revision" = Git.execError args result).
Proof.
  apply (X4_getRepoInfo_failures Fixture.host (everyChildStarts Fixture.host)
           (Fixture.start (Fixture.mkRecorded [] ["git"]))
           (snd (Git.getRepoInfo (H := Fixture.host)
                   (Fixture.start (Fixture.mkRecorded [] ["git"]))))).
  vm_compute. reflexivity.
Defined.

(** X5. What [getRepoInfo] returns is consistent: the root is trimmed,
    the repository name and the parent directory are the base name and the
    directory of the root, the remote URL is absent exactly when
    [remote get-url origin] fails, the display names of the branches are
    pairwise different, and the default branch heads the list whenever it
    is in it. *)
Theorem X5_getRepoInfo_consistent :
  forall (H : Host) (st st' : Run.St) (info : RepoInfo),
  Git.getRepoInfo st = (Ok info, st') ->
  JS.trim (root info) = root info
  /\ repoName info = Path.basename (root info)
  /\ parentDir info = Path.dirname (root info)
  /\ (remoteUrl info = None <->
      exitCode (fst (spawnSync ["git"; "remote"; "get-url"; "origin"] (Some (root info))
                       (Run.world (after ["git"; "rev-parse"; "--show-toplevel"] None st))))
      <> 0%Z)
  /\ NoDup (map name (branches info))
  /\ (In (defaultBranch info) (map name (branches info)) ->
      exists first others,
        branches info = first :: others /\ name first = defaultBranch info).
Proof.
  intros H st st' info Hrun.
  destruct (getRepoInfo_ok st st' info Hrun) as (Htrim & Hname & Hdir & Hurl & raw & Hbs).
  cbv zeta in Hurl.
  repeat split; try assumption.
  - rewrite Hurl.
    match goal with |- context [(?x =? 0)%Z] => destruct (Z.eqb_spec x 0) end;
      [discriminate | auto].
  - rewrite Hurl.
    match goal with |- context [(?x =? 0)%Z] => destruct (Z.eqb_spec x 0) end;
      [contradiction | auto].
  - rewrite Hbs. apply listBranchesOf_nodup.
  - rewrite Hbs. apply listBranchesOf_default_first.
Qed.

Lemma X5_getRepoInfo_consistent_witness :
  NoDup (map name (branches Repo.info))
  /\ (In (defaultBranch Repo.info) (map name (branches Repo.info)) ->
      exists first others,
        branches Repo.info = first :: others /\ name first = defaultBranch Repo.info).
Proof.
  apply (X5_getRepoInfo_consistent Fixture.host Repo.st
           (snd (Git.getRepoInfo (H := Fixture.host) Repo.st)) Repo.info).
  vm_compute. reflexivity.
Defined.

Lemma absolute_extend (segs : list string) (last more : string) :
  absolute (segs ++ [last ++ more]) = absolute (segs ++ [last]) ++ more.
Proof.
  destruct segs as [| s segs].
  - reflexivity.
  - rewrite !absolute_snoc by discriminate. now rewrite !append_assoc.
Qed.

(** X6. The worktree of a branch is a sibling of the repository: for a
    repository root that is an absolute path of plain segments, the path
    computed from the directory and the base name of the root is the root
    itself followed by a hyphen and the branch name with its separators
    replaced by hyphens. This is the path computed from what [getRepoInfo]
    returns. *)
Theorem X6_worktree_beside_repository :
  forall (segs : list string) (last branch : string),
  forallb plain (segs ++ [last]) = true ->
  let top := absolute (segs ++ [last]) in
  Git.computeWorktreePath (Path.dirname top) (Path.basename top) branch
  = top ++ "-" ++ JS.replaceAll "/"%char "-"%char branch
  /\ forall (H : Host) (st st' : Run.St) (info : RepoInfo),
       Git.getRepoInfo st = (Ok info, st') -> root info = top ->
       Git.computeWorktreePath (parentDir info) (repoName info) branch
       = root info ++ "-" ++ JS.replaceAll "/"%char "-"%char branch.
Proof.
  intros segs last branch Hall top.
  rewrite forallb_app in Hall. apply andb_prop in Hall. destruct Hall as [Hsegs Hlast].
  cbn [forallb] in Hlast. rewrite andb_true_r in Hlast.
  assert (Hpath : Git.computeWorktreePath (Path.dirname top) (Path.basename top) branch
                  = top ++ "-" ++ JS.replaceAll "/"%char "-"%char branch).
  { subst top. rewrite (dirname_absolute segs last Hsegs Hlast).
    rewrite (basename_absolute segs last Hlast).
    unfold Git.computeWorktreePath. cbv zeta.
    rewrite join_directory;
      [| exact Hsegs
       | apply plain_dashed; [now apply plain_noSep | apply sanitized_noSep]].
    apply absolute_extend. }
  split; [exact Hpath |].
  intros H st st' info Hrun Hroot.
  destruct (getRepoInfo_ok st st' info Hrun) as (_ & Hname & Hdir & _).
  rewrite Hname, Hdir, Hroot. exact Hpath.
Qed.

Lemma X6_worktree_beside_repository_witness :
  Git.computeWorktreePath (Path.dirname "/work/app") (Path.basename "/work/app") "feat/login"
  = "/work/app" ++ "-" ++ JS.replaceAll "/"%char "-"%char "feat/login".
Proof.
  apply (proj1 (X6_worktree_beside_repository ["work"] "app" "feat/login" eq_refl)).
Defined.

(** ** The scan of [runCleanup] *)

Section ScanFailures.
Context {H : Host} {L : Launcher H}.

Lemma raises_isBranchMerged (P : list string -> Prop) (r b into : string) :
  RaisesUnstarted P (Git.isBranchMerged r b into).
Proof.
  unfold Git.isBranchMerged. apply raises_tryCatch. intros; apply raises_ret.
Qed.

Lemma raises_isBranchDeletedOnRemote (r b : string) :
  RaisesUnstarted isRemoteQuery (Git.isBranchDeletedOnRemote r b).
Proof.
  unfold Git.isBranchDeletedOnRemote. apply raises_bind; [| intros; apply raises_ret].
  apply raises_spawn. left. now exists b.
Qed.

Lemma raises_lookupPr (b : string) : RaisesUnstarted isRemoteQuery (Cleanup.lookupPr b).
Proof.
  unfold Cleanup.lookupPr. apply raises_bind.
  - apply raises_spawn. right. now exists b.
  - intros result. destruct (negb _); [apply raises_ret |].
    destruct (parsePrList _) as [[| first rest] |]; apply raises_ret.
Qed.

Lemma raises_classify (info : RepoInfo) (hasGh : bool) (e : WorktreeEntry) :
  RaisesUnstarted isRemoteQuery (Cleanup.classify info hasGh e).
Proof.
  unfold Cleanup.classify.
  apply raises_bind; [destruct (Cleanup.truthyBranch e);
                      [apply raises_isBranchMerged | apply raises_ret] |].
  intros merged.
  apply raises_bind; [destruct (Cleanup.truthyBranch e);
                      [apply raises_isBranchDeletedOnRemote | apply raises_ret] |].
  intros deleted.
  apply raises_bind; [| intros; apply raises_ret].
  destruct (Cleanup.truthyBranch e); [| apply raises_ret].
  destruct hasGh; [apply raises_lookupPr | apply raises_ret].
Qed.

Lemma raises_mapM {A B} (P : list string -> Prop) (f : A -> Run.M B) (l : list A) :
  (forall a, RaisesUnstarted P (f a)) -> RaisesUnstarted P (Cleanup.mapM f l).
Proof.
  intros Hf. induction l as [| a l IH]; cbn [Cleanup.mapM]; [apply raises_ret |].
  apply raises_bind; [apply Hf |]. intros b.
  apply raises_bind; [exact IH |]. intros bs. apply raises_ret.
Qed.

Lemma raises_scan (info : RepoInfo) : RaisesUnstarted isRemoteQuery (Cleanup.scan info).
Proof.
  unfold Cleanup.scan. apply raises_bind.
  - apply raises_tryCatch. intros; apply raises_ret.
  - intros _. apply raises_bind.
    + apply raises_tryCatch. intros; apply raises_ret.
    + intros [message | worktrees]; [apply raises_ret |].
      cbv zeta. destruct (Nat.eqb _ 0); [apply raises_ret |].
      apply raises_bind; [apply raises_whichM |]. intros gh.
      apply raises_bind; [| intros; apply raises_ret].
      apply raises_mapM. intros e. apply raises_classify.
Qed.

Lemma classify_entry (info : RepoInfo) (hasGh : bool) (e : WorktreeEntry)
  (st st' : Run.St) (c : WorktreeCandidate) :
  Cleanup.classify info hasGh e st = (Ok c, st') -> entry c = e.
Proof.
  unfold Cleanup.classify, Run.bind.
  destruct (match Cleanup.truthyBranch e with
            | Some b => Git.isBranchMerged (root info) b (defaultBranch info)
            | None => Run.ret false
            end st) as [[merged | m] st1]; [| discriminate].
  destruct (match Cleanup.truthyBranch e with
            | Some b => Git.isBranchDeletedOnRemote (root info) b
            | None => Run.ret false
            end st1) as [[deleted | m] st2]; [| discriminate].
  destruct (match Cleanup.truthyBranch e with
            | Some b => if hasGh then Cleanup.lookupPr b else Run.ret None
            | None => Run.ret None
            end st2) as [[request | m] st3]; [| discriminate].
  unfold Run.ret. now intros [= <- _].
Qed.

Lemma mapM_entries (info : RepoInfo) (hasGh : bool) (l : list WorktreeEntry) :
  forall (st st' : Run.St) (cs : list WorktreeCandidate),
  Cleanup.mapM (Cleanup.classify info hasGh) l st = (Ok cs, st') -> map entry cs = l.
Proof.
  induction l as [| e l IH]; intros st st' cs; cbn [Cleanup.mapM].
  - unfold Run.ret. now intros [= <- _].
  - unfold Run.bind.
    destruct (Cleanup.classify info hasGh e st) as [[c | m] st1] eqn:Hc; [| discriminate].
    destruct (Cleanup.mapM _ l st1) as [[cs' | m] st2] eqn:Hl; [| discriminate].
    unfold Run.ret. intros [= <- _]. cbn [map].
    now rewrite (classify_entry _ _ _ _ _ _ Hc), (IH _ _ _ Hl).
Qed.

(** The prune is inside a [try] that ignores everything. *)
Lemma prune_attempted (r : string) (st : Run.St) :
  Run.tryCatch (Run.spawn ["git"; "worktree"; "prune"] (Some r) ;;; Run.ret tt)
               (fun _ => Run.ret tt) st
  = (Ok tt, attempted ["git"; "worktree"; "prune"] (Some r) st).
Proof.
  unfold Run.tryCatch, Run.bind, attempted. rewrite spawn_on.
  now destruct (startError _ (Some r) (Run.world st)).
Qed.

(** The scan, run from any state on any machine. *)
Lemma scan_on (info : RepoInfo) (st : Run.St) :
  let listCommand := ["git"; "worktree"; "list"; "--porcelain"] in
  let st1 := attempted ["git"; "worktree"; "prune"] (Some (root info)) st in
  let listing := fst (spawnSync listCommand (Some (root info)) (Run.world st1)) in
  let linked := filter (fun w => negb (isMain w))
                       (Git.parseWorktrees (JS.trim (stdout listing))) in
  exists result st',
    Cleanup.scan info st = (result, st')
    /\ match startError listCommand (Some (root info)) (Run.world st1) with
       | Some msg => result = Ok (CouldNotList ("Could not list worktrees: " ++ msg))
       | None =>
           if (exitCode listing =? 0)%Z then
             match linked with
             | [] => result = Ok NothingToCleanUp
             | _ :: _ =>
                 (exists candidates,
                    result = Ok (Candidates candidates)
                    /\ map entry candidates = linked)
                 \/ (exists msg,
                       result = Throw msg /\ CouldNotStart isRemoteQuery msg st')
             end
           else result
                = Ok (CouldNotList
                        ("Could not list worktrees: "
                         ++ Git.execError ["worktree"; "list"; "--porcelain"] listing))
       end.
Proof.
  cbv zeta. unfold Cleanup.scan. unfold Run.bind at 1. rewrite prune_attempted.
  set (st1 := attempted ["git"; "worktree"; "prune"] (Some (root info)) st).
  unfold Run.bind at 1, Run.tryCatch at 1, Run.bind at 1, Git.listWorktrees, Run.bind at 1.
  rewrite exec_on.
  destruct (startError ["git"; "worktree"; "list"; "--porcelain"] (Some (root info))
                       (Run.world st1)) as [msg |].
  { unfold Run.ret. eauto. }
  cbv zeta.
  set (listing := fst (spawnSync ["git"; "worktree"; "list"; "--porcelain"]
                                 (Some (root info)) (Run.world st1))).
  set (st2 := after ["git"; "worktree"; "list"; "--porcelain"] (Some (root info)) st1).
  destruct (exitCode listing =? 0)%Z; [| unfold Run.ret; eauto].
  unfold Run.ret at 1 2.
  destruct (filter (fun w => negb (isMain w))
                   (Git.parseWorktrees (JS.trim (stdout listing))))
    as [| e linked'] eqn:Hlinked.
  { cbn [List.length Nat.eqb]. unfold Run.ret. eauto. }
  cbn [List.length Nat.eqb]. unfold Run.bind at 1, Run.whichM.
  unfold Run.bind at 1.
  destruct (Cleanup.mapM (Cleanup.classify info (JS.truthyOpt (which "gh" (Run.world st2))))
                         (e :: linked') st2) as [[cs | msg] st3] eqn:Hmap.
  - unfold Run.ret. eexists _, _. split; [reflexivity |]. left.
    exists cs. split; [reflexivity |]. eapply mapM_entries. exact Hmap.
  - eexists _, _. split; [reflexivity |]. right.
    exists msg. split; [reflexivity |].
    eapply (raises_mapM isRemoteQuery); [| exact Hmap].
    intros e'. apply raises_classify.
Qed.

End ScanFailures.

(** X7. The worktree listing decides the outcome of the scan, whatever
    the prune before it did. When [git worktree list --porcelain] cannot
    be started or fails, the scan reports that error; when the listing has
    no secondary worktree there is nothing to clean up; otherwise there is
    exactly one candidate per secondary worktree of the listing, in the
    order of the listing. The scan raises in one case only: the probe of a
    remote reference or the query for a review request could not be
    started. On a machine where these start it never raises. *)
Theorem X7_scan_outcome :
  forall (H : Host) (L : Launcher H) (info : RepoInfo) (st : Run.St),
  let listCommand := ["git"; "worktree"; "list"; "--porcelain"] in
  let st1 := attempted ["git"; "worktree"; "prune"] (Some (root info)) st in
  let listing := fst (spawnSync listCommand (Some (root info)) (Run.world st1)) in
  let linked := filter (fun w => negb (isMain w))
                       (Git.parseWorktrees (JS.trim (stdout listing))) in
  exists result st',
    Cleanup.scan info st = (result, st')
    /\ match startError listCommand (Some (root info)) (Run.world st1) with
       | Some msg => result = Ok (CouldNotList ("Could not list worktrees: " ++ msg))
       | None =>
           if (exitCode listing =? 0)%Z then
             match linked with
             | [] => result = Ok NothingToCleanUp
             | _ :: _ =>
                 (exists candidates,
                    result = Ok (Candidates candidates)
                    /\ map entry candidates = linked)
                 \/ (exists msg,
                       result = Throw msg /\ CouldNotStart isRemoteQuery msg st')
             end
           else result
                = Ok (CouldNotList
                        ("Could not list worktrees: "
                         ++ Git.execError ["worktree"; "list"; "--porcelain"] listing))
       end
    /\ (forall msg, result = Throw msg -> CouldNotStart isRemoteQuery msg st')
    /\ ((forall argv cwd w, isRemoteQuery argv -> startError argv cwd w = None) ->
        exists outcome, result = Ok outcome).
Proof.
  intros H L info st. cbv zeta.
  destruct (scan_on info st) as (result & st' & Hrun & Hcases).
  exists result, st'. split; [exact Hrun |]. split; [exact Hcases |].
  assert (Hraises : forall msg, result = Throw msg -> CouldNotStart isRemoteQuery msg st').
  { intros msg ->. exact (raises_scan info _ _ _ Hrun). }
  split; [exact Hraises |].
  intros Hstarts. destruct result as [outcome | msg]; [now exists outcome |].
  destruct (Hraises msg eq_refl) as (argv & cwd & Hquery & Hstart).
  rewrite (Hstarts argv cwd _ Hquery) in Hstart. discriminate.
Qed.

Lemma X7_scan_outcome_witness :
  exists outcome,
    fst (Cleanup.scan (H := Fixture.host) Sample.info Sample.reviewed) = Ok outcome.
Proof.
  destruct (X7_scan_outcome Fixture.host (everyChildStarts Fixture.host)
              Sample.info Sample.reviewed)
    as (result & st' & Hrun & _ & _ & Hstarts).
  destruct (Hstarts (fun _ _ _ _ => eq_refl)) as (outcome & Hresult).
  exists outcome. rewrite Hrun. exact Hresult.
Defined.

Example scan_missing_directory :
  fst (Cleanup.scan (H := Fixture.host) (L := Fixture.noSuchDirectory "/work/app")
         Sample.info Sample.reviewed)
  = Ok (CouldNotList "Could not list worktrees: ENOENT: no such file or directory").
Proof. vm_compute. reflexivity. Qed.

Example scan_review_tool_unusable :
  fst (Cleanup.scan (H := Fixture.host) (L := Fixture.cannotRun "gh")
         Sample.info Sample.reviewed)
  = Throw Fixture.eacces.
Proof. vm_compute. reflexivity. Qed.

Section ScanCommands.
Context {H : Host} {L : Launcher H}.

Lemma emits_isBranchMerged (r b into : string) :
  Emits isScanCommand (Git.isBranchMerged r b into).
Proof.
  unfold Git.isBranchMerged. apply emits_tryCatch.
  - apply emits_bind; [| intros; apply emits_ret].
    apply emits_exec. unfold isScanCommand. eauto 6.
  - intros; apply emits_ret.
Qed.

Lemma emits_isBranchDeletedOnRemote (r b : string) :
  Emits isScanCommand (Git.isBranchDeletedOnRemote r b).
Proof.
  unfold Git.isBranchDeletedOnRemote. apply emits_bind; [| intros; apply emits_ret].
  apply emits_spawn. unfold isScanCommand. eauto 6.
Qed.

Lemma emits_lookupPr (b : string) : Emits isScanCommand (Cleanup.lookupPr b).
Proof.
  unfold Cleanup.lookupPr. apply emits_bind.
  - apply emits_spawn. unfold isScanCommand. eauto 7.
  - intros result. destruct (negb _); [apply emits_ret |].
    destruct (parsePrList _) as [[| first rest] |]; apply emits_ret.
Qed.

Lemma emits_classify (info : RepoInfo) (hasGh : bool) (e : WorktreeEntry) :
  Emits isScanCommand (Cleanup.classify info hasGh e).
Proof.
  unfold Cleanup.classify.
  apply emits_bind; [destruct (Cleanup.truthyBranch e);
                     [apply emits_isBranchMerged | apply emits_ret] |].
  intros merged.
  apply emits_bind; [destruct (Cleanup.truthyBranch e);
                     [apply emits_isBranchDeletedOnRemote | apply emits_ret] |].
  intros deleted.
  apply emits_bind; [| intros; apply emits_ret].
  destruct (Cleanup.truthyBranch e); [| apply emits_ret].
  destruct hasGh; [apply emits_lookupPr | apply emits_ret].
Qed.

Lemma emits_mapM {A B} (P : list string -> Prop) (f : A -> Run.M B) (l : list A) :
  (forall a, Emits P (f a)) -> Emits P (Cleanup.mapM f l).
Proof.
  intros Hf. induction l as [| a l IH]; cbn [Cleanup.mapM]; [apply emits_ret |].
  apply emits_bind; [apply Hf |]. intros b.
  apply emits_bind; [exact IH |]. intros bs. apply emits_ret.
Qed.

Lemma emits_scan (info : RepoInfo) : Emits isScanCommand (Cleanup.scan info).
Proof.
  unfold Cleanup.scan. apply emits_bind.
  - apply emits_tryCatch; [| intros; apply emits_ret].
    apply emits_bind; [| intros; apply emits_ret].
    apply emits_spawn. unfold isScanCommand. auto.
  - intros _. apply emits_bind.
    + apply emits_tryCatch; [| intros; apply emits_ret].
      apply emits_bind; [| intros; apply emits_ret].
      unfold Git.listWorktrees. apply emits_bind; [| intros; apply emits_ret].
      apply emits_exec. unfold isScanCommand. auto.
    + intros [message | worktrees]; [apply emits_ret |].
      cbv zeta. destruct (Nat.eqb _ 0); [apply emits_ret |].
      apply emits_bind; [apply emits_whichM |]. intros gh.
      apply emits_bind; [| intros; apply emits_ret].
      apply emits_mapM. intros e. apply emits_classify.
Qed.

End ScanCommands.

Lemma scanCommand_harmless (argv : list string) :
  isScanCommand argv -> isDestructive argv = false.
Proof.
  intros [-> | [-> | [(into & ->) | [(r & ->) | (b & ->)]]]]; reflexivity.
Qed.

(** X8. The scan only looks, on any machine: every command it runs is the
    prune of stale records, the worktree listing, a merge probe, a
    remote-reference probe or a review-request query. It never removes or
    adds a worktree and never deletes a branch. *)
Theorem X8_scan_only_looks :
  forall (H : Host) (L : Launcher H) (info : RepoInfo) (st : Run.St),
  exists new,
    Run.calls (snd (Cleanup.scan info st)) = (Run.calls st ++ new)%list
    /\ Forall (fun call => isScanCommand (call_argv call)
                           /\ isDestructive (call_argv call) = false) new.
Proof.
  intros H L info st.
  destruct (emits_scan info st _ _ (surjective_pairing _)) as (new & Hcalls & Hnew).
  exists new. split; [exact Hcalls |].
  eapply Forall_impl; [| exact Hnew].
  intros call Hcall. split; [exact Hcall | now apply scanCommand_harmless].
Qed.

(** ** The removal loop *)

Section Removal.
Context {H : Host}.
Variable info : RepoInfo.



End Removal.



(** ** [runCleanup] as a whole *)

Section ReclaimCommands.
Context {H : Host} {L : Launcher H}.
Variable info : RepoInfo.

Lemma emits_reclaimOne (toRemove : list WorktreeCandidate) (acc : Z * list string)
  (c : WorktreeCandidate) :
  In c toRemove -> Emits (reclaims toRemove) (Cleanup.reclaimOne info acc c).
Proof.
  intros Hin. destruct acc as [removed errors]. unfold Cleanup.reclaimOne.
  apply emits_tryCatch; [| intros; apply emits_ret].
  apply emits_bind.
  { unfold Git.removeWorktree. apply emits_bind; [| intros; apply emits_ret].
    apply emits_exec. exists c. split; [exact Hin | now left]. }
  intros _. apply emits_bind; [| intros; apply emits_ret].
  unfold Cleanup.truthyBranch.
  destruct (branch (entry c)) as [b |] eqn:Hb; [| apply emits_ret].
  destruct (JS.truthy b); [| apply emits_ret].
  apply emits_tryCatch; [| intros; apply emits_ret].
  unfold Git.deleteBranch. apply emits_bind; [| intros; apply emits_ret].
  apply emits_exec. exists c. split; [exact Hin |]. right. now exists b.
Qed.

Lemma reclaimOne_total (acc : Z * list string) (c : WorktreeCandidate) (st : Run.St) :
  exists acc' st', Cleanup.reclaimOne info acc c st = (Ok acc', st').
Proof.
  destruct acc as [removed errors]. unfold Cleanup.reclaimOne, Run.tryCatch.
  match goal with
  | |- context [let (_, _) := ?body st in _] => destruct (body st) as [[acc' | msg] st1]
  end; unfold Run.ret; eauto.
Qed.

Lemma reclaimLoop_on (selected toRemove : list WorktreeCandidate) :
  incl toRemove selected ->
  forall (acc : Z * list string) (st : Run.St),
  exists acc' st' new,
    Cleanup.reclaimLoop info toRemove acc st = (Ok acc', st')
    /\ Run.calls st' = (Run.calls st ++ new)%list
    /\ Forall (fun call => reclaims selected (call_argv call)) new.
Proof.
  induction toRemove as [| c rest IH]; intros Hincl acc st.
  - exists acc, st, []. cbn. unfold Run.ret. rewrite app_nil_r. repeat split. constructor.
  - cbn [Cleanup.reclaimLoop]. unfold Run.bind.
    destruct (reclaimOne_total acc c st) as (acc1 & st1 & Hrun). rewrite Hrun.
    destruct (emits_reclaimOne selected acc c (Hincl c (or_introl eq_refl)) _ _ _ Hrun)
      as (new1 & Hcalls1 & Hnew1).
    destruct (IH (fun x Hx => Hincl x (or_intror Hx)) acc1 st1)
      as (acc2 & st2 & new2 & Hrun2 & Hcalls2 & Hnew2).
    exists acc2, st2, (new1 ++ new2)%list.
    split; [exact Hrun2 |].
    split; [rewrite Hcalls2, Hcalls1, app_assoc; reflexivity |].
    apply Forall_app. now split.
Qed.

End ReclaimCommands.

(** X10. [runCleanup] removes nothing that was not selected and confirmed.
    However it ends short of the removals (outside a repository, listing
    failed, nothing to clean, a prompt cancelled or declined, nothing
    selected), no command it ran removes or adds a worktree or deletes a
    branch. It raises in one case only, when the scan could not start the
    probe of a remote reference or the query for a review request, and
    nothing of that kind has run then either. When it ends with the
    removals, the candidates shown were those of the scan of the repository
    found, the selection made among them was not empty and was confirmed,
    the count and the errors are those of the removal loop, and after the
    look at the repository and the scan every command removes the worktree
    or deletes the branch of a selected candidate. *)
Theorem X10_runCleanup_guarded :
  forall (H : Host) (L : Launcher H) (prompts : CleanupPrompts) (st : Run.St),
  exists result st' new,
    Cleanup.runCleanup prompts st = (result, st')
    /\ Run.calls st' = (Run.calls st ++ new)%list
    /\ match result with
       | Ok (Done removed errors) =>
           exists info st1 candidates st2 toRemove looked removal,
             Git.getRepoInfo st = (Ok info, st1)
             /\ Cleanup.scan info st1 = (Ok (Candidates candidates), st2)
             /\ select prompts candidates = Some toRemove
             /\ toRemove <> []
             /\ confirm prompts toRemove = Some true
             /\ Cleanup.reclaim info toRemove st2 = (Ok (removed, errors), st')
             /\ new = (looked ++ removal)%list
             /\ Forall (fun call => isDestructive (call_argv call) = false) looked
             /\ Forall (fun call => reclaims toRemove (call_argv call)) removal
       | Ok _ => Forall (fun call => isDestructive (call_argv call) = false) new
       | Throw msg =>
           Forall (fun call => isDestructive (call_argv call) = false) new
           /\ CouldNotStart isRemoteQuery msg st'
       end.
Proof.
  intros H L prompts st. unfold Cleanup.runCleanup.
  unfold Run.bind at 1, Run.tryCatch at 1, Run.bind at 1.
  destruct (Git.getRepoInfo st) as [[info | msg] st1] eqn:Hinfo;
    destruct (emits_getRepoInfo _ _ _ Hinfo) as (new1 & Hcalls1 & Hnew1);
    apply (Forall_impl _ (fun call => infoCommand_harmless (call_argv call))) in Hnew1.
  2:{ unfold Run.ret. exists (Ok NotInRepository), st1, new1. auto. }
  unfold Run.ret at 1. unfold Run.bind at 1.
  destruct (Cleanup.scan info st1) as [[outcome | msg] st2] eqn:Hscan;
    destruct (emits_scan info _ _ _ Hscan) as (new2 & Hcalls2 & Hnew2);
    apply (Forall_impl _ (fun call => scanCommand_harmless (call_argv call))) in Hnew2;
    assert (Hcalls : Run.calls st2 = (Run.calls st ++ (new1 ++ new2))%list)
      by (rewrite Hcalls2, Hcalls1; now rewrite app_assoc);
    assert (Hlooked : Forall (fun call => isDestructive (call_argv call) = false)
                             (new1 ++ new2))
      by (apply Forall_app; now split).
  2:{ exists (Throw msg), st2, (new1 ++ new2)%list.
      split; [reflexivity |]. split; [exact Hcalls |]. split; [exact Hlooked |].
      exact (raises_scan info _ _ _ Hscan). }
  destruct outcome as [message | | candidates].
  - unfold Run.ret. exists (Ok (CleanupFailed message)), st2, (new1 ++ new2)%list. auto.
  - unfold Run.ret. exists (Ok NothingToClean), st2, (new1 ++ new2)%list. auto.
  - destruct (select prompts candidates) as [toRemove |] eqn:Hselect.
    2:{ unfold Run.ret. exists (Ok SelectionCancelled), st2, (new1 ++ new2)%list. auto. }
    destruct toRemove as [| c rest].
    { cbn [List.length Nat.eqb]. unfold Run.ret.
      exists (Ok NothingSelected), st2, (new1 ++ new2)%list. auto. }
    cbn [List.length Nat.eqb].
    destruct (confirm prompts (c :: rest)) as [[|] |] eqn:Hconfirm.
    + unfold Run.bind.
      destruct (reclaimLoop_on info (c :: rest) (c :: rest) (incl_refl _) (0%Z, []) st2)
        as ([removed errors] & st3 & removal & Hrun & Hcalls3 & Hremoval).
      unfold Cleanup.reclaim. rewrite Hrun. unfold Run.ret. cbn [fst snd].
      exists (Ok (Done removed errors)), st3, ((new1 ++ new2) ++ removal)%list.
      split; [reflexivity |].
      split; [rewrite Hcalls3, Hcalls, <- !app_assoc; reflexivity |].
      exists info, st1, candidates, st2, (c :: rest), (new1 ++ new2)%list, removal.
      repeat split; try assumption. discriminate.
    + unfold Run.ret. exists (Ok NotConfirmed), st2, (new1 ++ new2)%list. auto.
    + unfold Run.ret. exists (Ok NotConfirmed), st2, (new1 ++ new2)%list. auto.
Qed.

(** ** Labels of the selection list *)

Lemma join_pair (sep a b : string) : JS.join sep [a; b] = a ++ sep ++ b.
Proof. reflexivity. Qed.

(** X11. The label of a candidate is its branch, or [(detached)] when it
    has none, followed, when there is any signal, by the signals in
    brackets: [merged], [gone from remote], and the review request with its
    state in lower case (the test for the merged state changes nothing:
    lower case gives the same text). A detached candidate of a scan
    has no signal, so its label is [(detached)] alone. *)
Theorem X11_formatCandidate_label :
  forall c : WorktreeCandidate,
  let head := match Cleanup.truthyBranch (entry c) with
              | Some b => b
              | None => "(detached)"
              end in
  let tags :=
    ((if merged c then ["merged"] else [])
     ++ (if deletedOnRemote c then ["gone from remote"] else [])
     ++ match pr c with
        | Some request =>
            [("PR #" ++ JS.showZ (pr_number request) ++ " "
              ++ JS.toLowerCase (pr_state request) ++ ": " ++ pr_title request)%string]
        | None => []
        end)%list in
  Cleanup.formatCandidate c
  = match tags with
    | [] => head
    | _ :: _ => head ++ " (" ++ JS.join ", " tags ++ ")"
    end
  /\ forall e, Classified e c -> Cleanup.truthyBranch e = None ->
               Cleanup.formatCandidate c = "(detached)".
Proof.
  intros c head tags.
  assert (Htags : Cleanup.tagsOf c = tags).
  { unfold Cleanup.tagsOf. subst tags. cbv zeta.
    destruct (pr c) as [request |]; [| reflexivity].
    destruct (String.eqb_spec (pr_state request) "MERGED") as [-> | _]; reflexivity. }
  assert (Hlabel : Cleanup.formatCandidate c
                   = match tags with
                     | [] => head
                     | _ :: _ => head ++ " (" ++ JS.join ", " tags ++ ")"
                     end).
  { unfold Cleanup.formatCandidate. cbv zeta. rewrite Htags. fold head.
    assert (Hhead : match Cleanup.truthyBranch (entry c) with
                    | Some b => [b]
                    | None => ["(detached)"]
                    end = [head]).
    { subst head. now destruct (Cleanup.truthyBranch (entry c)). }
    rewrite Hhead. destruct tags as [| t ts].
    - reflexivity.
    - cbn [app]. rewrite join_pair. reflexivity. }
  split; [exact Hlabel |].
  intros e Hc Hnone. rewrite Hlabel.
  destruct (cl_no_branch _ _ Hc Hnone) as (Hm & Hd & Hp).
  subst tags head. rewrite Hm, Hd, Hp, (cl_entry _ _ Hc), Hnone. reflexivity.
Qed.

Lemma X11_formatCandidate_label_witness :
  Cleanup.formatCandidate
    (mkWorktreeCandidate (mkWorktreeEntry "/work/app-tmp" None false)
                         false false None false)
  = "(detached)".
Proof.
  apply (proj2 (X11_formatCandidate_label _)
               (mkWorktreeEntry "/work/app-tmp" None false)).
  - constructor; [reflexivity | reflexivity | auto].
  - reflexivity.
Defined.

(** ** Dispatch and parsing *)

(** X12. [main] reaches the assistant or writes the path file only after
    everything that has to come first: the command line parsed without
    asking for version, help, configuration or cleanup, git and the
    assistant are installed, and the session returned a path that is not
    empty. The path is written exactly when a non-empty file name followed
    [--path-file]. Cleanup needs git, and nothing else. *)
Theorem X12_main_guards :
  forall (argv : list string) (deps : DepCheckResult) (tui : option string),
  let started (args : CliArgs) (w : string) :=
    Cli.parseArgs argv = Args args
    /\ version args = false /\ help args = false
    /\ config args = false /\ cleanup args = false
    /\ JS.truthyOpt (dep_git deps) = true
    /\ JS.truthyOpt (dep_claude deps) = true
    /\ tui = Some w /\ w <> EmptyString in
  (forall w, Cli.main argv deps tui = LaunchAssistant w ->
     exists args, started args w /\ JS.truthyOpt (pathFile args) = false)
  /\ (forall file w, Cli.main argv deps tui = WritePathFile file w ->
        exists args, started args w /\ pathFile args = Some file /\ file <> EmptyString)
  /\ (Cli.main argv deps tui = RunCleanup -> JS.truthyOpt (dep_git deps) = true).
Proof.
  intros argv deps tui started. subst started. unfold Cli.main.
  destruct (Cli.parseArgs argv) as [args | code message].
  2:{ repeat split; intros; discriminate. }
  destruct (version args) eqn:Hv; [repeat split; intros; discriminate |].
  destruct (help args) eqn:Hh; [repeat split; intros; discriminate |].
  destruct (config args) eqn:Hc; [repeat split; intros; discriminate |].
  destruct (cleanup args) eqn:Hcl.
  { destruct (JS.truthyOpt (dep_git deps)); repeat split; intros;
      try discriminate; try reflexivity. }
  destruct (JS.truthyOpt (dep_git deps)) eqn:Hgit; cbn [negb];
    [| repeat split; intros; discriminate].
  destruct (JS.truthyOpt (dep_claude deps)) eqn:Hclaude; cbn [negb];
    [| repeat split; intros; discriminate].
  destruct tui as [worktreePath |]; [| repeat split; intros; discriminate].
  destruct (JS.truthy worktreePath) eqn:Hw; cbn [negb];
    [| repeat split; intros; discriminate].
  apply truthy_true in Hw.
  destruct (pathFile args) as [file |] eqn:Hfile.
  - destruct (JS.truthy file) eqn:Hf.
    + split; [intros; discriminate |]. split; [| intros; discriminate].
      intros file' w [= <- <-]. exists args. rewrite Hfile.
      apply truthy_true in Hf. repeat split; auto.
    + split; [| split; intros; discriminate].
      intros w [= <-]. exists args. rewrite Hfile. cbn [JS.truthyOpt].
      repeat split; auto.
  - split; [| split; intros; discriminate].
    intros w [= <-]. exists args. rewrite Hfile. repeat split; auto.
Qed.

Lemma X12_main_guards_witness :
  exists args,
    (Cli.parseArgs ["--path-file"; "/tmp/out"] = Args args
     /\ version args = false /\ help args = false
     /\ config args = false /\ cleanup args = false
     /\ JS.truthyOpt (Some "/usr/bin/git") = true
     /\ JS.truthyOpt (Some "/usr/bin/claude") = true
     /\ Some "/work/app-x" = Some "/work/app-x" /\ "/work/app-x" <> EmptyString)
    /\ pathFile args = Some "/tmp/out" /\ "/tmp/out" <> EmptyString.
Proof.
  apply (proj1 (proj2 (X12_main_guards ["--path-file"; "/tmp/out"]
                         (mkDeps (Some "/usr/bin/git") (Some "/usr/bin/claude") None None)
                         (Some "/work/app-x")))).
  reflexivity.
Defined.

Lemma parseFrom_refines (args : list string) :
  forall (result parsed : CliArgs),
  Cli.parseFrom args result = Args parsed ->
  OldCli.parseFrom args (OldCli.mkCliArgs (help result) (pathFile result))
  = OldCli.mkCliArgs (help parsed) (pathFile parsed).
Proof.
  induction args as [args IH] using (well_founded_induction
                                       (Wf_nat.well_founded_ltof _ (@List.length string))).
  destruct args as [| arg rest]; intros result parsed.
  { cbn. now intros [= <-]. }
  assert (Hrest : forall r, Cli.parseFrom rest r = Args parsed ->
            OldCli.parseFrom rest (OldCli.mkCliArgs (help r) (pathFile r))
            = OldCli.mkCliArgs (help parsed) (pathFile parsed)).
  { intros r. apply IH. unfold ltof. cbn. lia. }
  cbn [Cli.parseFrom OldCli.parseFrom].
  destruct (String.eqb arg "--help" || String.eqb arg "-h") eqn:Hhelp.
  { intros Hrun. apply Hrest in Hrun. exact Hrun. }
  destruct (String.eqb arg "--version" || String.eqb arg "-v" || String.eqb arg "-V")
    eqn:Hversion.
  { destruct (String.eqb_spec arg "--path-file") as [-> | _]; [discriminate Hversion |].
    intros Hrun. apply Hrest in Hrun. exact Hrun. }
  cbv zeta.
  assert (Hother :
    (if String.eqb arg "config"
     then Cli.parseFrom rest (mkCliArgs (help result) (version result) true
                                        (cleanup result) (pathFile result))
     else if String.eqb arg "cleanup" || String.eqb arg "clean"
          then Cli.parseFrom rest (mkCliArgs (help result) (version result)
                                             (config result) true (pathFile result))
          else if negb (JS.startsWith arg "-")
               then Exited 1 ("Unknown command: " ++ arg
                              ++ String JS.LF "Run 'slopcannon --help' for usage.")
               else Cli.parseFrom rest result) = Args parsed ->
    OldCli.parseFrom rest (OldCli.mkCliArgs (help result) (pathFile result))
    = OldCli.mkCliArgs (help parsed) (pathFile parsed)).
  { destruct (String.eqb arg "config"); [intros Hrun; now apply Hrest in Hrun |].
    destruct (String.eqb arg "cleanup" || String.eqb arg "clean");
      [intros Hrun; now apply Hrest in Hrun |].
    destruct (negb (JS.startsWith arg "-")); [discriminate |].
    intros Hrun; now apply Hrest in Hrun. }
  destruct (String.eqb arg "--path-file").
  - destruct rest as [| value rest']; [exact Hother |].
    intros Hrun.
    apply (IH rest') in Hrun; [exact Hrun | unfold ltof; cbn; lia].
  - exact Hother.
Qed.

(** X13. The parser with subcommands agrees with the earlier parser on
    what they share: whenever it accepts a command line, the help flag and
    the path file it read are those the earlier parser reads from the same
    command line. *)
Theorem X13_parseArgs_refines_earlier :
  forall (argv : list string) (parsed : CliArgs),
  Cli.parseArgs argv = Args parsed ->
  OldCli.parseArgs argv = OldCli.mkCliArgs (help parsed) (pathFile parsed).
Proof.
  intros argv parsed Hrun. now apply parseFrom_refines in Hrun.
Qed.

Lemma X13_parseArgs_refines_earlier_witness :
  OldCli.parseArgs ["cleanup"; "-h"; "--path-file"; "/tmp/out"; "--path-file"]
  = OldCli.mkCliArgs true (Some "/tmp/out").
Proof.
  apply (X13_parseArgs_refines_earlier
           ["cleanup"; "-h"; "--path-file"; "/tmp/out"; "--path-file"]
           (mkCliArgs true false false true (Some "/tmp/out"))).
  reflexivity.
Defined.

(** ** Configuration *)

(** X14. [validateField] keeps the value it is given or falls back on the
    default of the field, and what it returns has the type of the field: a
    boolean for a boolean field, and for a choice one of the options or the
    default. Validating twice changes nothing. *)
Theorem X14_validateField_sound :
  forall (def : Config.FieldDef) (value : option Config.Value),
  let result := Config.validateField def value in
  (value = Some result \/ result = Config.defaultOf def)
  /\ match def with
     | Config.BooleanField _ _ => exists b, result = Config.VBoolean b
     | Config.SelectField default _ options =>
         exists s, result = Config.VString s
                   /\ (In s (map fst options) \/ s = default)
     end
  /\ Config.validateField def (Some result) = result.
Proof.
  intros def value result. subst result.
  destruct def as [d l | d l options].
  - destruct value as [[b | s |] |]; cbn; repeat split; eauto.
  - assert (Hdefault :
      Config.validateField (Config.SelectField d l options) (Some (Config.VString d))
      = Config.VString d).
    { cbn. now destruct (existsb (fun o => String.eqb (fst o) d) options). }
    destruct value as [[b | s |] |];
      try (cbn [Config.validateField Config.defaultOf];
           split; [now right | split; [eauto | exact Hdefault]]).
    cbn [Config.validateField Config.defaultOf].
    destruct (existsb (fun o => String.eqb (fst o) s) options) eqn:Hs.
    + split; [now left |]. split; [| cbn; now rewrite Hs].
      exists s. split; [reflexivity | left].
      apply existsb_exists in Hs. destruct Hs as (o & Hin & Ho).
      apply String.eqb_eq in Ho. subst s. now apply in_map.
    + split; [now right | split; [eauto | exact Hdefault]].
Qed.

Lemma loadConfig_object (raw : Config.Rec) :
  Config.loadConfig (Config.Object raw)
  = Some [("activationStyle",
           Config.validateField
             (Config.SelectField "cannon" "Activation style"
                [("cannon", "Cannon fire"); ("typewriter", "Typewriter"); ("off", "Off")])
             (Config.lookup "activationStyle" raw))].
Proof. reflexivity. Qed.

Lemma validate_style (value : option Config.Value) :
  exists style,
    Config.validateField
      (Config.SelectField "cannon" "Activation style"
         [("cannon", "Cannon fire"); ("typewriter", "Typewriter"); ("off", "Off")]) value
    = Config.VString style
    /\ In style ["cannon"; "typewriter"; "off"]
    /\ (style <> "cannon" -> value = Some (Config.VString style)).
Proof.
  assert (Hcannon : forall v : option Config.Value,
            Config.VString "cannon" = Config.VString "cannon"
            /\ In "cannon" ["cannon"; "typewriter"; "off"]
            /\ ("cannon" <> "cannon" -> v = Some (Config.VString "cannon"))).
  { intros v. split; [reflexivity |]. split; [cbn; auto |]. intros Hne. now contradiction Hne. }
  destruct value as [[b | s |] |]; try (exists "cannon"; apply Hcannon).
  cbn [Config.validateField Config.defaultOf existsb fst].
  destruct (String.eqb_spec "cannon" s) as [<- | _]; cbn [orb];
    [exists "cannon"; apply Hcannon |].
  destruct (String.eqb_spec "typewriter" s) as [<- | _]; cbn [orb];
    [exists "typewriter"; cbn; auto |].
  destruct (String.eqb_spec "off" s) as [<- | _]; cbn [orb];
    [exists "off"; cbn; auto 6 |].
  exists "cannon"; apply Hcannon.
Qed.

(** X15. Whatever the configuration file holds, a configuration that
    [loadConfig] returns has the activation style and nothing else, the
    style is one of [cannon], [typewriter] and [off], and it is [cannon]
    unless the file is an object that has another of them under that key.
    Saving that configuration and loading it again gives it back. Only a
    file that holds [null] makes [loadConfig] fail. *)
Theorem X15_loadConfig_valid :
  forall required : Config.Required,
  (Config.loadConfig required = None <-> required = Config.Null)
  /\ forall config,
       Config.loadConfig required = Some config ->
       (exists style,
          config = [("activationStyle", Config.VString style)]
          /\ In style ["cannon"; "typewriter"; "off"]
          /\ (style <> "cannon" ->
              exists raw, required = Config.Object raw
                          /\ Config.lookup "activationStyle" raw
                             = Some (Config.VString style)))
       /\ Config.clean config = config
       /\ Config.loadConfig (Config.Object (Config.clean config)) = Some config.
Proof.
  intros required. split.
  { destruct required; cbn; split; congruence. }
  intros config Hload.
  assert (Hstyle : exists style,
            config = [("activationStyle", Config.VString style)]
            /\ In style ["cannon"; "typewriter"; "off"]
            /\ (style <> "cannon" ->
                exists raw, required = Config.Object raw
                            /\ Config.lookup "activationStyle" raw
                               = Some (Config.VString style))).
  { destruct required as [| | raw].
    - injection Hload as <-. exists "cannon". cbn. repeat split; auto. congruence.
    - discriminate.
    - rewrite loadConfig_object in Hload.
      destruct (validate_style (Config.lookup "activationStyle" raw))
        as (style & Hv & Hin & Hraw).
      rewrite Hv in Hload.
      exists style. split; [congruence |].
      split; [exact Hin |]. intros Hne. exists raw. auto. }
  split; [exact Hstyle |].
  destruct Hstyle as (style & -> & Hin & _).
  cbn in Hin. destruct Hin as [<- | [<- | [<- | []]]]; split; reflexivity.
Qed.

Lemma X15_loadConfig_valid_witness :
  Config.clean [("activationStyle", Config.VString "typewriter")]
  = [("activationStyle", Config.VString "typewriter")].
Proof.
  apply (proj2 (X15_loadConfig_valid
                  (Config.Object [("theme", Config.VOther);
                                  ("activationStyle", Config.VString "typewriter")]))
               [("activationStyle", Config.VString "typewriter")]).
  reflexivity.
Defined.

(** ** Branch listings of the two revisions *)

Lemma sort_map {A B} (f : A -> B) (cmp : A -> A -> Z) (cmp' : B -> B -> Z) :
  (forall a b, cmp a b = cmp' (f a) (f b)) ->
  forall l, map f (Git.sort cmp l) = Git.sort cmp' (map f l).
Proof.
  intros Hcmp.
  assert (Hins : forall x l, map f (Git.insertSorted cmp x l)
                             = Git.insertSorted cmp' (f x) (map f l)).
  { intros x l. induction l as [| y l IH]; [reflexivity |].
    cbn [Git.insertSorted map]. rewrite <- Hcmp.
    destruct (cmp x y <=? 0)%Z; cbn [map]; [reflexivity | now rewrite IH]. }
  induction l as [| x l IH]; [reflexivity |].
  cbn [Git.sort map]. now rewrite Hins, IH.
Qed.

Lemma mapHas_keys (k : string) (m : list (string * BranchEntry)) :
  Git.mapHas k m = Git.setHas k (map fst m).
Proof.
  unfold Git.mapHas, Git.setHas. induction m as [| kv m IH]; [reflexivity |].
  cbn. now rewrite IH.
Qed.

Lemma collect_buildEntry (locals : list string) (lines : list string) :
  forall entries : list (string * BranchEntry),
  map name (map snd entries) = map fst entries ->
  fold_left OldGit.collect lines (map fst entries, map fst entries)
  = (map fst (fold_left (Git.buildEntry locals) lines entries),
     map name (map snd (fold_left (Git.buildEntry locals) lines entries))).
Proof.
  induction lines as [| line lines IH]; intros entries Hnames.
  - cbn. now rewrite Hnames.
  - cbn [fold_left].
    assert (Hstep :
      OldGit.collect (map fst entries, map fst entries) line
      = (map fst (Git.buildEntry locals entries line),
         map fst (Git.buildEntry locals entries line))
      /\ map name (map snd (Git.buildEntry locals entries line))
         = map fst (Git.buildEntry locals entries line)).
    { unfold OldGit.collect, Git.buildEntry. cbv zeta.
      destruct (negb (JS.truthy (JS.trim line))); [now split |].
      set (short := if JS.startsWith (JS.trim line) "origin/"
                    then JS.replace "origin/" EmptyString (JS.trim line)
                    else JS.trim line).
      destruct (String.eqb short "HEAD"); [now split |].
      rewrite mapHas_keys.
      destruct (Git.setHas short (map fst entries)) eqn:Hhas; [now split |].
      unfold Git.setAdd. unfold Git.setHas in Hhas. rewrite Hhas.
      rewrite !map_app, Hnames. cbn. now split. }
    destruct Hstep as [Hstep Hnames']. rewrite Hstep. now apply IH.
Qed.

Lemma listBranches_names :
  forall (H : Host) (raw defaultBranch : string),
  map name (Git.listBranchesOf raw defaultBranch)
  = OldGit.listBranchesOf raw defaultBranch.
Proof.
  intros H raw defaultBranch. unfold Git.listBranchesOf, OldGit.listBranchesOf.
  rewrite (sort_map name (Git.branchOrder defaultBranch) (OldGit.nameOrder defaultBranch))
    by reflexivity.
  f_equal. unfold Git.branchEntries.
  pose proof (collect_buildEntry (Git.localBranches raw) (JS.lines raw) [] eq_refl) as Hfold.
  cbn [map] in Hfold. now rewrite Hfold.
Qed.

(** X16. The two revisions of [listBranches] show the same branches: the
    display names of the entries of the later one are, in the same order,
    the names that the earlier one returns from the same listing. The later
    revision only adds the reference to each name. *)
Theorem X16_listBranches_same_names :
  forall (H : Host) (raw defaultBranch : string),
  map name (Git.listBranchesOf raw defaultBranch)
  = OldGit.listBranchesOf raw defaultBranch.
Proof. exact listBranches_names. Qed.

(** ** [runTui] *)

Section TuiCommands.
Context {H : Host} {L : Launcher H}.







End TuiCommands.




(** ** The two revisions of git.ts *)

Section Revisions.
Context {H : Host} {L : Launcher H}.

Lemma exec_agree (args : list string) (cwd : option string) (st : Run.St) :
  Agree eq (Git.exec args cwd st) (OldGit.exec args cwd st).
Proof.
  rewrite exec_on, oldExec_on.
  destruct (startError ("git" :: args) cwd (Run.world st)); [now split |].
  cbv zeta. split; [reflexivity |]. cbn [fst].
  now destruct (exitCode _ =? 0)%Z.
Qed.

Lemma agree_bind {A B A' B'} (same : A -> B -> Prop) (same' : A' -> B' -> Prop)
  (m : Run.M A) (m' : Run.M B) (k : A -> Run.M A') (k' : B -> Run.M B') (st : Run.St) :
  Agree same (m st) (m' st) ->
  (forall a b s, same a b -> Agree same' (k a s) (k' b s)) ->
  Agree same' (Run.bind m k st) (Run.bind m' k' st).
Proof.
  unfold Agree, Run.bind.
  destruct (m st) as [[a | msg] s1]; destruct (m' st) as [[b | msg'] s2];
    cbn [fst snd]; intros [-> Hsame] Hk; try contradiction.
  - now apply Hk.
  - now split.
Qed.

Lemma agree_tryCatch {A B} (same : A -> B -> Prop)
  (m : Run.M A) (m' : Run.M B) (h : string -> Run.M A) (h' : string -> Run.M B)
  (st : Run.St) :
  Agree same (m st) (m' st) ->
  (forall msg msg' s, Agree same (h msg s) (h' msg' s)) ->
  Agree same (Run.tryCatch m h st) (Run.tryCatch m' h' st).
Proof.
  unfold Agree, Run.tryCatch.
  destruct (m st) as [[a | msg] s1]; destruct (m' st) as [[b | msg'] s2];
    cbn [fst snd]; intros [-> Hsame] Hh; try contradiction.
  - now split.
  - apply Hh.
Qed.

Lemma agree_ret {A B} (same : A -> B -> Prop) (a : A) (b : B) (st : Run.St) :
  same a b -> Agree same (Run.ret a st) (Run.ret b st).
Proof. intros Hsame. now split. Qed.

Lemma detectDefaultBranch_agree (r : string) (st : Run.St) :
  Agree eq (Git.detectDefaultBranch r st) (OldGit.detectDefaultBranch r st).
Proof.
  unfold Git.detectDefaultBranch, OldGit.detectDefaultBranch.
  apply agree_tryCatch.
  { eapply agree_bind; [apply exec_agree |].
    intros a b s ->. now apply agree_ret. }
  intros _ _ s1. apply agree_tryCatch.
  { eapply agree_bind; [apply exec_agree |].
    intros a b s _. now apply agree_ret. }
  intros _ _ s2. apply agree_tryCatch.
  { eapply agree_bind; [apply exec_agree |].
    intros a b s _. now apply agree_ret. }
  intros _ _ s3. eapply agree_bind; [apply exec_agree |].
  intros a b s ->. now apply agree_ret.
Qed.

End Revisions.

(** X18. The two revisions of git.ts find the same repository. From the
    same state on the same machine, [getRepoInfo] of the later revision
    and of the earlier one
    run the same commands and end in the same state; they fail together
    (only the wording of the error differs), and when they succeed they
    agree on the root, the name, the parent directory, the remote and the
    default branch, and the later one lists the same branch names in the
    same order. *)
Theorem X18_getRepoInfo_revisions_agree :
  forall (H : Host) (L : Launcher H) (st : Run.St),
  Agree (fun info earlier => earlier = namesOnly info)
        (Git.getRepoInfo st) (OldGit.getRepoInfo st).
Proof.
  intros H L st. unfold Git.getRepoInfo, OldGit.getRepoInfo.
  eapply agree_bind; [apply exec_agree |]. intros top ? s1 <-. cbv zeta.
  eapply (agree_bind eq).
  { apply agree_tryCatch.
    - eapply agree_bind; [apply exec_agree |]. intros url ? s <-. now apply agree_ret.
    - intros _ _ s. now apply agree_ret. }
  intros url ? s2 <-.
  eapply agree_bind; [apply detectDefaultBranch_agree |]. intros d ? s3 <-.
  eapply (agree_bind (fun later earlier => earlier = map name later)).
  { unfold Git.listBranches, OldGit.listBranches.
    eapply agree_bind; [apply exec_agree |]. intros raw ? s <-.
    apply agree_ret. symmetry. apply listBranches_names. }
  intros later earlier s4 ->. now apply agree_ret.
Qed.

Lemma help_texts_differ : Cli.HELP <> OldCli.HELP.
Proof.
  intros Heq. apply (f_equal String.length) in Heq. vm_compute in Heq. discriminate.
Qed.

(** X19. For a command line that asks for neither the version nor a
    subcommand, [main] does what it did before subcommands existed: the
    same dependency errors and the same end of the session. Only the help
    differs: both revisions print their help text when asked, and the two
    texts are not the same (the later one lists the subcommands). *)
Theorem X19_main_refines_earlier :
  forall (argv : list string) (deps : DepCheckResult) (tui : option string)
         (parsed : CliArgs),
  Cli.parseArgs argv = Args parsed ->
  version parsed = false -> config parsed = false -> cleanup parsed = false ->
  (if help parsed
   then Cli.main argv deps tui = PrintHelp Cli.HELP
        /\ OldCli.main argv deps tui = PrintHelp OldCli.HELP
   else Cli.main argv deps tui = OldCli.main argv deps tui)
  /\ Cli.HELP <> OldCli.HELP.
Proof.
  intros argv deps tui parsed Hparsed Hversion Hconfig Hcleanup.
  split; [| exact help_texts_differ].
  unfold Cli.main, OldCli.main. rewrite Hparsed, Hversion, Hconfig, Hcleanup.
  apply parseFrom_refines in Hparsed. unfold OldCli.parseArgs.
  cbn [help pathFile] in Hparsed. rewrite Hparsed. cbv zeta.
  cbn [OldCli.help OldCli.pathFile].
  destruct (help parsed); [split |]; reflexivity.
Qed.

Lemma X19_main_refines_earlier_witness :
  Cli.main ["-x"; "--path-file"; "/tmp/out"]
           (mkDeps (Some "/usr/bin/git") (Some "/usr/bin/claude") None None)
           (Some "/work/app-x")
  = OldCli.main ["-x"; "--path-file"; "/tmp/out"]
                (mkDeps (Some "/usr/bin/git") (Some "/usr/bin/claude") None None)
                (Some "/work/app-x")
  /\ Cli.HELP <> OldCli.HELP.
Proof.
  apply (X19_main_refines_earlier ["-x"; "--path-file"; "/tmp/out"]
           (mkDeps (Some "/usr/bin/git") (Some "/usr/bin/claude") None None)
           (Some "/work/app-x")
           (mkCliArgs false false false false (Some "/tmp/out")));
    reflexivity.
Defined.

Example main_help :
  Cli.main ["--help"] (mkDeps None None None None) None = PrintHelp Cli.HELP
  /\ JS.lines Cli.HELP
     = [ "slopcannon - Create a git worktree. Launch Claude Code. Ship slop.";
         EmptyString;
         "Usage:";
         "  slopcannon                     Interactive TUI";
         "  slopcannon cleanup|clean       Clean up merged/stale worktrees";
         "  slopcannon config              Configure settings";
         "  slopcannon --path-file <path>  Write worktree path to file (for shell function)";
         "  slopcannon --help              Show this help";
         EmptyString;
         "What it does:";
         "  git worktree add -b <branch> ../repo-branch origin/main";
         "  claude --dangerously-skip-permissions" ].
Proof. split; vm_compute; reflexivity. Qed.

(** ** Runs on the recorded hosts *)

Example formatCandidate_request :
  Cleanup.formatCandidate
    (mkWorktreeCandidate Sample.login true true
                         (Some (mkPrInfo 12 "Login form" "OPEN" "https://example.test/pull/12"))
                         true)
  = "feat/login (merged, gone from remote, PR #12 open: Login form)".
Proof. vm_compute. reflexivity. Qed.

Example runCleanup_accepted :
  fst (Cleanup.runCleanup (H := Fixture.host) Sweep.accept Sweep.st) = Ok (Done 1 [])
  /\ skipn 9 (map call_argv (Run.calls (snd (Cleanup.runCleanup (H := Fixture.host)
                                                Sweep.accept Sweep.st))))
     = [["git"; "worktree"; "remove"; "/work/app-feat-login"; "--force"];
        ["git"; "branch"; "-D"; "feat/login"]].
Proof. vm_compute. split; reflexivity. Qed.

Example runCleanup_declined :
  fst (Cleanup.runCleanup (H := Fixture.host) Sweep.decline Sweep.st) = Ok NotConfirmed
  /\ existsb (fun call => isDestructive (call_argv call))
             (Run.calls (snd (Cleanup.runCleanup (H := Fixture.host)
                                Sweep.decline Sweep.st)))
     = false.
Proof. vm_compute. split; reflexivity. Qed.

Example loadConfig_other_type :
  Config.loadConfig (Config.Object [("activationStyle", Config.VBoolean true)])
  = Some [("activationStyle", Config.VString "cannon")].
Proof. reflexivity. Qed.
